(** * The PNaCl translation coordinator (pnacl_coordinator.cc)

    A shallow embedding of [plugin::PnaclCoordinator]: the members of the
    class become the fields of a record, every method becomes a computation
    in a small state-and-failure monad, and every call the coordinator makes
    on one of its collaborators (the plugin, the file system, the streaming
    downloader, the translation thread, the cache file) is logged in a
    trace.  Asynchronous completions are events delivered by the host; a
    completion callback can only fire while it is registered with the
    coordinator's callback factory.

    Not embedded: PLUGIN_PRINTF logging and the calls of the UMA histogram
    helpers from the methods, which have no influence on control flow (the
    helpers themselves and the PnaclManifest class are embedded on their
    own); [HistogramKBPerSec], which computes on doubles; the destructor. *)

From Stdlib Require Import ZArith List String Bool Lia DecimalString Sorted.
From Stdlib.Strings Require Import Byte.
Import ListNotations.
Local Open Scope string_scope.
Local Open Scope Z_scope.

(** ** Pepper error codes

    The values of ppapi/c/pp_errors.h (not among the sources).  The
    coordinator compares them with each other and with zero, and uses a
    positive completion value as a byte count. *)
Module PP.
Definition OK : Z := 0.
Definition OK_COMPLETIONPENDING : Z := -1.
Definition ERROR_FAILED : Z := -2.
Definition ERROR_ABORTED : Z := -3.
Definition ERROR_NOACCESS : Z := -7.
Definition ERROR_NOSPACE : Z := -9.
Definition ERROR_NOQUOTA : Z := -10.
Definition ERROR_INPROGRESS : Z := -11.
Definition ERROR_FILENOTFOUND : Z := -20.
Definition ERROR_FILEEXISTS : Z := -21.
Definition ERROR_NOTAFILE : Z := -24.
End PP.

(** [kCopyBufSize = 512 << 10]. *)
Definition kCopyBufSize : Z := Z.shiftl 512 10.

(** Two's-complement reduction to the range of [int64_t]; the byte counters
    and file offsets of the coordinator are [int64_t]. *)
Definition wrap64 (z : Z) : Z := (z + 2 ^ 63) mod 2 ^ 64 - 2 ^ 63.

Definition add64 (a b : Z) : Z := wrap64 (a + b).

(** The same for [int32_t]. *)
Definition wrap32 (z : Z) : Z := (z + 2 ^ 31) mod 2 ^ 32 - 2 ^ 31.

Definition sub32 (a b : Z) : Z := wrap32 (a - b).

(** Decimal rendering of an integer, as [operator<<] on a stringstream. *)
Definition show_int (z : Z) : string := NilZero.string_of_int (Z.to_int z).

(** ** Error reports *)

(** The members of [enum PluginErrorCode] (plugin_error.h, not among the
    sources) that the coordinator and its helpers report. *)
Inductive PluginErrorCode : Type :=
| ERROR_UNKNOWN
| ERROR_PNACL_CACHE_OPEN_INPROGRESS
| ERROR_PNACL_CACHE_OPEN_NOACCESS
| ERROR_PNACL_CACHE_OPEN_NOQUOTA
| ERROR_PNACL_CACHE_OPEN_NOSPACE
| ERROR_PNACL_CACHE_OPEN_OTHER
| ERROR_PNACL_CACHE_DIRECTORY_CREATE
| ERROR_PNACL_CACHE_FILEOPEN_NOACCESS
| ERROR_PNACL_CACHE_FILEOPEN_NOQUOTA
| ERROR_PNACL_CACHE_FILEOPEN_NOSPACE
| ERROR_PNACL_CACHE_FILEOPEN_NOTAFILE
| ERROR_PNACL_CACHE_FILEOPEN_OTHER
| ERROR_PNACL_CACHE_FETCH_NOACCESS
| ERROR_PNACL_CACHE_FETCH_NOTFOUND
| ERROR_PNACL_CACHE_FETCH_OTHER
| ERROR_PNACL_CACHE_FINALIZE_COPY_NOQUOTA
| ERROR_PNACL_CACHE_FINALIZE_COPY_NOSPACE
| ERROR_PNACL_CACHE_FINALIZE_COPY_OTHER
| ERROR_PNACL_CACHE_FINALIZE_RENAME_NOACCESS
| ERROR_PNACL_CACHE_FINALIZE_RENAME_OTHER
| ERROR_PNACL_RESOURCE_FETCH
| ERROR_PNACL_PEXE_FETCH_ABORTED
| ERROR_PNACL_PEXE_FETCH_NOACCESS
| ERROR_PNACL_PEXE_FETCH_OTHER
| ERROR_PNACL_THREAD_CREATE
| ERROR_PNACL_LLC_SETUP
| ERROR_PNACL_LD_SETUP
| ERROR_PNACL_LLC_INTERNAL
| ERROR_PNACL_LD_INTERNAL
| ERROR_PNACL_CREATE_TEMP.

(** [ErrorInfo]: the code and the message of the last [SetReport]. *)
Record ErrorInfo : Type := mkErrorInfo {
  error_code : PluginErrorCode;
  message : string
}.

(** ** Files *)

(** Names in the translation cache directory [kPnaclTempDir]: the random
    scratch name of a file being written, or a cache key. *)
Inductive FileName : Type :=
| ScratchName
| KeyName (key : string).

Definition FileName_eqb (a b : FileName) : bool :=
  match a, b with
  | ScratchName, ScratchName => true
  | KeyName k1, KeyName k2 => String.eqb k1 k2
  | _, _ => false
  end.

(** Modelled from the spec: [nacl::DescWrapper] (not among the sources) as
    a read handle on a file: the bytes of the file and the position of the
    file pointer. *)
Record DescWrapper : Type := mkDescWrapper {
  dw_contents : list byte;
  dw_pos : Z
}.

(** Modelled from the spec: [DescWrapper::Read(buf, n)] copies up to [n]
    bytes from the file pointer on and advances it; the count is 0 at end
    of file. *)
Definition dw_read (n : Z) (d : DescWrapper) : list byte * DescWrapper :=
  let buf := firstn (Z.to_nat n) (skipn (Z.to_nat (dw_pos d)) (dw_contents d)) in
  (buf, mkDescWrapper (dw_contents d) (dw_pos d + Z.of_nat (List.length buf))).

(** Modelled from the spec: [DescWrapper::Seek(offset, SEEK_CUR)] moves the
    file pointer by [offset] and returns the new position; a move before the
    start of the file fails with a negative value (-EINVAL) and leaves the
    pointer in place. *)
Definition dw_seek_cur (offset : Z) (d : DescWrapper) : Z * DescWrapper :=
  if dw_pos d + offset <? 0 then (-22, d)
  else (dw_pos d + offset, mkDescWrapper (dw_contents d) (dw_pos d + offset)).

(** Modelled from the spec: [TempFile] (temporary_file.h, not among the
    sources): an anonymous temporary file with a read wrapper; [None] for
    the wrapper once [release_read_wrapper] has handed it over. *)
Record TempFile : Type := mkTempFile {
  tf_read_wrapper : option DescWrapper
}.

(** Modelled from the spec: [LocalTempFile] (local_temp_file.h, not among
    the sources): a file of the cache directory, known by its current name,
    with the target of a rename in progress and the read wrapper that a
    completed [OpenRead] provides. *)
Record LocalTempFile : Type := mkLocalTempFile {
  ltf_filename : FileName;
  ltf_rename_target : option string;
  ltf_read_wrapper : option DescWrapper
}.

(** [PnaclOptions]: the optimisation level and the cache validators. *)
Record PnaclOptions : Type := mkPnaclOptions {
  opt_level : Z;
  cache_validators : string
}.

Definition set_cache_validators (v : string) (o : PnaclOptions) : PnaclOptions :=
  mkPnaclOptions (opt_level o) v.

(** [FileDownloader]: what the coordinator reads from the streaming
    downloader: the final URL, the raw response headers and the total number
    of bytes the response announces (-1 while it is not known). *)
Record FileDownloader : Type := mkFileDownloader {
  dl_url : string;
  dl_response_headers : string;
  dl_total_bytes : Z
}.

(** ** Callbacks and collaborators *)

(** The completion callbacks that [callback_factory_.NewCallback] makes: the
    method to run, with the arguments bound at creation.  The completion
    value [pp_error] arrives when the callback fires. *)
Inductive Callback : Type :=
| CbResourceInfoWasRead
| CbResourcesDidLoad
| CbFileSystemDidOpen
| CbDirectoryWasCreated
| CbObjectFileDidOpen
| CbBitcodeStreamDidOpen
| CbNexeFdDidOpen
| CbCachedFileDidOpen
| CbBitcodeStreamDidFinish
| CbBitcodeStreamGotData
| CbBitcodeGotCompiled (bytes_compiled : Z)
| CbRunTranslate
| CbTranslateFinished
| CbCachedNexeOpenedForWrite
| CbDidCopyNexeToCachePartial (num_read_prev : Z) (cur_offset : Z)
| CbCorruptCacheFileWasDeleted (orig_pp_error : Z)
| CbNexeFileWasRenamed
| CbNexeReadDidOpen.

Definition Callback_eq_dec (a b : Callback) : {a = b} + {a <> b}.
Proof. decide equality; apply Z.eq_dec. Defined.

(** Which of the two anonymous temporary files an operation is on. *)
Inductive TempFileId : Type := ObjFile | NexeFile.

(** The calls the coordinator makes on its collaborators, in the order of
    the source; the trace of a run is the list of these calls. *)
Inductive Action : Type :=
(* plugin_ *)
| ReportLoadError (info : ErrorInfo)
| EnqueueProgressEvent (url : string) (length_computable : bool)
    (loaded_bytes total_bytes : Z)
| ReportTranslationFinished
| GetNexeFd (key : string)
(* callback_factory_ and translate_notify_callback_ *)
| CancelAll
| RunTranslateNotifyCallback (pp_error : Z)
(* resources_ *)
| ReadResourceInfo
| StartLoad
(* file_system_ and dir_ref_ *)
| FileSystemOpen
| MakeDirectory
(* streaming_downloader_ *)
| OpenStream (url : string)
| FinishStreaming
(* translate_thread_ *)
| ThreadRunTranslate
| AbortSubprocesses
| PutBytes (data : option (list byte)) (pp_error : Z)
(* obj_file_ and temp_nexe_file_ *)
| TempFileOpen (f : TempFileId) (writeable : bool)
| TempFileRead (num_read : Z)
| TempFileSeekCur (offset : Z)
| TempFileReset
(* cached_nexe_file_ *)
| CacheOpenRead (name : FileName)
| CacheOpenWrite (name : FileName)
| CacheWrite (name : FileName) (offset : Z) (buf : list byte)
| CacheDelete (name : FileName)
| CacheRename (name : FileName) (new_name : string)
| CacheFinishRename.

(** [PnaclTranslateThread]: the coordinator only creates it, hands it
    bytes and aborts it. *)
Inductive PnaclTranslateThread : Type := TranslateThread.

(** What the embedding browser answers, fixed for one request: whether the
    profile is off the record, whether PNACL_USE_NEW_CACHE is set, the
    synchronous results of [FileSystem::Open], [FileDownloader::OpenStream],
    [GetNexeFd] and [TempFile::SetExistingFd], the downloader that serves
    the pexe, what [GetNexeFd] delivers through its out-parameters, and the
    files of the cache directory when the request starts. *)
Record Host : Type := mkHost {
  host_off_the_record : bool;
  host_use_new_cache : bool;
  host_fs_open_result : Z;
  host_open_stream_ok : bool;
  host_downloader : FileDownloader;
  host_nexe_fd_err : Z;
  host_is_cache_hit : bool;
  host_nexe_handle : Z;
  host_nexe_fd_contents : list byte;
  host_set_existing_fd_ok : bool;
  host_disk : FileName -> option (list byte)
}.

(** ** The coordinator

    The data members of [PnaclCoordinator] that take part in control flow,
    under their names in the class, followed by the part of the world the
    coordinator acts on: the browser answers [host_], the files of the cache
    directory [disk_], the buffer of the outstanding [FileIO::Write]
    [write_in_flight_], and the trace of calls made so far, latest first. *)
Record Coordinator : Type := mkCoordinator {
  translate_finish_error_ : Z;
  pexe_url_ : string;
  pnacl_options_ : PnaclOptions;
  use_new_cache_ : bool;
  is_cache_hit_ : bool;
  nexe_handle_ : Z;
  error_already_reported_ : bool;
  off_the_record_ : bool;
  pexe_size_ : Z;
  pexe_bytes_compiled_ : Z;
  expected_pexe_size_ : Z;
  error_info_ : ErrorInfo;
  streaming_downloader_ : option FileDownloader;
  translate_thread_ : option PnaclTranslateThread;
  obj_file_ : option TempFile;
  temp_nexe_file_ : option TempFile;
  cached_nexe_file_ : option LocalTempFile;
  translated_fd_ : option DescWrapper;
  callback_factory_ : list Callback;
  host_ : Host;
  disk_ : FileName -> option (list byte);
  write_in_flight_ : option (Z * list byte);
  trace_ : list Action
}.

Definition set_translate_finish_error_ (v : Z) (s : Coordinator) : Coordinator :=
  mkCoordinator v (pexe_url_ s) (pnacl_options_ s) (use_new_cache_ s)
    (is_cache_hit_ s) (nexe_handle_ s) (error_already_reported_ s)
    (off_the_record_ s) (pexe_size_ s) (pexe_bytes_compiled_ s)
    (expected_pexe_size_ s) (error_info_ s) (streaming_downloader_ s)
    (translate_thread_ s) (obj_file_ s) (temp_nexe_file_ s)
    (cached_nexe_file_ s) (translated_fd_ s) (callback_factory_ s) (host_ s)
    (disk_ s) (write_in_flight_ s) (trace_ s).

Definition set_pexe_url_ (v : string) (s : Coordinator) : Coordinator :=
  mkCoordinator (translate_finish_error_ s) v (pnacl_options_ s)
    (use_new_cache_ s) (is_cache_hit_ s) (nexe_handle_ s)
    (error_already_reported_ s) (off_the_record_ s) (pexe_size_ s)
    (pexe_bytes_compiled_ s) (expected_pexe_size_ s) (error_info_ s)
    (streaming_downloader_ s) (translate_thread_ s) (obj_file_ s)
    (temp_nexe_file_ s) (cached_nexe_file_ s) (translated_fd_ s)
    (callback_factory_ s) (host_ s) (disk_ s) (write_in_flight_ s) (trace_ s).

Definition set_pnacl_options_ (v : PnaclOptions) (s : Coordinator) : Coordinator :=
  mkCoordinator (translate_finish_error_ s) (pexe_url_ s) v (use_new_cache_ s)
    (is_cache_hit_ s) (nexe_handle_ s) (error_already_reported_ s)
    (off_the_record_ s) (pexe_size_ s) (pexe_bytes_compiled_ s)
    (expected_pexe_size_ s) (error_info_ s) (streaming_downloader_ s)
    (translate_thread_ s) (obj_file_ s) (temp_nexe_file_ s)
    (cached_nexe_file_ s) (translated_fd_ s) (callback_factory_ s) (host_ s)
    (disk_ s) (write_in_flight_ s) (trace_ s).

Definition set_use_new_cache_ (v : bool) (s : Coordinator) : Coordinator :=
  mkCoordinator (translate_finish_error_ s) (pexe_url_ s) (pnacl_options_ s) v
    (is_cache_hit_ s) (nexe_handle_ s) (error_already_reported_ s)
    (off_the_record_ s) (pexe_size_ s) (pexe_bytes_compiled_ s)
    (expected_pexe_size_ s) (error_info_ s) (streaming_downloader_ s)
    (translate_thread_ s) (obj_file_ s) (temp_nexe_file_ s)
    (cached_nexe_file_ s) (translated_fd_ s) (callback_factory_ s) (host_ s)
    (disk_ s) (write_in_flight_ s) (trace_ s).

Definition set_is_cache_hit_ (v : bool) (s : Coordinator) : Coordinator :=
  mkCoordinator (translate_finish_error_ s) (pexe_url_ s) (pnacl_options_ s)
    (use_new_cache_ s) v (nexe_handle_ s) (error_already_reported_ s)
    (off_the_record_ s) (pexe_size_ s) (pexe_bytes_compiled_ s)
    (expected_pexe_size_ s) (error_info_ s) (streaming_downloader_ s)
    (translate_thread_ s) (obj_file_ s) (temp_nexe_file_ s)
    (cached_nexe_file_ s) (translated_fd_ s) (callback_factory_ s) (host_ s)
    (disk_ s) (write_in_flight_ s) (trace_ s).

Definition set_nexe_handle_ (v : Z) (s : Coordinator) : Coordinator :=
  mkCoordinator (translate_finish_error_ s) (pexe_url_ s) (pnacl_options_ s)
    (use_new_cache_ s) (is_cache_hit_ s) v (error_already_reported_ s)
    (off_the_record_ s) (pexe_size_ s) (pexe_bytes_compiled_ s)
    (expected_pexe_size_ s) (error_info_ s) (streaming_downloader_ s)
    (translate_thread_ s) (obj_file_ s) (temp_nexe_file_ s)
    (cached_nexe_file_ s) (translated_fd_ s) (callback_factory_ s) (host_ s)
    (disk_ s) (write_in_flight_ s) (trace_ s).

Definition set_error_already_reported_ (v : bool) (s : Coordinator) : Coordinator :=
  mkCoordinator (translate_finish_error_ s) (pexe_url_ s) (pnacl_options_ s)
    (use_new_cache_ s) (is_cache_hit_ s) (nexe_handle_ s) v
    (off_the_record_ s) (pexe_size_ s) (pexe_bytes_compiled_ s)
    (expected_pexe_size_ s) (error_info_ s) (streaming_downloader_ s)
    (translate_thread_ s) (obj_file_ s) (temp_nexe_file_ s)
    (cached_nexe_file_ s) (translated_fd_ s) (callback_factory_ s) (host_ s)
    (disk_ s) (write_in_flight_ s) (trace_ s).

Definition set_off_the_record_ (v : bool) (s : Coordinator) : Coordinator :=
  mkCoordinator (translate_finish_error_ s) (pexe_url_ s) (pnacl_options_ s)
    (use_new_cache_ s) (is_cache_hit_ s) (nexe_handle_ s)
    (error_already_reported_ s) v (pexe_size_ s) (pexe_bytes_compiled_ s)
    (expected_pexe_size_ s) (error_info_ s) (streaming_downloader_ s)
    (translate_thread_ s) (obj_file_ s) (temp_nexe_file_ s)
    (cached_nexe_file_ s) (translated_fd_ s) (callback_factory_ s) (host_ s)
    (disk_ s) (write_in_flight_ s) (trace_ s).

Definition set_pexe_size_ (v : Z) (s : Coordinator) : Coordinator :=
  mkCoordinator (translate_finish_error_ s) (pexe_url_ s) (pnacl_options_ s)
    (use_new_cache_ s) (is_cache_hit_ s) (nexe_handle_ s)
    (error_already_reported_ s) (off_the_record_ s) v (pexe_bytes_compiled_ s)
    (expected_pexe_size_ s) (error_info_ s) (streaming_downloader_ s)
    (translate_thread_ s) (obj_file_ s) (temp_nexe_file_ s)
    (cached_nexe_file_ s) (translated_fd_ s) (callback_factory_ s) (host_ s)
    (disk_ s) (write_in_flight_ s) (trace_ s).

Definition set_pexe_bytes_compiled_ (v : Z) (s : Coordinator) : Coordinator :=
  mkCoordinator (translate_finish_error_ s) (pexe_url_ s) (pnacl_options_ s)
    (use_new_cache_ s) (is_cache_hit_ s) (nexe_handle_ s)
    (error_already_reported_ s) (off_the_record_ s) (pexe_size_ s) v
    (expected_pexe_size_ s) (error_info_ s) (streaming_downloader_ s)
    (translate_thread_ s) (obj_file_ s) (temp_nexe_file_ s)
    (cached_nexe_file_ s) (translated_fd_ s) (callback_factory_ s) (host_ s)
    (disk_ s) (write_in_flight_ s) (trace_ s).

Definition set_expected_pexe_size_ (v : Z) (s : Coordinator) : Coordinator :=
  mkCoordinator (translate_finish_error_ s) (pexe_url_ s) (pnacl_options_ s)
    (use_new_cache_ s) (is_cache_hit_ s) (nexe_handle_ s)
    (error_already_reported_ s) (off_the_record_ s) (pexe_size_ s)
    (pexe_bytes_compiled_ s) v (error_info_ s) (streaming_downloader_ s)
    (translate_thread_ s) (obj_file_ s) (temp_nexe_file_ s)
    (cached_nexe_file_ s) (translated_fd_ s) (callback_factory_ s) (host_ s)
    (disk_ s) (write_in_flight_ s) (trace_ s).

Definition set_error_info_ (v : ErrorInfo) (s : Coordinator) : Coordinator :=
  mkCoordinator (translate_finish_error_ s) (pexe_url_ s) (pnacl_options_ s)
    (use_new_cache_ s) (is_cache_hit_ s) (nexe_handle_ s)
    (error_already_reported_ s) (off_the_record_ s) (pexe_size_ s)
    (pexe_bytes_compiled_ s) (expected_pexe_size_ s) v
    (streaming_downloader_ s) (translate_thread_ s) (obj_file_ s)
    (temp_nexe_file_ s) (cached_nexe_file_ s) (translated_fd_ s)
    (callback_factory_ s) (host_ s) (disk_ s) (write_in_flight_ s) (trace_ s).

Definition set_streaming_downloader_ (v : option FileDownloader) (s : Coordinator) : Coordinator :=
  mkCoordinator (translate_finish_error_ s) (pexe_url_ s) (pnacl_options_ s)
    (use_new_cache_ s) (is_cache_hit_ s) (nexe_handle_ s)
    (error_already_reported_ s) (off_the_record_ s) (pexe_size_ s)
    (pexe_bytes_compiled_ s) (expected_pexe_size_ s) (error_info_ s) v
    (translate_thread_ s) (obj_file_ s) (temp_nexe_file_ s)
    (cached_nexe_file_ s) (translated_fd_ s) (callback_factory_ s) (host_ s)
    (disk_ s) (write_in_flight_ s) (trace_ s).

Definition set_translate_thread_ (v : option PnaclTranslateThread) (s : Coordinator) : Coordinator :=
  mkCoordinator (translate_finish_error_ s) (pexe_url_ s) (pnacl_options_ s)
    (use_new_cache_ s) (is_cache_hit_ s) (nexe_handle_ s)
    (error_already_reported_ s) (off_the_record_ s) (pexe_size_ s)
    (pexe_bytes_compiled_ s) (expected_pexe_size_ s) (error_info_ s)
    (streaming_downloader_ s) v (obj_file_ s) (temp_nexe_file_ s)
    (cached_nexe_file_ s) (translated_fd_ s) (callback_factory_ s) (host_ s)
    (disk_ s) (write_in_flight_ s) (trace_ s).

Definition set_obj_file_ (v : option TempFile) (s : Coordinator) : Coordinator :=
  mkCoordinator (translate_finish_error_ s) (pexe_url_ s) (pnacl_options_ s)
    (use_new_cache_ s) (is_cache_hit_ s) (nexe_handle_ s)
    (error_already_reported_ s) (off_the_record_ s) (pexe_size_ s)
    (pexe_bytes_compiled_ s) (expected_pexe_size_ s) (error_info_ s)
    (streaming_downloader_ s) (translate_thread_ s) v (temp_nexe_file_ s)
    (cached_nexe_file_ s) (translated_fd_ s) (callback_factory_ s) (host_ s)
    (disk_ s) (write_in_flight_ s) (trace_ s).

Definition set_temp_nexe_file_ (v : option TempFile) (s : Coordinator) : Coordinator :=
  mkCoordinator (translate_finish_error_ s) (pexe_url_ s) (pnacl_options_ s)
    (use_new_cache_ s) (is_cache_hit_ s) (nexe_handle_ s)
    (error_already_reported_ s) (off_the_record_ s) (pexe_size_ s)
    (pexe_bytes_compiled_ s) (expected_pexe_size_ s) (error_info_ s)
    (streaming_downloader_ s) (translate_thread_ s) (obj_file_ s) v
    (cached_nexe_file_ s) (translated_fd_ s) (callback_factory_ s) (host_ s)
    (disk_ s) (write_in_flight_ s) (trace_ s).

Definition set_cached_nexe_file_ (v : option LocalTempFile) (s : Coordinator) : Coordinator :=
  mkCoordinator (translate_finish_error_ s) (pexe_url_ s) (pnacl_options_ s)
    (use_new_cache_ s) (is_cache_hit_ s) (nexe_handle_ s)
    (error_already_reported_ s) (off_the_record_ s) (pexe_size_ s)
    (pexe_bytes_compiled_ s) (expected_pexe_size_ s) (error_info_ s)
    (streaming_downloader_ s) (translate_thread_ s) (obj_file_ s)
    (temp_nexe_file_ s) v (translated_fd_ s) (callback_factory_ s) (host_ s)
    (disk_ s) (write_in_flight_ s) (trace_ s).

Definition set_translated_fd_ (v : option DescWrapper) (s : Coordinator) : Coordinator :=
  mkCoordinator (translate_finish_error_ s) (pexe_url_ s) (pnacl_options_ s)
    (use_new_cache_ s) (is_cache_hit_ s) (nexe_handle_ s)
    (error_already_reported_ s) (off_the_record_ s) (pexe_size_ s)
    (pexe_bytes_compiled_ s) (expected_pexe_size_ s) (error_info_ s)
    (streaming_downloader_ s) (translate_thread_ s) (obj_file_ s)
    (temp_nexe_file_ s) (cached_nexe_file_ s) v (callback_factory_ s)
    (host_ s) (disk_ s) (write_in_flight_ s) (trace_ s).

Definition set_callback_factory_ (v : list Callback) (s : Coordinator) : Coordinator :=
  mkCoordinator (translate_finish_error_ s) (pexe_url_ s) (pnacl_options_ s)
    (use_new_cache_ s) (is_cache_hit_ s) (nexe_handle_ s)
    (error_already_reported_ s) (off_the_record_ s) (pexe_size_ s)
    (pexe_bytes_compiled_ s) (expected_pexe_size_ s) (error_info_ s)
    (streaming_downloader_ s) (translate_thread_ s) (obj_file_ s)
    (temp_nexe_file_ s) (cached_nexe_file_ s) (translated_fd_ s) v (host_ s)
    (disk_ s) (write_in_flight_ s) (trace_ s).

Definition set_disk_ (v : FileName -> option (list byte)) (s : Coordinator) : Coordinator :=
  mkCoordinator (translate_finish_error_ s) (pexe_url_ s) (pnacl_options_ s)
    (use_new_cache_ s) (is_cache_hit_ s) (nexe_handle_ s)
    (error_already_reported_ s) (off_the_record_ s) (pexe_size_ s)
    (pexe_bytes_compiled_ s) (expected_pexe_size_ s) (error_info_ s)
    (streaming_downloader_ s) (translate_thread_ s) (obj_file_ s)
    (temp_nexe_file_ s) (cached_nexe_file_ s) (translated_fd_ s)
    (callback_factory_ s) (host_ s) v (write_in_flight_ s) (trace_ s).

Definition set_write_in_flight_ (v : option (Z * list byte)) (s : Coordinator) : Coordinator :=
  mkCoordinator (translate_finish_error_ s) (pexe_url_ s) (pnacl_options_ s)
    (use_new_cache_ s) (is_cache_hit_ s) (nexe_handle_ s)
    (error_already_reported_ s) (off_the_record_ s) (pexe_size_ s)
    (pexe_bytes_compiled_ s) (expected_pexe_size_ s) (error_info_ s)
    (streaming_downloader_ s) (translate_thread_ s) (obj_file_ s)
    (temp_nexe_file_ s) (cached_nexe_file_ s) (translated_fd_ s)
    (callback_factory_ s) (host_ s) (disk_ s) v (trace_ s).

Definition set_trace_ (v : list Action) (s : Coordinator) : Coordinator :=
  mkCoordinator (translate_finish_error_ s) (pexe_url_ s) (pnacl_options_ s)
    (use_new_cache_ s) (is_cache_hit_ s) (nexe_handle_ s)
    (error_already_reported_ s) (off_the_record_ s) (pexe_size_ s)
    (pexe_bytes_compiled_ s) (expected_pexe_size_ s) (error_info_ s)
    (streaming_downloader_ s) (translate_thread_ s) (obj_file_ s)
    (temp_nexe_file_ s) (cached_nexe_file_ s) (translated_fd_ s)
    (callback_factory_ s) (host_ s) (disk_ s) (write_in_flight_ s) v.

(** ** The monad of the methods

    A method reads and updates the coordinator and may stop the process: a
    NULL [scoped_ptr] dereferenced or a CHECK that fails is [crash]. *)
Definition M (A : Type) : Type := Coordinator -> option (A * Coordinator).

Definition ret {A : Type} (a : A) : M A := fun s => Some (a, s).

Definition bind {A B : Type} (m : M A) (k : A -> M B) : M B :=
  fun s => match m s with
           | Some (a, s') => k a s'
           | None => None
           end.

Definition crash {A : Type} : M A := fun _ => None.

Definition gets {A : Type} (f : Coordinator -> A) : M A :=
  fun s => Some (f s, s).

Definition modify (f : Coordinator -> Coordinator) : M unit :=
  fun s => Some (tt, f s).

Notation "x <- m ;; k" := (bind m (fun x => k))
  (at level 61, m at next level, right associativity).
Notation "m ;; k" := (bind m (fun _ => k))
  (at level 61, right associativity).

(** [p->...] on a [scoped_ptr] member. *)
Definition deref {A : Type} (p : Coordinator -> option A) : M A :=
  fun s => match p s with
           | Some a => Some (a, s)
           | None => None
           end.

Definition CHECK (b : bool) : M unit := if b then ret tt else crash.

(** A call on a collaborator, logged. *)
Definition call (a : Action) : M unit :=
  modify (fun s => set_trace_ (a :: trace_ s) s).

(** [callback_factory_.NewCallback(...)]: the callback is registered until
    it fires or is cancelled. *)
Definition NewCallback (cb : Callback) : M unit :=
  modify (fun s => set_callback_factory_ (cb :: callback_factory_ s) s).

(** [callback_factory_.CancelAll()]: no callback made so far will run. *)
Definition callback_factory_CancelAll : M unit :=
  call CancelAll ;;
  modify (set_callback_factory_ []).

Definition is_some {A : Type} (o : option A) : bool :=
  match o with Some _ => true | None => false end.

(** *** The files, as the coordinator uses them *)

(** [temp_nexe_file_->read_wrapper()], for [Read], [Seek] and [Fstat]. *)
Definition temp_nexe_read_wrapper : M DescWrapper :=
  f <- deref temp_nexe_file_ ;;
  deref (fun _ => tf_read_wrapper f).

Definition set_temp_nexe_read_wrapper (d : option DescWrapper) : M unit :=
  modify (set_temp_nexe_file_ (Some (mkTempFile d))).

(** [read_wrapper->Read(buf, sizeof buf)] with [char buf[kCopyBufSize]]:
    the bytes read; their number is the return value. *)
Definition read_wrapper_Read : M (list byte) :=
  d <- temp_nexe_read_wrapper ;;
  let (buf, d') := dw_read kCopyBufSize d in
  set_temp_nexe_read_wrapper (Some d') ;;
  call (TempFileRead (Z.of_nat (List.length buf))) ;;
  ret buf.

(** [read_wrapper->Seek(offset, SEEK_CUR)]. *)
Definition read_wrapper_Seek (offset : Z) : M Z :=
  d <- temp_nexe_read_wrapper ;;
  let (seek_result, d') := dw_seek_cur offset d in
  set_temp_nexe_read_wrapper (Some d') ;;
  call (TempFileSeekCur offset) ;;
  ret seek_result.

(** Modelled from the spec: [TempFile::Reset] (not among the sources) puts
    the file pointer of the read wrapper back to the start of the file. *)
Definition temp_nexe_file_Reset : M unit :=
  d <- temp_nexe_read_wrapper ;;
  set_temp_nexe_read_wrapper (Some (mkDescWrapper (dw_contents d) 0)) ;;
  call TempFileReset.

(** [cached_nexe_file_->write_file_io()->Write(offset, buf, num_read, cb)]:
    one write is outstanding, on the bytes that [buf] holds when the call is
    made; the host completes it later. *)
Definition write_file_io_Write (offset : Z) (buf : list byte) : M unit :=
  f <- deref cached_nexe_file_ ;;
  call (CacheWrite (ltf_filename f) offset buf) ;;
  modify (set_write_in_flight_ (Some (offset, buf))).

(** Modelled from the spec: the operations of [LocalTempFile] (not among
    the sources) that the coordinator starts on [cached_nexe_file_]. *)
Definition cached_nexe_file_OpenRead : M unit :=
  f <- deref cached_nexe_file_ ;;
  call (CacheOpenRead (ltf_filename f)).

Definition cached_nexe_file_OpenWrite : M unit :=
  f <- deref cached_nexe_file_ ;;
  call (CacheOpenWrite (ltf_filename f)).

Definition cached_nexe_file_Delete : M unit :=
  f <- deref cached_nexe_file_ ;;
  call (CacheDelete (ltf_filename f)).

Definition cached_nexe_file_Rename (new_name : string) : M unit :=
  f <- deref cached_nexe_file_ ;;
  call (CacheRename (ltf_filename f) new_name) ;;
  modify (set_cached_nexe_file_
            (Some (mkLocalTempFile (ltf_filename f) (Some new_name)
                     (ltf_read_wrapper f)))).

(** [FinishRename]: the file is known by its new name from now on. *)
Definition cached_nexe_file_FinishRename : M unit :=
  f <- deref cached_nexe_file_ ;;
  call CacheFinishRename ;;
  modify (set_cached_nexe_file_
            (Some (mkLocalTempFile
                     (match ltf_rename_target f with
                      | Some k => KeyName k
                      | None => ltf_filename f
                      end)
                     None (ltf_read_wrapper f)))).

(** ** The manifest of the component files

    [PnaclManifest] serves the reverse service lookup of the PNaCl linker:
    it resolves the keys of the files of the translator to URLs below a
    base URL.  [PnaclUrls] is not among the sources: the base URL that its
    [GetBaseUrl] gives the constructor is the field of the manifest, and its
    [PrependPlatformPrefix] is a parameter. *)

(** The two members of [enum PluginErrorCode] that the manifest reports. *)
Inductive ManifestErrorCode : Type :=
| ERROR_MANIFEST_RESOLVE_URL
| ERROR_MANIFEST_GET_NEXE_URL.

Record PnaclManifest : Type := mkPnaclManifest {
  manifest_base_url_ : string
}.

(** What the out-parameters of a method of the manifest hold: the string
    behind [full_url], the translate flag of the options behind
    [pnacl_options], and the report set in the error info behind
    [error_info], if [SetReport] has been called on it. *)
Record ManifestOut : Type := mkManifestOut {
  out_full_url : string;
  out_translate : bool;
  out_error_info : option (ManifestErrorCode * string)
}.

(** [s.find(pattern)]: the position of the first occurrence of [pattern] in
    [s]; [npos] is [None]. *)
Definition string_find (pattern s : string) : option nat :=
  index 0 pattern s.

(** [s.substr(pos)], for a position within [s]: the characters of [s] from
    [pos] on. *)
Definition string_substr (pos : nat) (s : string) : string :=
  substring pos (String.length s - pos) s.

Section PnaclManifestMethods.

Variable PrependPlatformPrefix : string -> string.

Definition GetProgramURL (m : PnaclManifest) (o : ManifestOut)
    : bool * ManifestOut :=
  (* Does not contain program urls. *)
  (false,
   mkManifestOut (out_full_url o) (out_translate o)
     (Some (ERROR_MANIFEST_GET_NEXE_URL,
            "pnacl manifest does not contain a program."))).

Definition ResolveURL (m : PnaclManifest) (relative_url : string)
    (o : ManifestOut) : bool * ManifestOut :=
  (* Does not do general URL resolution, simply appends relative_url to the
     end of manifest_base_url_. *)
  (true,
   mkManifestOut (manifest_base_url_ m ++ relative_url) (out_translate o)
     (out_error_info o)).

Definition GetFileKeys (m : PnaclManifest) (keys : list string)
    : bool * list string :=
  (* Does not support enumeration. *)
  (false, keys).

Definition ResolveKey (m : PnaclManifest) (key : string) (o : ManifestOut)
    : bool * ManifestOut :=
  (* All of the component files are native (do not require pnacl
     translate). *)
  let o := mkManifestOut (out_full_url o) false (out_error_info o) in
  (* We can only resolve keys in the files/ namespace. *)
  let kFilesPrefix := "files/" in
  match string_find kFilesPrefix key with
  | None =>
      (false,
       mkManifestOut (out_full_url o) (out_translate o)
         (Some (ERROR_MANIFEST_RESOLVE_URL, "key did not start with files/")))
  | Some files_prefix_pos =>
      (* Resolve the full URL to the file. Provide it with a
         platform-specific prefix. *)
      let key_basename := string_substr (String.length kFilesPrefix) key in
      ResolveURL m (PrependPlatformPrefix key_basename) o
  end.

End PnaclManifestMethods.

(** ** The UMA histograms

    The helpers that report statistics through the private UMA interface of
    the browser.  The interface pointer is looked up on first use and kept
    in a variable of the file; [HistogramKBPerSec], which computes on
    doubles, is left out. *)

(** The calls on [PPB_UMA_Private]. *)
Inductive UmaCall : Type :=
| HistogramCustomTimes (name : string) (sample min max : Z)
    (bucket_count : Z)
| HistogramCustomCounts (name : string) (sample min max : Z)
    (bucket_count : Z)
| HistogramEnumeration (name : string) (sample boundary_value : Z).

(* Assume translation time metrics *can be* large.  Up to 12 minutes. *)
Definition kTimeLargeMin : Z := 10.
Definition kTimeLargeMax : Z := 720000.
Definition kTimeLargeBuckets : Z := 100.

Definition kSizeKBMin : Z := 1.
Definition kSizeKBMax : Z := 512 * 1024.
Definition kSizeKBBuckets : Z := 100.

Definition kRatioMin : Z := 10.
Definition kRatioMax : Z := 10 * 100.
Definition kRatioBuckets : Z := 100.

(* Opt level is expected to be 0 to 3.  Treating 4 as unknown. *)
Definition kOptUnknown : Z := 4.

(** The variable [uma_interface] of the file (whether it is not NULL), what
    the browser answers when it is asked for the interface, the number of
    times it has been asked, and the calls made on the interface, latest
    first. *)
Record Uma : Type := mkUma {
  uma_interface : bool;
  uma_browser_interface : bool;
  uma_lookups : nat;
  uma_calls : list UmaCall
}.

Definition uma_record (c : UmaCall) (u : Uma) : Uma :=
  mkUma (uma_interface u) (uma_browser_interface u) (uma_lookups u)
    (c :: uma_calls u).

Definition GetUMAInterface (u : Uma) : bool * Uma :=
  if uma_interface u then (true, u)
  else
    let found := uma_browser_interface u in
    (found,
     mkUma found (uma_browser_interface u) (S (uma_lookups u)) (uma_calls u)).

Definition HistogramTime (name : string) (ms : Z) (u : Uma) : Uma :=
  if ms <? 0 then u
  else
    let (ptr, u) := GetUMAInterface u in
    if negb ptr then u
    else
      uma_record
        (HistogramCustomTimes name ms kTimeLargeMin kTimeLargeMax
           kTimeLargeBuckets) u.

Definition HistogramSizeKB (name : string) (kb : Z) (u : Uma) : Uma :=
  if kb <? 0 then u
  else
    let (ptr, u) := GetUMAInterface u in
    if negb ptr then u
    else
      uma_record
        (HistogramCustomCounts name kb kSizeKBMin kSizeKBMax kSizeKBBuckets)
        u.

(** [100 * a / b] on [int64_t], the division truncating.  The quotient is
    handed to the sample parameter of [HistogramCustomCounts], which is an
    [int32_t] like the [kRatioMin] and [kRatioMax] passed beside it (the
    header of the interface is not among the sources): the conversion keeps
    the low 32 bits. *)
Definition HistogramRatio (name : string) (a b : Z) (u : Uma) : Uma :=
  if (a <? 0) || (b <=? 0) then u
  else
    let (ptr, u) := GetUMAInterface u in
    if negb ptr then u
    else
      uma_record
        (HistogramCustomCounts name (wrap32 (Z.quot (wrap64 (100 * a)) b))
           kRatioMin kRatioMax kRatioBuckets) u.

Definition HistogramEnumerateTranslationCache (hit : bool) (u : Uma) : Uma :=
  let (ptr, u) := GetUMAInterface u in
  if negb ptr then u
  else
    uma_record
      (HistogramEnumeration "NaCl.Perf.PNaClCache.IsHit"
         (if hit then 1 else 0) 2) u.

Definition HistogramOptLevel (opt_level : Z) (u : Uma) : Uma :=
  let (ptr, u) := GetUMAInterface u in
  if negb ptr then u
  else
    let opt_level :=
      if (opt_level <? 0) || (opt_level >? 3) then kOptUnknown
      else opt_level in
    uma_record
      (HistogramEnumeration "NaCl.Options.PNaCl.OptLevel" opt_level
         (kOptUnknown + 1)) u.

(** A request for a histogram, and a sequence of them. *)
Inductive UmaRequest : Type :=
| ReqTime (name : string) (ms : Z)
| ReqSizeKB (name : string) (kb : Z)
| ReqRatio (name : string) (a b : Z)
| ReqTranslationCache (hit : bool)
| ReqOptLevel (opt_level : Z).

Definition histogram (r : UmaRequest) (u : Uma) : Uma :=
  match r with
  | ReqTime name ms => HistogramTime name ms u
  | ReqSizeKB name kb => HistogramSizeKB name kb u
  | ReqRatio name a b => HistogramRatio name a b u
  | ReqTranslationCache hit => HistogramEnumerateTranslationCache hit u
  | ReqOptLevel opt_level => HistogramOptLevel opt_level u
  end.

Definition histograms (rs : list UmaRequest) (u : Uma) : Uma :=
  fold_left (fun u r => histogram r u) rs u.

(** A sample that its histogram can take: not negative, and below the
    boundary of an enumeration. *)
Definition sample_ok (c : UmaCall) : Prop :=
  match c with
  | HistogramCustomTimes _ sample _ _ _ => 0 <= sample
  | HistogramCustomCounts _ sample _ _ _ => 0 <= sample
  | HistogramEnumeration _ sample boundary_value =>
      0 <= sample < boundary_value
  end.

(** The product in [HistogramRatio] stays in the range of [int64_t]. *)
Definition ratio_in_range (r : UmaRequest) : Prop :=
  match r with
  | ReqRatio _ a _ => 100 * a < 2 ^ 63
  | _ => True
  end.

(** The ratio in percent fits the [int32_t] sample of the histogram. *)
Definition ratio_fits_sample (r : UmaRequest) : Prop :=
  match r with
  | ReqRatio _ a b => 0 < b -> Z.quot (100 * a) b < 2 ^ 31
  | _ => True
  end.

(** ** The methods of [PnaclCoordinator] *)

(** Modelled from the spec: [ExpectedProgressKnown] is declared in
    pnacl_coordinator.h, which is not among the sources.  The constructor
    sets [expected_pexe_size_] to -1, and the total is known once the
    downloader has replaced that value. *)
Definition ExpectedProgressKnown (s : Coordinator) : bool :=
  negb (expected_pexe_size_ s =? -1).

Section Methods.

(** Helpers of classes that are not among the sources, as parameters: the
    delay test of pnacl_coordinator.h on [expected_pexe_size_] and
    [pexe_bytes_compiled_]; the cache key of [PnaclOptions]; the parser of
    the response headers, [NaClHttpResponseHeaders]. *)
Variable ShouldDelayProgressEvent : Z -> Z -> bool.
Variable HasCacheKey : PnaclOptions -> bool.
Variable GetCacheKey : PnaclOptions -> string.
Variable GetCacheValidators : string -> string.
Variable CacheControlNoStore : string -> bool.

Definition ExitWithError : M unit :=
  info <- gets error_info_ ;;
  call (ReportLoadError info) ;;
  callback_factory_CancelAll ;;
  reported <- gets error_already_reported_ ;;
  if negb reported then
    modify (set_error_already_reported_ true) ;;
    call (RunTranslateNotifyCallback PP.ERROR_FAILED)
  else
    ret tt.

Definition ReportNonPpapiError (err_code : PluginErrorCode)
    (msg : string) : M unit :=
  modify (set_error_info_ (mkErrorInfo err_code msg)) ;;
  ExitWithError.

Definition ReportPpapiError (err_code : PluginErrorCode) (pp_error : Z)
    (msg : string) : M unit :=
  modify (set_error_info_
            (mkErrorInfo err_code
               ("PnaclCoordinator: " ++ msg ++ " (pp_error="
                  ++ show_int pp_error ++ ")."))) ;;
  ExitWithError.

Definition NexeReadDidOpen (pp_error : Z) : M unit :=
  if negb (pp_error =? PP.OK) then
    if pp_error =? PP.ERROR_FILENOTFOUND then
      ReportPpapiError ERROR_PNACL_CACHE_FETCH_NOTFOUND pp_error
        "Failed to open translated nexe (not found)."
    else if pp_error =? PP.ERROR_NOACCESS then
      ReportPpapiError ERROR_PNACL_CACHE_FETCH_NOACCESS pp_error
        "Failed to open translated nexe (no access)."
    else
      ReportPpapiError ERROR_PNACL_CACHE_FETCH_OTHER pp_error
        "Failed to open translated nexe."
  else
    (* Transfer ownership of cache/temp file's wrapper to the coordinator. *)
    cached <- gets cached_nexe_file_ ;;
    match cached with
    | Some f =>
        modify (set_translated_fd_ (ltf_read_wrapper f)) ;;
        modify (set_cached_nexe_file_
                  (Some (mkLocalTempFile (ltf_filename f)
                           (ltf_rename_target f) None)))
    | None =>
        t <- deref temp_nexe_file_ ;;
        modify (set_translated_fd_ (tf_read_wrapper t)) ;;
        modify (set_temp_nexe_file_ (Some (mkTempFile None)))
    end ;;
    call (RunTranslateNotifyCallback pp_error).

Definition TranslateFinished (pp_error : Z) : M unit :=
  (* Bail out if there was an earlier error (e.g., pexe load failure). *)
  finish_error <- gets translate_finish_error_ ;;
  if negb (finish_error =? PP.OK) then
    ExitWithError
  else if negb (pp_error =? PP.OK) then
    (* Bail out if there is an error from the translation thread. *)
    ExitWithError
  else
    (* Send out one last progress event. *)
    known <- gets ExpectedProgressKnown ;;
    (if known then
       expected <- gets expected_pexe_size_ ;;
       modify (set_pexe_bytes_compiled_ expected) ;;
       url <- gets pexe_url_ ;;
       compiled <- gets pexe_bytes_compiled_ ;;
       total <- gets expected_pexe_size_ ;;
       call (EnqueueProgressEvent url true compiled total)
     else ret tt) ;;
    (* translate_thread_->GetTimeStats() and the Fstat of the nexe. *)
    _ <- deref translate_thread_ ;;
    _ <- temp_nexe_read_wrapper ;;
    (* We must Reset() the file pointer to be able to read it again from
       the beginning. *)
    temp_nexe_file_Reset ;;
    new_cache <- gets use_new_cache_ ;;
    if new_cache then
      call ReportTranslationFinished ;;
      NexeReadDidOpen PP.OK
    else
      opts <- gets pnacl_options_ ;;
      cached <- gets cached_nexe_file_ ;;
      if HasCacheKey opts && is_some cached then
        (* Reset cached_nexe_file_ to have a random name, for scratch
           purposes, before renaming to the final cache_identity. *)
        modify (set_cached_nexe_file_
                  (Some (mkLocalTempFile ScratchName None None))) ;;
        NewCallback CbCachedNexeOpenedForWrite ;;
        cached_nexe_file_OpenWrite
      else
        NexeReadDidOpen PP.OK.

Definition NexeWasCopiedToCache (pp_error : Z) : M unit :=
  if negb (pp_error =? PP.OK) then
    (* Try to delete the partially written not-yet-committed cache file
       before returning; the current pp_error is passed along. *)
    NewCallback (CbCorruptCacheFileWasDeleted pp_error) ;;
    cached_nexe_file_Delete
  else
    (* Rename the cached_nexe_file_ file to the cache id, to finalize. *)
    NewCallback CbNexeFileWasRenamed ;;
    opts <- gets pnacl_options_ ;;
    cached_nexe_file_Rename (GetCacheKey opts).

Definition CachedNexeOpenedForWrite (pp_error : Z) : M unit :=
  if negb (pp_error =? PP.OK) then
    if pp_error =? PP.ERROR_NOACCESS then
      ReportPpapiError ERROR_PNACL_CACHE_FILEOPEN_NOACCESS pp_error
        "PNaCl translation cache failed to open file for write (no access)."
    else if pp_error =? PP.ERROR_NOQUOTA then
      ReportPpapiError ERROR_PNACL_CACHE_FILEOPEN_NOQUOTA pp_error
        "PNaCl translation cache failed to open file for write (no quota)."
    else if pp_error =? PP.ERROR_NOSPACE then
      ReportPpapiError ERROR_PNACL_CACHE_FILEOPEN_NOSPACE pp_error
        "PNaCl translation cache failed to open file for write (no space)."
    else if pp_error =? PP.ERROR_NOTAFILE then
      ReportPpapiError ERROR_PNACL_CACHE_FILEOPEN_NOTAFILE pp_error
        "PNaCl translation cache failed to open file for write.  File already exists as a directory."
    else
      ReportPpapiError ERROR_PNACL_CACHE_FILEOPEN_OTHER pp_error
        "PNaCl translation cache failed to open file for write."
  else
    (* Copy the contents from temp_nexe_file_ -> cached_nexe_file_, then
       rename the cached_nexe_file_ file to the cache id. *)
    let cur_offset := 0 in
    buf <- read_wrapper_Read ;;
    let num_read := Z.of_nat (List.length buf) in
    if num_read =? 0 then
      (* Hit EOF or something. *)
      NexeWasCopiedToCache PP.OK
    else if num_read <? 0 then
      NexeWasCopiedToCache PP.ERROR_FAILED
    else
      NewCallback (CbDidCopyNexeToCachePartial num_read cur_offset) ;;
      write_file_io_Write cur_offset buf.

Definition DidCopyNexeToCachePartial (pp_error num_read_prev cur_offset : Z)
    : M unit :=
  (* Assume we are done. *)
  if pp_error =? PP.OK then
    NexeWasCopiedToCache PP.OK
  else if pp_error <? PP.OK then
    NexeWasCopiedToCache pp_error
  else
    let copy_next :=
      let next_offset := add64 cur_offset pp_error in
      buf <- read_wrapper_Read ;;
      let num_read := Z.of_nat (List.length buf) in
      if num_read =? 0 then
        (* Hit EOF or something. *)
        NexeWasCopiedToCache PP.OK
      else if num_read <? 0 then
        NexeWasCopiedToCache PP.ERROR_FAILED
      else
        NewCallback (CbDidCopyNexeToCachePartial num_read next_offset) ;;
        write_file_io_Write next_offset buf in
    (* Check if we wrote as much as we read. *)
    _ <- deref temp_nexe_file_ ;;
    if negb (pp_error =? num_read_prev) then
      CHECK (pp_error <? num_read_prev) ;;
      (* Seek back to re-read the bytes that were not written. *)
      seek_result <- read_wrapper_Seek (sub32 pp_error num_read_prev) ;;
      if seek_result <? 0 then
        NexeWasCopiedToCache PP.ERROR_FAILED
      else
        copy_next
    else
      copy_next.

Definition CorruptCacheFileWasDeleted (delete_pp_error orig_pp_error : Z)
    : M unit :=
  (* A failed delete is only logged: fall through and report the original
     error that caused us to consider the cache file corrupted. *)
  if orig_pp_error =? PP.ERROR_NOQUOTA then
    ReportPpapiError ERROR_PNACL_CACHE_FINALIZE_COPY_NOQUOTA orig_pp_error
      "Failed to copy translated nexe to cache (no quota)."
  else if orig_pp_error =? PP.ERROR_NOSPACE then
    ReportPpapiError ERROR_PNACL_CACHE_FINALIZE_COPY_NOSPACE orig_pp_error
      "Failed to copy translated nexe to cache (no space)."
  else
    ReportPpapiError ERROR_PNACL_CACHE_FINALIZE_COPY_OTHER orig_pp_error
      "Failed to copy translated nexe to cache.".

Definition NexeFileWasRenamed (pp_error : Z) : M unit :=
  let finish :=
    cached_nexe_file_FinishRename ;;
    (* Open the cache file for reading. *)
    NewCallback CbNexeReadDidOpen ;;
    cached_nexe_file_OpenRead in
  if negb (pp_error =? PP.OK) then
    if pp_error =? PP.ERROR_NOACCESS then
      ReportPpapiError ERROR_PNACL_CACHE_FINALIZE_RENAME_NOACCESS pp_error
        "Failed to finalize cached translation (no access)."
    else if negb (pp_error =? PP.ERROR_FILEEXISTS) then
      ReportPpapiError ERROR_PNACL_CACHE_FINALIZE_RENAME_OTHER pp_error
        "Failed to finalize cached translation."
    else
      (* pp_error == PP_ERROR_FILEEXISTS: assume that it is a race and try
         to continue. *)
      finish
  else
    finish.

Definition ResourceInfoWasRead (pp_error : Z) : M unit :=
  (* Second step of loading resources: call StartLoad. *)
  NewCallback CbResourcesDidLoad ;;
  call StartLoad.

Definition OpenBitcodeStream : M unit :=
  (* Now open the pexe stream. *)
  h <- gets host_ ;;
  modify (set_streaming_downloader_ (Some (host_downloader h))) ;;
  (* Create the translation thread object immediately. *)
  modify (set_translate_thread_ (Some TranslateThread)) ;;
  thread <- gets translate_thread_ ;;
  if negb (is_some thread) then
    ReportNonPpapiError ERROR_PNACL_THREAD_CREATE
      "PnaclCoordinator: could not allocate translation thread."
  else
    new_cache <- gets use_new_cache_ ;;
    (if negb new_cache then
       (* Open the object file now so the translator can start writing to
          it during streaming translation. *)
       modify (set_obj_file_ (Some (mkTempFile None))) ;;
       NewCallback CbObjectFileDidOpen ;;
       call (TempFileOpen ObjFile true)
     else ret tt) ;;
    NewCallback CbBitcodeStreamDidOpen ;;
    url <- gets pexe_url_ ;;
    call (OpenStream url) ;;
    if negb (host_open_stream_ok h) then
      ReportNonPpapiError ERROR_PNACL_PEXE_FETCH_OTHER
        ("PnaclCoordinator: failed to open stream " ++ url)
    else
      ret tt.

Definition ResourcesDidLoad (pp_error : Z) : M unit :=
  if negb (pp_error =? PP.OK) then
    (* Finer-grained error code should have already been reported by the
       PnaclResources class. *)
    ret tt
  else
    off_the_record <- gets off_the_record_ ;;
    if negb off_the_record then
      new_cache <- gets use_new_cache_ ;;
      if new_cache then
        OpenBitcodeStream
      else
        (* Open the local temporary FS to see if we get a hit in the
           cache. *)
        NewCallback CbFileSystemDidOpen ;;
        call FileSystemOpen ;;
        h <- gets host_ ;;
        let open_error := host_fs_open_result h in
        if negb (open_error =? PP.OK_COMPLETIONPENDING) then
          if pp_error =? PP.ERROR_INPROGRESS then
            ReportPpapiError ERROR_PNACL_CACHE_OPEN_INPROGRESS pp_error
              "File system for PNaCl translation cache failed to open (in progress)."
          else
            ReportPpapiError ERROR_PNACL_CACHE_OPEN_OTHER pp_error
              "File system for PNaCl translation cache failed to open."
        else
          ret tt
    else
      (* We don't have a cache, so do the non-cached codepath. *)
      OpenBitcodeStream.

Definition FileSystemDidOpen (pp_error : Z) : M unit :=
  let make_directory :=
    (* dir_ref_ names kPnaclTempDir in the file system: attempt to create
       the directory. *)
    NewCallback CbDirectoryWasCreated ;;
    call MakeDirectory in
  if negb (pp_error =? PP.OK) then
    if pp_error =? PP.ERROR_NOACCESS then
      ReportPpapiError ERROR_PNACL_CACHE_OPEN_NOACCESS pp_error
        "File system for PNaCl translation cache failed to open (no access)."
    else if pp_error =? PP.ERROR_NOQUOTA then
      ReportPpapiError ERROR_PNACL_CACHE_OPEN_NOQUOTA pp_error
        "File system for PNaCl translation cache failed to open (no quota)."
    else if pp_error =? PP.ERROR_NOSPACE then
      ReportPpapiError ERROR_PNACL_CACHE_OPEN_NOSPACE pp_error
        "File system for PNaCl translation cache failed to open (no space)."
    else
      (* No return after this report in the source: control goes on to the
         directory creation below. *)
      ReportPpapiError ERROR_PNACL_CACHE_OPEN_OTHER pp_error
        "File system for PNaCl translation cache failed to open." ;;
      make_directory
  else
    make_directory.

Definition DirectoryWasCreated (pp_error : Z) : M unit :=
  if negb (pp_error =? PP.ERROR_FILEEXISTS) && negb (pp_error =? PP.OK) then
    (* Directory did not exist and could not be created. *)
    if pp_error =? PP.ERROR_NOACCESS then
      ReportPpapiError ERROR_PNACL_CACHE_DIRECTORY_CREATE pp_error
        "PNaCl translation cache directory creation/check failed (no access)."
    else
      ReportPpapiError ERROR_PNACL_CACHE_DIRECTORY_CREATE pp_error
        "PNaCl translation cache directory creation/check failed."
  else
    OpenBitcodeStream.

Definition BitcodeStreamDidFinish (pp_error : Z) : M unit :=
  if negb (pp_error =? PP.OK) then
    (* Defer reporting the error and cleanup until after the translation
       thread returns. *)
    modify (set_translate_finish_error_ pp_error) ;;
    (if pp_error =? PP.ERROR_ABORTED then
       modify (set_error_info_
                 (mkErrorInfo ERROR_PNACL_PEXE_FETCH_ABORTED
                    "PnaclCoordinator: pexe load failed (aborted)."))
     else ret tt) ;;
    (if pp_error =? PP.ERROR_NOACCESS then
       modify (set_error_info_
                 (mkErrorInfo ERROR_PNACL_PEXE_FETCH_NOACCESS
                    "PnaclCoordinator: pexe load failed (no access)."))
     else
       modify (set_error_info_
                 (mkErrorInfo ERROR_PNACL_PEXE_FETCH_OTHER
                    ("PnaclCoordinator: pexe load failed (pp_error="
                       ++ show_int pp_error ++ ").")))) ;;
    _ <- deref translate_thread_ ;;
    call AbortSubprocesses
  else
    ret tt.

Definition CachedFileDidOpen (pp_error : Z) : M unit :=
  if pp_error =? PP.OK then
    (* Cache hit -- no need to stream the rest of the file. *)
    modify (set_streaming_downloader_ None) ;;
    NexeReadDidOpen PP.OK
  else
    (* Otherwise, the cache file is missing so we must translate.
       Continue streaming. *)
    NewCallback CbBitcodeStreamDidFinish ;;
    _ <- deref streaming_downloader_ ;;
    call FinishStreaming.

Definition BitcodeStreamDidOpen (pp_error : Z) : M unit :=
  if negb (pp_error =? PP.OK) then
    BitcodeStreamDidFinish pp_error ;;
    (* In the new cache case, we have not spun up the translation process
       yet, so we need to call TranslateFinished here. *)
    new_cache <- gets use_new_cache_ ;;
    if new_cache then TranslateFinished pp_error else ret tt
  else
    off_the_record <- gets off_the_record_ ;;
    if negb off_the_record then
      (* Get the cache key and try to open an existing entry. *)
      downloader <- deref streaming_downloader_ ;;
      let headers := dl_response_headers downloader in
      let validators := GetCacheValidators headers in
      if CacheControlNoStore headers || (validators =? "")%string then
        (* We can't cache in this case. *)
        opts <- gets pnacl_options_ ;;
        modify (set_pnacl_options_ (set_cache_validators "" opts)) ;;
        CachedFileDidOpen PP.ERROR_FAILED
      else
        let url := dl_url downloader in
        (* For now, combine the cache_validators + the URL as the key. *)
        opts <- gets pnacl_options_ ;;
        modify (set_pnacl_options_
                  (set_cache_validators (validators ++ url) opts)) ;;
        new_cache <- gets use_new_cache_ ;;
        opts <- gets pnacl_options_ ;;
        if new_cache then
          NewCallback CbNexeFdDidOpen ;;
          call (GetNexeFd (GetCacheKey opts)) ;;
          h <- gets host_ ;;
          let nexe_fd_err := host_nexe_fd_err h in
          if nexe_fd_err <? PP.OK_COMPLETIONPENDING then
            ReportPpapiError ERROR_PNACL_CREATE_TEMP nexe_fd_err
              "Call to GetNexeFd failed"
          else
            ret tt
        else
          modify (set_cached_nexe_file_
                    (Some (mkLocalTempFile (KeyName (GetCacheKey opts))
                             None None))) ;;
          NewCallback CbCachedFileDidOpen ;;
          cached_nexe_file_OpenRead
    else
      (* No cache case. *)
      CachedFileDidOpen PP.ERROR_FAILED.

Definition NexeFdDidOpen (pp_error : Z) : M unit :=
  if pp_error <? PP.OK then
    ReportPpapiError ERROR_PNACL_CREATE_TEMP pp_error "GetNexeFd failed"
  else
    modify (set_temp_nexe_file_ (Some (mkTempFile None))) ;;
    h <- gets host_ ;;
    if negb (host_set_existing_fd_ok h) then
      ReportNonPpapiError ERROR_PNACL_CREATE_TEMP
        "PnaclCoordinator: Got bad temp file handle from GetNexeFd"
    else
      hit <- gets is_cache_hit_ ;;
      if hit then
        (* Cache hit -- no need to stream the rest of the file. *)
        modify (set_streaming_downloader_ None) ;;
        (* Open it for reading as the cached nexe file. *)
        NewCallback CbNexeReadDidOpen ;;
        call (TempFileOpen NexeFile false)
      else
        (* Open an object file first so the translator can start writing to
           it during streaming translation. *)
        modify (set_obj_file_ (Some (mkTempFile None))) ;;
        NewCallback CbObjectFileDidOpen ;;
        call (TempFileOpen ObjFile true) ;;
        (* Meanwhile, a miss means we know we need to stream the bitcode. *)
        NewCallback CbBitcodeStreamDidFinish ;;
        _ <- deref streaming_downloader_ ;;
        call FinishStreaming.

Definition BitcodeStreamGotData (pp_error : Z) (data : option (list byte))
    : M unit :=
  _ <- deref translate_thread_ ;;
  call (PutBytes data pp_error) ;;
  (* If pp_error > 0, then it represents the number of bytes received. *)
  if is_some data && (pp_error >? 0) then
    size <- gets pexe_size_ ;;
    modify (set_pexe_size_ (add64 size pp_error))
  else
    ret tt.

Definition GetCallback : M unit :=
  NewCallback CbBitcodeStreamGotData.

Definition BitcodeGotCompiled (pp_error bytes_compiled : Z) : M unit :=
  compiled <- gets pexe_bytes_compiled_ ;;
  modify (set_pexe_bytes_compiled_ (add64 compiled bytes_compiled)) ;;
  (* If we don't know the expected total yet, ask. *)
  known <- gets ExpectedProgressKnown ;;
  (if negb known then
     downloader <- deref streaming_downloader_ ;;
     modify (set_expected_pexe_size_ (dl_total_bytes downloader))
   else ret tt) ;;
  (* Hold off reporting the last few bytes of progress, since we don't know
     when they are actually completely compiled. *)
  known <- gets ExpectedProgressKnown ;;
  url <- gets pexe_url_ ;;
  compiled <- gets pexe_bytes_compiled_ ;;
  expected <- gets expected_pexe_size_ ;;
  if known then
    if negb (ShouldDelayProgressEvent expected compiled) then
      call (EnqueueProgressEvent url true compiled expected)
    else
      ret tt
  else
    call (EnqueueProgressEvent url false compiled expected).

Definition GetCompileProgressCallback (bytes_compiled : Z) : M unit :=
  NewCallback (CbBitcodeGotCompiled bytes_compiled).

Definition GetCurrentProgress (s : Coordinator) : Z * Z :=
  (pexe_bytes_compiled_ s, expected_pexe_size_ s).

Definition ObjectFileDidOpen (pp_error : Z) : M unit :=
  if negb (pp_error =? PP.OK) then
    ReportPpapiError ERROR_PNACL_CREATE_TEMP pp_error
      "Failed to open scratch object file."
  else
    (* Open the nexe file for connecting ld and sel_ldr. *)
    new_cache <- gets use_new_cache_ ;;
    (if negb new_cache then
       (* In the new cache case, the TempFile has already been created. *)
       modify (set_temp_nexe_file_ (Some (mkTempFile None)))
     else ret tt) ;;
    NewCallback CbRunTranslate ;;
    _ <- deref temp_nexe_file_ ;;
    call (TempFileOpen NexeFile true).

Definition RunTranslate (pp_error : Z) : M unit :=
  (* Invoke llc followed by ld off the main thread. *)
  NewCallback CbTranslateFinished ;;
  thread <- gets translate_thread_ ;;
  CHECK (is_some thread) ;;
  call ThreadRunTranslate.

(** The constructor followed by the body of [BitcodeToNative]: the first
    step of loading resources is under way. *)
Definition BitcodeToNative (h : Host) (pexe_url : string)
    (pnacl_options : PnaclOptions) : Coordinator :=
  {| translate_finish_error_ := PP.OK;
     pexe_url_ := pexe_url;
     pnacl_options_ := pnacl_options;
     use_new_cache_ := host_use_new_cache h;
     is_cache_hit_ := false;
     nexe_handle_ := -1;
     error_already_reported_ := false;
     off_the_record_ := host_off_the_record h;
     pexe_size_ := 0;
     pexe_bytes_compiled_ := 0;
     expected_pexe_size_ := -1;
     error_info_ := mkErrorInfo ERROR_UNKNOWN "";
     streaming_downloader_ := None;
     translate_thread_ := None;
     obj_file_ := None;
     temp_nexe_file_ := None;
     cached_nexe_file_ := None;
     translated_fd_ := None;
     callback_factory_ := [CbResourceInfoWasRead];
     host_ := h;
     disk_ := host_disk h;
     write_in_flight_ := None;
     trace_ := [ReadResourceInfo] |}.

(** ** The host: completions and events *)

(** Modelled from the spec: a completed [FileIO::Write] at [offset] has put
    [data] over the bytes of the file from [offset] on, after padding a
    shorter file with zero bytes. *)
Definition write_at (offset : Z) (data old : list byte) : list byte :=
  let off := Z.to_nat offset in
  firstn off (old ++ repeat x00 (off - List.length old))
    ++ data ++ skipn (off + List.length data) old.

Definition disk_update (name : FileName) (v : option (list byte))
    (d : FileName -> option (list byte)) : FileName -> option (list byte) :=
  fun n => if FileName_eqb n name then v else d n.

Definition file_bytes (d : FileName -> option (list byte)) (name : FileName)
    : list byte :=
  match d name with Some bs => bs | None => [] end.

(** A read wrapper on a file that has just been opened. *)
Definition fresh_wrapper (bs : list byte) : DescWrapper := mkDescWrapper bs 0.

(** Modelled from the spec: what the operation behind a callback has done
    when it completes with [pp_error] (the classes that carry the operations
    out are not among the sources).  A successful open provides a read
    wrapper at the start of the file; a successful open for write creates
    the scratch file empty; a write that reports [n > 0] has written the
    first [n] bytes of its buffer; a successful delete removes the file; a
    successful rename moves it to the cache key; [GetNexeFd] fills its
    out-parameters.  A failed operation changes nothing. *)
Definition host_complete (cb : Callback) (pp_error : Z) (s : Coordinator)
    : Coordinator :=
  let ok := pp_error =? PP.OK in
  match cb with
  | CbObjectFileDidOpen =>
      match obj_file_ s with
      | Some _ =>
          if ok then set_obj_file_ (Some (mkTempFile (Some (fresh_wrapper [])))) s
          else s
      | None => s
      end
  | CbRunTranslate =>
      match temp_nexe_file_ s with
      | Some _ =>
          if ok then
            set_temp_nexe_file_ (Some (mkTempFile (Some (fresh_wrapper [])))) s
          else s
      | None => s
      end
  | CbNexeFdDidOpen =>
      if 0 <=? pp_error then
        set_is_cache_hit_ (host_is_cache_hit (host_ s))
          (set_nexe_handle_ (host_nexe_handle (host_ s)) s)
      else s
  | CbCachedFileDidOpen =>
      match cached_nexe_file_ s with
      | Some f =>
          if ok then
            set_cached_nexe_file_
              (Some (mkLocalTempFile (ltf_filename f) (ltf_rename_target f)
                       (Some (fresh_wrapper
                                (file_bytes (disk_ s) (ltf_filename f)))))) s
          else s
      | None => s
      end
  | CbNexeReadDidOpen =>
      match cached_nexe_file_ s with
      | Some f =>
          if ok then
            set_cached_nexe_file_
              (Some (mkLocalTempFile (ltf_filename f) (ltf_rename_target f)
                       (Some (fresh_wrapper
                                (file_bytes (disk_ s) (ltf_filename f)))))) s
          else s
      | None =>
          match temp_nexe_file_ s with
          | Some _ =>
              if ok then
                set_temp_nexe_file_
                  (Some (mkTempFile
                           (Some (fresh_wrapper
                                    (host_nexe_fd_contents (host_ s)))))) s
              else s
          | None => s
          end
      end
  | CbCachedNexeOpenedForWrite =>
      match cached_nexe_file_ s with
      | Some f =>
          if ok then
            set_disk_ (disk_update (ltf_filename f) (Some []) (disk_ s)) s
          else s
      | None => s
      end
  | CbDidCopyNexeToCachePartial _ _ =>
      match cached_nexe_file_ s, write_in_flight_ s with
      | Some f, Some (offset, buf) =>
          set_write_in_flight_ None
            (if 0 <? pp_error then
               set_disk_
                 (disk_update (ltf_filename f)
                    (Some (write_at offset (firstn (Z.to_nat pp_error) buf)
                             (file_bytes (disk_ s) (ltf_filename f))))
                    (disk_ s)) s
             else s)
      | _, _ => s
      end
  | CbCorruptCacheFileWasDeleted _ =>
      match cached_nexe_file_ s with
      | Some f =>
          if ok then set_disk_ (disk_update (ltf_filename f) None (disk_ s)) s
          else s
      | None => s
      end
  | CbNexeFileWasRenamed =>
      match cached_nexe_file_ s with
      | Some f =>
          match ltf_rename_target f with
          | Some key =>
              if ok then
                set_disk_
                  (disk_update (KeyName key) (disk_ s (ltf_filename f))
                     (disk_update (ltf_filename f) None (disk_ s))) s
              else s
          | None => s
          end
      | None => s
      end
  | _ => s
  end.

(** The method behind a callback, with its bound arguments. *)
Definition dispatch (cb : Callback) (pp_error : Z)
    (data : option (list byte)) : M unit :=
  match cb with
  | CbResourceInfoWasRead => ResourceInfoWasRead pp_error
  | CbResourcesDidLoad => ResourcesDidLoad pp_error
  | CbFileSystemDidOpen => FileSystemDidOpen pp_error
  | CbDirectoryWasCreated => DirectoryWasCreated pp_error
  | CbObjectFileDidOpen => ObjectFileDidOpen pp_error
  | CbBitcodeStreamDidOpen => BitcodeStreamDidOpen pp_error
  | CbNexeFdDidOpen => NexeFdDidOpen pp_error
  | CbCachedFileDidOpen => CachedFileDidOpen pp_error
  | CbBitcodeStreamDidFinish => BitcodeStreamDidFinish pp_error
  | CbBitcodeStreamGotData => BitcodeStreamGotData pp_error data
  | CbBitcodeGotCompiled bytes_compiled =>
      BitcodeGotCompiled pp_error bytes_compiled
  | CbRunTranslate => RunTranslate pp_error
  | CbTranslateFinished => TranslateFinished pp_error
  | CbCachedNexeOpenedForWrite => CachedNexeOpenedForWrite pp_error
  | CbDidCopyNexeToCachePartial num_read_prev cur_offset =>
      DidCopyNexeToCachePartial pp_error num_read_prev cur_offset
  | CbCorruptCacheFileWasDeleted orig_pp_error =>
      CorruptCacheFileWasDeleted pp_error orig_pp_error
  | CbNexeFileWasRenamed => NexeFileWasRenamed pp_error
  | CbNexeReadDidOpen => NexeReadDidOpen pp_error
  end.

Fixpoint remove_one (cb : Callback) (l : list Callback) : list Callback :=
  match l with
  | [] => []
  | c :: l' => if Callback_eq_dec cb c then l' else c :: remove_one cb l'
  end.

(** A registered callback fires once, after its operation has completed; a
    callback that is not registered (never made, already run, or cancelled
    by [CancelAll]) does not run. *)
Definition fire (cb : Callback) (pp_error : Z) (data : option (list byte))
    : M unit :=
  registered <- gets callback_factory_ ;;
  if in_dec Callback_eq_dec cb registered then
    modify (set_callback_factory_ (remove_one cb registered)) ;;
    modify (host_complete cb pp_error) ;;
    dispatch cb pp_error data
  else
    ret tt.

(** What can happen to a coordinator: a callback fires; the downloader or
    the translation thread asks for a callback ([GetCallback],
    [GetCompileProgressCallback]); a helper class reports an error through
    the public [ReportNonPpapiError] or [ReportPpapiError]; the downloader
    learns the total size; the translator writes the nexe file. *)
Inductive Event : Type :=
| Fire (cb : Callback) (pp_error : Z)
| FireStreamData (pp_error : Z) (data : option (list byte))
| HelperGetCallback
| HelperGetCompileProgressCallback (bytes_compiled : Z)
| HelperReportNonPpapiError (err_code : PluginErrorCode) (msg : string)
| HelperReportPpapiError (err_code : PluginErrorCode) (pp_error : Z)
    (msg : string)
| DownloaderLearnsTotal (total : Z)
| TranslatorWrites (nexe : list byte).

Definition deliver (e : Event) : M unit :=
  match e with
  | Fire cb pp_error => fire cb pp_error None
  | FireStreamData pp_error data => fire CbBitcodeStreamGotData pp_error data
  | HelperGetCallback => GetCallback
  | HelperGetCompileProgressCallback n => GetCompileProgressCallback n
  | HelperReportNonPpapiError c m => ReportNonPpapiError c m
  | HelperReportPpapiError c e m => ReportPpapiError c e m
  | DownloaderLearnsTotal total =>
      modify (fun s =>
                match streaming_downloader_ s with
                | Some d =>
                    set_streaming_downloader_
                      (Some (mkFileDownloader (dl_url d)
                               (dl_response_headers d) total)) s
                | None => s
                end)
  | TranslatorWrites nexe =>
      modify (fun s =>
                match temp_nexe_file_ s with
                | Some (mkTempFile (Some d)) =>
                    set_temp_nexe_file_
                      (Some (mkTempFile
                               (Some (mkDescWrapper nexe (dw_pos d))))) s
                | _ => s
                end)
  end.

Fixpoint run (events : list Event) : M unit :=
  match events with
  | [] => ret tt
  | e :: rest => deliver e ;; run rest
  end.

(** ** Notions used by the properties *)

(** The caller's completion callback run with a failure indication. *)
Definition is_failure_notification (a : Action) : bool :=
  match a with
  | RunTranslateNotifyCallback e => negb (e =? PP.OK)
  | _ => false
  end.

Definition failure_notifications (t : list Action) : nat :=
  List.length (filter is_failure_notification t).

(** The latch of [ExitWithError]: the flag is set exactly when the one
    failure indication has been delivered. *)
Definition latch_inv (s : Coordinator) : Prop :=
  failure_notifications (trace_ s) =
  if error_already_reported_ s then 1%nat else 0%nat.

(** A computation keeps an invariant: whenever it returns, the invariant
    holds again. *)
Definition preserves {A : Type} (I : Coordinator -> Prop) (m : M A) : Prop :=
  forall s a s', I s -> m s = Some (a, s') -> I s'.

(** The report that [ReportPpapiError] hands to the plugin. *)
Definition ppapi_report (err_code : PluginErrorCode) (pp_error : Z)
    (msg : string) : ErrorInfo :=
  mkErrorInfo err_code
    ("PnaclCoordinator: " ++ msg ++ " (pp_error=" ++ show_int pp_error ++ ").").

(** The trace after a pass through the error-exit path in state [s]: the
    load error is reported, the callbacks are cancelled, and the completion
    callback runs unless a failure has been delivered before. *)
Definition error_exit_trace (info : ErrorInfo) (s : Coordinator)
    : list Action :=
  (if error_already_reported_ s then []
   else [RunTranslateNotifyCallback PP.ERROR_FAILED])
    ++ CancelAll :: ReportLoadError info :: trace_ s.

(** The category of a failed finalizing rename. *)
Definition rename_failure_report (pp_error : Z) : ErrorInfo :=
  if pp_error =? PP.ERROR_NOACCESS then
    ppapi_report ERROR_PNACL_CACHE_FINALIZE_RENAME_NOACCESS pp_error
      "Failed to finalize cached translation (no access)."
  else
    ppapi_report ERROR_PNACL_CACHE_FINALIZE_RENAME_OTHER pp_error
      "Failed to finalize cached translation.".

(** The category of a failed copy into the cache: no quota, no space, or
    other. *)
Definition copy_failure_report (orig_pp_error : Z) : ErrorInfo :=
  if orig_pp_error =? PP.ERROR_NOQUOTA then
    ppapi_report ERROR_PNACL_CACHE_FINALIZE_COPY_NOQUOTA orig_pp_error
      "Failed to copy translated nexe to cache (no quota)."
  else if orig_pp_error =? PP.ERROR_NOSPACE then
    ppapi_report ERROR_PNACL_CACHE_FINALIZE_COPY_NOSPACE orig_pp_error
      "Failed to copy translated nexe to cache (no space)."
  else
    ppapi_report ERROR_PNACL_CACHE_FINALIZE_COPY_OTHER orig_pp_error
      "Failed to copy translated nexe to cache.".

(** *** The copy into the cache, driven by the host

    The host completes the outstanding write of the copy, again and again:
    the [i]-th write, of [n] bytes, reports [w i n].  The loop ends when no
    write is outstanding any more. *)
Fixpoint copy_loop (fuel : nat) (w : nat -> Z -> Z) (i : nat) : M unit :=
  match fuel with
  | O => ret tt
  | S fuel' =>
      registered <- gets callback_factory_ ;;
      match registered with
      | CbDidCopyNexeToCachePartial n off :: _ =>
          fire (CbDidCopyNexeToCachePartial n off) (w i n) None ;;
          copy_loop fuel' w (S i)
      | _ => ret tt
      end
  end.

(** The scratch file opens for writing and the copy runs. *)
Definition copy_to_cache (fuel : nat) (w : nat -> Z -> Z) : M unit :=
  fire CbCachedNexeOpenedForWrite PP.OK None ;;
  copy_loop fuel w 0.

(** The copy is in progress: a write of the [n] bytes of [bs] from [off] on
    is outstanding, the read pointer of the translated file is behind those
    bytes, and the scratch file holds the first [off] bytes of [bs]. *)
Definition copying (bs : list byte) (f : LocalTempFile) (cbs : list Callback)
    (off n : nat) (s : Coordinator) : Prop :=
  temp_nexe_file_ s
  = Some (mkTempFile (Some (mkDescWrapper bs (Z.of_nat (off + n)))))
  /\ cached_nexe_file_ s = Some f
  /\ callback_factory_ s
     = CbDidCopyNexeToCachePartial (Z.of_nat n) (Z.of_nat off) :: cbs
  /\ write_in_flight_ s = Some (Z.of_nat off, firstn n (skipn off bs))
  /\ disk_ s (ltf_filename f) = Some (firstn off bs)
  /\ (0 < n)%nat
  /\ Z.of_nat n <= kCopyBufSize
  /\ (off + n <= List.length bs)%nat.

(** The copy is complete: the scratch file holds [bs] and the rename to the
    cache key has been asked for. *)
Definition copied (bs : list byte) (f : LocalTempFile) (cbs : list Callback)
    (s : Coordinator) : Prop :=
  cached_nexe_file_ s
  = Some (mkLocalTempFile (ltf_filename f)
            (Some (GetCacheKey (pnacl_options_ s))) (ltf_read_wrapper f))
  /\ callback_factory_ s = CbNexeFileWasRenamed :: cbs
  /\ disk_ s (ltf_filename f) = Some bs
  /\ exists t, trace_ s
               = CacheRename (ltf_filename f) (GetCacheKey (pnacl_options_ s))
                   :: t.

(** *** Progress events *)

(** A progress event as the page sees it: whether the length is computable,
    the bytes compiled so far, the total. *)
Record Progress : Type := mkProgress {
  computable : bool;
  bytesCompiled : Z;
  bytesTotal : Z
}.

Definition progress_of (a : Action) : list Progress :=
  match a with
  | EnqueueProgressEvent _ c loaded total => [mkProgress c loaded total]
  | _ => []
  end.

(** The progress events of a trace, oldest first. *)
Definition progress_events (t : list Action) : list Progress :=
  flat_map progress_of (rev t).

Arguments progress_events : simpl never.

(** The event that reports the whole expected size as compiled. *)
Definition is_final_progress (p : Progress) : bool :=
  computable p && (bytesCompiled p =? bytesTotal p).

(** A sequence of compile-progress callbacks, each with its completion value
    and its byte increment. *)
Fixpoint compile_progress (calls : list (Z * Z)) : M unit :=
  match calls with
  | [] => ret tt
  | (pp_error, bytes_compiled) :: rest =>
      BitcodeGotCompiled pp_error bytes_compiled ;;
      compile_progress rest
  end.

Definition sum_increments (calls : list (Z * Z)) : Z :=
  fold_right (fun c acc => snd c + acc) 0 calls.

(** The sizes the downloader announces are byte counts, or -1 for a size
    that is not known. *)
Definition totals_ok (s : Coordinator) : Prop :=
  -1 <= expected_pexe_size_ s
  /\ -1 <= dl_total_bytes (host_downloader (host_ s))
  /\ forall d, streaming_downloader_ s = Some d -> -1 <= dl_total_bytes d.

(** The progress reported so far: the byte counts never go down, none is
    above the counter of compiled bytes, and none is above a known total. *)
Definition progress_inv (s : Coordinator) : Prop :=
  let evs := progress_events (trace_ s) in
  StronglySorted Z.le (map bytesCompiled evs)
  /\ Forall (fun p => bytesCompiled p <= pexe_bytes_compiled_ s) evs
  /\ Forall (fun p => computable p = true -> bytesCompiled p <= bytesTotal p)
       evs.

(** No final progress event has been sent. *)
Definition no_final_progress (s : Coordinator) : Prop :=
  Forall (fun p => is_final_progress p = false) (progress_events (trace_ s))
  /\ totals_ok s.

Definition event_total_ok (ev : Event) : Prop :=
  match ev with
  | DownloaderLearnsTotal total => -1 <= total
  | _ => True
  end.

(** *** The cache store *)

(** The operations on the cache store: whatever is done to a cache file
    (open, write, delete, rename) and the request for a cache entry from the
    browser. *)
Definition is_cache_store_op (a : Action) : bool :=
  match a with
  | CacheOpenRead _ | CacheOpenWrite _ | CacheWrite _ _ _ | CacheDelete _
  | CacheRename _ _ | CacheFinishRename | GetNexeFd _ => true
  | _ => false
  end.

(** Caching is disabled for a request when the profile is off the record,
    or the response says no-store, or it carries no cache validators. *)
Definition caching_disabled (h : Host) : bool :=
  let headers := dl_response_headers (host_downloader h) in
  host_off_the_record h
  || CacheControlNoStore headers
  || (GetCacheValidators headers =? "")%string.

(** A coordinator of a request with caching disabled: it has no cache file
    and has not operated on the cache store. *)
Definition uncached_inv (s : Coordinator) : Prop :=
  caching_disabled (host_ s) = true
  /\ off_the_record_ s = host_off_the_record (host_ s)
  /\ (forall d, streaming_downloader_ s = Some d ->
                dl_response_headers d
                = dl_response_headers (host_downloader (host_ s)))
  /\ cached_nexe_file_ s = None
  /\ Forall (fun a => is_cache_store_op a = false) (trace_ s).

(** The runs of the completion callback in a trace, latest first. *)
Definition notifications (t : list Action) : list Z :=
  flat_map (fun a => match a with
                     | RunTranslateNotifyCallback e => [e]
                     | _ => []
                     end) t.

(** *** An example request

    One instance of the helpers that are not among the sources, and one
    request, for the examples that follow the properties. *)

(** Modelled from the spec: a delay test that holds a progress event back
    within the last five percent of the expected size. *)
Definition example_ShouldDelayProgressEvent (expected compiled : Z) : bool :=
  Z.quot ((expected - compiled) * 100) expected <? 5.

(** Modelled from the spec: a request has a cache key when it has cache
    validators, and the key is the validator string (validators followed by
    URL). *)
Definition example_HasCacheKey (o : PnaclOptions) : bool :=
  negb (cache_validators o =? "")%string.

Definition example_GetCacheKey (o : PnaclOptions) : string :=
  cache_validators o.

(** Modelled from the spec: response headers reduced to their validator
    string, with ["no-store"] standing for a response that forbids
    storing. *)
Definition example_CacheControlNoStore (headers : string) : bool :=
  (headers =? "no-store")%string.

Definition example_GetCacheValidators (headers : string) : string :=
  if example_CacheControlNoStore headers then "" else headers.

(** A browser with an empty cache, serving 350 bytes of bitcode at URL
    ["U"] with validators ["abc123"]. *)
Definition example_host : Host :=
  {| host_off_the_record := false;
     host_use_new_cache := false;
     host_fs_open_result := PP.OK_COMPLETIONPENDING;
     host_open_stream_ok := true;
     host_downloader := mkFileDownloader "U" "abc123" 350;
     host_nexe_fd_err := PP.OK_COMPLETIONPENDING;
     host_is_cache_hit := false;
     host_nexe_handle := 7;
     host_nexe_fd_contents := [];
     host_set_existing_fd_ok := true;
     host_disk := fun _ => None |}.

(** The same browser with an off-the-record profile. *)
Definition example_host_off_the_record : Host :=
  {| host_off_the_record := true;
     host_use_new_cache := false;
     host_fs_open_result := PP.OK_COMPLETIONPENDING;
     host_open_stream_ok := true;
     host_downloader := mkFileDownloader "U" "abc123" 350;
     host_nexe_fd_err := PP.OK_COMPLETIONPENDING;
     host_is_cache_hit := false;
     host_nexe_handle := 7;
     host_nexe_fd_contents := [];
     host_set_existing_fd_ok := true;
     host_disk := fun _ => None |}.

Definition example_options : PnaclOptions := mkPnaclOptions 2 "".

Definition example_nexe : list byte := [x01; x02; x03; x04; x05].

(** The resources load, the cache directory is there, the stream opens and
    the cache has no entry for the key. *)
Definition example_setup : list Event :=
  [Fire CbResourceInfoWasRead PP.OK; Fire CbResourcesDidLoad PP.OK;
   Fire CbFileSystemDidOpen PP.OK; Fire CbDirectoryWasCreated PP.OK;
   Fire CbObjectFileDidOpen PP.OK; Fire CbBitcodeStreamDidOpen PP.OK;
   Fire CbCachedFileDidOpen PP.ERROR_FILENOTFOUND; Fire CbRunTranslate PP.OK].

(** The same without cache: no file system to open, no entry to look up. *)
Definition example_setup_off_the_record : list Event :=
  [Fire CbResourceInfoWasRead PP.OK; Fire CbResourcesDidLoad PP.OK;
   Fire CbObjectFileDidOpen PP.OK; Fire CbBitcodeStreamDidOpen PP.OK;
   Fire CbRunTranslate PP.OK].

(** Three chunks of 100, 200 and 50 bytes are compiled, the download
    finishes and the translator writes the nexe. *)
Definition example_translation : list Event :=
  [HelperGetCompileProgressCallback 100; Fire (CbBitcodeGotCompiled 100) PP.OK;
   HelperGetCompileProgressCallback 200; Fire (CbBitcodeGotCompiled 200) PP.OK;
   HelperGetCompileProgressCallback 50; Fire (CbBitcodeGotCompiled 50) PP.OK;
   Fire CbBitcodeStreamDidFinish PP.OK; TranslatorWrites example_nexe].

(** A cache miss up to the moment the scratch file is about to open. *)
Definition example_miss : list Event :=
  (example_setup ++ example_translation
     ++ [Fire CbTranslateFinished PP.OK])%list.

(** Two helpers report a failure one after the other. *)
Definition example_two_failures : list Event :=
  [Fire CbResourceInfoWasRead PP.OK;
   HelperReportNonPpapiError ERROR_PNACL_RESOURCE_FETCH "resource fetch failed";
   HelperReportNonPpapiError ERROR_PNACL_LLC_SETUP "compiler setup failed"].

(** The cache file system fails to open with an error that is none of
    no-access, no-quota, no-space; the directory creation that was started
    all the same then completes. *)
Definition example_fs_open_failure : list Event :=
  [Fire CbResourceInfoWasRead PP.OK; Fire CbResourcesDidLoad PP.OK;
   Fire CbFileSystemDidOpen PP.ERROR_FAILED;
   Fire CbDirectoryWasCreated PP.OK].

(** A write oracle: the first write of the copy stores two bytes, every
    later one all it is given. *)
Definition example_short_write (i : nat) (n : Z) : Z :=
  match i with
  | O => Z.min 2 n
  | S _ => n
  end.

(** A write oracle that reports zero bytes. *)
Definition example_zero_write (i : nat) (n : Z) : Z := 0.

(** The scratch file opens and the copy takes two writes, the first of them
    short: two of five bytes. *)
Definition example_copy : list Event :=
  [Fire CbCachedNexeOpenedForWrite PP.OK;
   Fire (CbDidCopyNexeToCachePartial 5 0) 2;
   Fire (CbDidCopyNexeToCachePartial 3 2) 3].

(** The state a run ends in ([default] if the process stopped). *)
Definition state_after (default : Coordinator)
    (r : option (unit * Coordinator)) : Coordinator :=
  match r with
  | Some (_, s) => s
  | None => default
  end.

(** The trace of a run, oldest call first. *)
Definition calls_of (r : option (unit * Coordinator)) : option (list Action) :=
  match r with
  | Some (_, s) => Some (rev (trace_ s))
  | None => None
  end.

(** What has been reported stays below a known total; while the total is
    not known, either nothing has been reported or the downloader does not
    know the total either. *)
Definition progress_below_total (d : FileDownloader) (s : Coordinator)
    : Prop :=
  if ExpectedProgressKnown s then
    Forall (fun p => bytesCompiled p <= expected_pexe_size_ s)
      (progress_events (trace_ s))
  else
    progress_events (trace_ s) = [] \/ dl_total_bytes d = -1.

(** *** Reports of the methods

    What the methods leave in [error_info_], by the completion value they
    were given. *)

(** The cache directory could not be created: one error code, two
    messages. *)
Definition directory_failure_report (pp_error : Z) : ErrorInfo :=
  if pp_error =? PP.ERROR_NOACCESS then
    ppapi_report ERROR_PNACL_CACHE_DIRECTORY_CREATE pp_error
      "PNaCl translation cache directory creation/check failed (no access)."
  else
    ppapi_report ERROR_PNACL_CACHE_DIRECTORY_CREATE pp_error
      "PNaCl translation cache directory creation/check failed.".

(** The download of the pexe failed. *)
Definition pexe_load_failure_report (pp_error : Z) : ErrorInfo :=
  if pp_error =? PP.ERROR_NOACCESS then
    mkErrorInfo ERROR_PNACL_PEXE_FETCH_NOACCESS
      "PnaclCoordinator: pexe load failed (no access)."
  else
    mkErrorInfo ERROR_PNACL_PEXE_FETCH_OTHER
      ("PnaclCoordinator: pexe load failed (pp_error="
         ++ show_int pp_error ++ ").").

(** *** The stream of bitcode *)

(** A sequence of stream-data callbacks, each with its completion value and
    its chunk of bytes (NULL when the stream has nothing to hand over). *)
Fixpoint stream_data (chunks : list (Z * option (list byte))) : M unit :=
  match chunks with
  | [] => ret tt
  | (pp_error, data) :: rest =>
      BitcodeStreamGotData pp_error data ;;
      stream_data rest
  end.

(** The byte counts among the completion values of a sequence of chunks: the
    positive ones that come with data. *)
Definition bytes_received (chunks : list (Z * option (list byte))) : Z :=
  fold_right
    (fun c acc =>
       (if is_some (snd c) && (0 <? fst c) then fst c else 0) + acc)
    0 chunks.

(** The calls on the translation thread that hand the chunks over, latest
    first. *)
Definition put_bytes_calls (chunks : list (Z * option (list byte)))
    : list Action :=
  rev (map (fun c => PutBytes (snd c) (fst c)) chunks).

(** Completions of asynchronous operations, as opposed to calls that the
    helper classes make on the coordinator. *)
Definition is_completion (ev : Event) : bool :=
  match ev with
  | Fire _ _ | FireStreamData _ _ => true
  | _ => false
  end.

(** *** Load errors and what follows them *)

Definition is_load_error_report (a : Action) : bool :=
  match a with
  | ReportLoadError _ => true
  | _ => false
  end.

(** The number of load errors reported to the plugin. *)
Definition load_error_reports (t : list Action) : nat :=
  List.length (filter is_load_error_report t).

Definition reports_are (n : nat) (s : Coordinator) : Prop :=
  load_error_reports (trace_ s) = n.

(** A computation for which a report is final: when it returns after it has
    reported a load error, no callback is registered. *)
Definition report_is_final {A : Type} (m : M A) : Prop :=
  forall s a s',
    m s = Some (a, s') ->
    load_error_reports (trace_ s') = load_error_reports (trace_ s)
    \/ callback_factory_ s' = [].

(** *** The two caches *)

(** The operations on the cache that the plugin keeps in its temporary file
    system: on the file system, on the cache directory, on a cache file. *)
Definition is_local_cache_op (a : Action) : bool :=
  match a with
  | FileSystemOpen | MakeDirectory
  | CacheOpenRead _ | CacheOpenWrite _ | CacheWrite _ _ _ | CacheDelete _
  | CacheRename _ _ | CacheFinishRename => true
  | _ => false
  end.

(** The operations on the cache that the browser keeps. *)
Definition is_browser_cache_op (a : Action) : bool :=
  match a with
  | GetNexeFd _ | ReportTranslationFinished => true
  | _ => false
  end.

Definition is_CbFileSystemDidOpen (cb : Callback) : bool :=
  match cb with
  | CbFileSystemDidOpen => true
  | _ => false
  end.

(** A coordinator that does without the cache of the plugin: the profile is
    off the record ([o]) or the cache of the browser is in use ([n]), there
    is no cache file, the open of the file system is not awaited, and
    nothing has been done to that cache. *)
Definition no_local_cache_inv (o n : bool) (s : Coordinator) : Prop :=
  off_the_record_ s = o
  /\ use_new_cache_ s = n
  /\ cached_nexe_file_ s = None
  /\ Forall (fun cb => is_CbFileSystemDidOpen cb = false) (callback_factory_ s)
  /\ Forall (fun a => is_local_cache_op a = false) (trace_ s).

(** A coordinator that does without the cache of the browser. *)
Definition no_browser_cache_inv (s : Coordinator) : Prop :=
  use_new_cache_ s = false
  /\ Forall (fun a => is_browser_cache_op a = false) (trace_ s).

(** *** The completion callback *)

(** The completion callback was run with [PP_OK] or [PP_ERROR_FAILED]. *)
Definition is_plain_notification (a : Action) : bool :=
  match a with
  | RunTranslateNotifyCallback e => (e =? PP.OK) || (e =? PP.ERROR_FAILED)
  | _ => true
  end.

Definition plain_notifications_inv (s : Coordinator) : Prop :=
  Forall (fun a => is_plain_notification a = true) (trace_ s).

(** *** The translation thread object *)

(** The callbacks that are made before the bitcode stream is opened, and
    those of the stream and of the compile progress, which the helper
    classes ask for. *)
Definition needs_no_thread (cb : Callback) : bool :=
  match cb with
  | CbResourceInfoWasRead | CbResourcesDidLoad | CbFileSystemDidOpen
  | CbDirectoryWasCreated | CbBitcodeStreamGotData | CbBitcodeGotCompiled _ =>
      true
  | _ => false
  end.

(** As long as there is no translation thread object, only those callbacks
    are registered. *)
Definition thread_inv (s : Coordinator) : Prop :=
  translate_thread_ s = None ->
  Forall (fun cb => needs_no_thread cb = true) (callback_factory_ s).

Definition has_thread (s : Coordinator) : Prop :=
  translate_thread_ s <> None.

(** *** The cache key during the copy *)

Definition options_are (o : PnaclOptions) (s : Coordinator) : Prop :=
  pnacl_options_ s = o.

Definition is_copy_callback (cb : Callback) : bool :=
  match cb with
  | CbCachedNexeOpenedForWrite | CbDidCopyNexeToCachePartial _ _ => true
  | _ => false
  end.

(** A browser whose temporary file system is being opened already. *)
Definition example_host_fs_in_progress : Host :=
  {| host_off_the_record := false;
     host_use_new_cache := false;
     host_fs_open_result := PP.ERROR_INPROGRESS;
     host_open_stream_ok := true;
     host_downloader := mkFileDownloader "U" "abc123" 350;
     host_nexe_fd_err := PP.OK_COMPLETIONPENDING;
     host_is_cache_hit := false;
     host_nexe_handle := 7;
     host_nexe_fd_contents := [];
     host_set_existing_fd_ok := true;
     host_disk := fun _ => None |}.

(** A browser that keeps the cache itself (PNACL_USE_NEW_CACHE), with and
    without an entry for the request. *)
Definition example_host_new_cache (hit : bool) : Host :=
  {| host_off_the_record := false;
     host_use_new_cache := true;
     host_fs_open_result := PP.OK_COMPLETIONPENDING;
     host_open_stream_ok := true;
     host_downloader := mkFileDownloader "U" "abc123" 350;
     host_nexe_fd_err := PP.OK_COMPLETIONPENDING;
     host_is_cache_hit := hit;
     host_nexe_handle := 7;
     host_nexe_fd_contents := if hit then example_nexe else [];
     host_set_existing_fd_ok := true;
     host_disk := fun _ => None |}.

(** The resources load and the cache directory is there. *)
Definition example_cache_ready : list Event :=
  [Fire CbResourceInfoWasRead PP.OK; Fire CbResourcesDidLoad PP.OK;
   Fire CbFileSystemDidOpen PP.OK; Fire CbDirectoryWasCreated PP.OK].

(** With the cache of the browser: the resources load, the stream opens and
    the browser is asked for the entry. *)
Definition example_new_cache_lookup : list Event :=
  [Fire CbResourceInfoWasRead PP.OK; Fire CbResourcesDidLoad PP.OK;
   Fire CbBitcodeStreamDidOpen PP.OK].

(** The set-up of a translation in which the object file opens last. *)
Definition example_object_file_last : list Event :=
  (example_cache_ready
     ++ [Fire CbBitcodeStreamDidOpen PP.OK;
         Fire CbCachedFileDidOpen PP.ERROR_FILENOTFOUND;
         Fire CbObjectFileDidOpen PP.OK])%list.

(** Three completions of the stream: three bytes, the end of the stream and
    an error. *)
Definition example_chunks : list (Z * option (list byte)) :=
  [(3, Some [x01; x02; x03]); (0, None); (PP.ERROR_FAILED, None)].

(** Requests for statistics, one of them with a negative time and one with
    an optimisation level that does not exist. *)
Definition example_requests : list UmaRequest :=
  [ReqOptLevel 7; ReqRatio "NaCl.Perf.Size.PexeNexeSizePct" 350 5;
   ReqTime "NaCl.Perf.PNaClLoadTime.CompileTime" (-1);
   ReqSizeKB "NaCl.Perf.Size.Pexe" 12; ReqTranslationCache true].

Definition example_uma : Uma := mkUma false true 0 [].

(** A browser whose cache directory holds a translation under the key of
    the example request. *)
Definition example_host_cached : Host :=
  {| host_off_the_record := false;
     host_use_new_cache := false;
     host_fs_open_result := PP.OK_COMPLETIONPENDING;
     host_open_stream_ok := true;
     host_downloader := mkFileDownloader "U" "abc123" 350;
     host_nexe_fd_err := PP.OK_COMPLETIONPENDING;
     host_is_cache_hit := false;
     host_nexe_handle := 7;
     host_nexe_fd_contents := [];
     host_set_existing_fd_ok := true;
     host_disk := disk_update (KeyName "abc123U") (Some example_nexe)
                    (fun _ => None) |}.

(** The object file and the translated file open and the translation
    thread is started while the stream is still opening; then the stream
    opens and the cache is asked for the key. *)
Definition example_lookup_while_translating : list Event :=
  (example_cache_ready
     ++ [Fire CbObjectFileDidOpen PP.OK; Fire CbRunTranslate PP.OK;
         Fire CbBitcodeStreamDidOpen PP.OK])%list.

(** * Properties *)

(** ** Invariants along computations *)

Lemma preserves_ret {A : Type} (I : Coordinator -> Prop) (a : A) :
  preserves I (ret a).
Proof. intros s b s' Hs H. inversion H; subst; exact Hs. Qed.

Lemma preserves_bind {A B : Type} (I : Coordinator -> Prop)
    (m : M A) (k : A -> M B) :
  preserves I m -> (forall a, preserves I (k a)) -> preserves I (bind m k).
Proof.
  intros Hm Hk s b s' Hs H. unfold bind in H.
  destruct (m s) as [[a s1]|] eqn:E; [|discriminate].
  exact (Hk a s1 b s' (Hm s a s1 Hs E) H).
Qed.

Lemma preserves_gets {A : Type} (I : Coordinator -> Prop)
    (f : Coordinator -> A) :
  preserves I (gets f).
Proof. intros s b s' Hs H. inversion H; subst; exact Hs. Qed.

Lemma preserves_deref {A : Type} (I : Coordinator -> Prop)
    (p : Coordinator -> option A) :
  preserves I (deref p).
Proof.
  intros s b s' Hs H. unfold deref in H.
  destruct (p s); inversion H; subst; exact Hs.
Qed.

Lemma preserves_crash {A : Type} (I : Coordinator -> Prop) :
  preserves I (@crash A).
Proof. intros s b s' _ H. discriminate H. Qed.

Lemma preserves_CHECK (I : Coordinator -> Prop) (b : bool) :
  preserves I (CHECK b).
Proof.
  destruct b; [apply preserves_ret | apply preserves_crash].
Qed.

Lemma preserves_modify (I : Coordinator -> Prop)
    (f : Coordinator -> Coordinator) :
  (forall s, I s -> I (f s)) -> preserves I (modify f).
Proof. intros Hf s b s' Hs H. inversion H; subst; auto. Qed.

Create HintDb pres discriminated.

#[local] Hint Resolve preserves_ret preserves_gets preserves_deref
  preserves_crash preserves_CHECK : pres.

(** One step through the structure of a method; [leaf] closes a state
    update. *)
Ltac preserves_step leaf :=
  lazymatch goal with
  | |- preserves _ (bind _ _) => apply preserves_bind; [ | intro ]
  | |- preserves _ (if ?b then _ else _) => destruct b eqn:?
  | |- preserves _ (match ?o with Some _ => _ | None => _ end) =>
      destruct o eqn:?
  | |- preserves _ (match ?p with pair _ _ => _ end) => destruct p eqn:?
  | |- preserves _ (modify _) => apply preserves_modify; intros; leaf
  | |- preserves _ (call _) => apply preserves_modify; intros; leaf
  | |- preserves _ (NewCallback _) => apply preserves_modify; intros; leaf
  | |- preserves _ _ => solve [ auto with pres ]
  end.

Ltac preserves_tac leaf := cbv zeta; repeat (preserves_step leaf).

(** ** The failure latch *)

Ltac latch_leaf :=
  idtac;
  match goal with
  | H : latch_inv _ |- latch_inv _ =>
      unfold latch_inv, failure_notifications in *; cbn in *;
      repeat match goal with
             | E : negb _ = false |- _ => rewrite E
             end;
      exact H
  end.

Lemma ExitWithError_latch : preserves latch_inv ExitWithError.
Proof.
  intros s a s' Hs H. unfold latch_inv in *.
  unfold ExitWithError, callback_factory_CancelAll, call, bind, gets,
    modify, ret in H.
  cbn in H.
  destruct (error_already_reported_ s) eqn:E; cbn in H;
    inversion H; subst; cbn; rewrite ?E; unfold failure_notifications in *;
    cbn; congruence.
Qed.

#[local] Hint Resolve ExitWithError_latch : pres.

Lemma ReportNonPpapiError_latch c m :
  preserves latch_inv (ReportNonPpapiError c m).
Proof. unfold ReportNonPpapiError. preserves_tac latch_leaf. Qed.

Lemma ReportPpapiError_latch c e m :
  preserves latch_inv (ReportPpapiError c e m).
Proof. unfold ReportPpapiError. preserves_tac latch_leaf. Qed.

#[local] Hint Resolve ReportNonPpapiError_latch ReportPpapiError_latch : pres.

Lemma NexeReadDidOpen_latch e : preserves latch_inv (NexeReadDidOpen e).
Proof. unfold NexeReadDidOpen. preserves_tac latch_leaf. Qed.

#[local] Hint Resolve NexeReadDidOpen_latch : pres.

Ltac unfold_prims :=
  unfold read_wrapper_Read, read_wrapper_Seek, temp_nexe_file_Reset,
    temp_nexe_read_wrapper, set_temp_nexe_read_wrapper, write_file_io_Write,
    cached_nexe_file_OpenRead, cached_nexe_file_OpenWrite,
    cached_nexe_file_Delete, cached_nexe_file_Rename,
    cached_nexe_file_FinishRename, callback_factory_CancelAll,
    GetCallback, GetCompileProgressCallback.

Lemma TranslateFinished_latch e : preserves latch_inv (TranslateFinished e).
Proof. unfold TranslateFinished. unfold_prims. preserves_tac latch_leaf. Qed.

Lemma NexeWasCopiedToCache_latch e :
  preserves latch_inv (NexeWasCopiedToCache e).
Proof.
  unfold NexeWasCopiedToCache. unfold_prims. preserves_tac latch_leaf.
Qed.

#[local] Hint Resolve TranslateFinished_latch NexeWasCopiedToCache_latch
  : pres.

Lemma CachedNexeOpenedForWrite_latch e :
  preserves latch_inv (CachedNexeOpenedForWrite e).
Proof.
  unfold CachedNexeOpenedForWrite. unfold_prims. preserves_tac latch_leaf.
Qed.

Lemma DidCopyNexeToCachePartial_latch e n o :
  preserves latch_inv (DidCopyNexeToCachePartial e n o).
Proof.
  unfold DidCopyNexeToCachePartial. unfold_prims. preserves_tac latch_leaf.
Qed.

Lemma CorruptCacheFileWasDeleted_latch d e :
  preserves latch_inv (CorruptCacheFileWasDeleted d e).
Proof. unfold CorruptCacheFileWasDeleted. preserves_tac latch_leaf. Qed.

Lemma NexeFileWasRenamed_latch e : preserves latch_inv (NexeFileWasRenamed e).
Proof.
  unfold NexeFileWasRenamed. unfold_prims. preserves_tac latch_leaf.
Qed.

Lemma ResourceInfoWasRead_latch e :
  preserves latch_inv (ResourceInfoWasRead e).
Proof. unfold ResourceInfoWasRead. preserves_tac latch_leaf. Qed.

Lemma OpenBitcodeStream_latch : preserves latch_inv OpenBitcodeStream.
Proof. unfold OpenBitcodeStream. preserves_tac latch_leaf. Qed.

#[local] Hint Resolve OpenBitcodeStream_latch : pres.

Lemma ResourcesDidLoad_latch e : preserves latch_inv (ResourcesDidLoad e).
Proof. unfold ResourcesDidLoad. preserves_tac latch_leaf. Qed.

Lemma FileSystemDidOpen_latch e : preserves latch_inv (FileSystemDidOpen e).
Proof. unfold FileSystemDidOpen. preserves_tac latch_leaf. Qed.

Lemma DirectoryWasCreated_latch e :
  preserves latch_inv (DirectoryWasCreated e).
Proof. unfold DirectoryWasCreated. preserves_tac latch_leaf. Qed.

Lemma BitcodeStreamDidFinish_latch e :
  preserves latch_inv (BitcodeStreamDidFinish e).
Proof. unfold BitcodeStreamDidFinish. preserves_tac latch_leaf. Qed.

Lemma CachedFileDidOpen_latch e : preserves latch_inv (CachedFileDidOpen e).
Proof. unfold CachedFileDidOpen. preserves_tac latch_leaf. Qed.

#[local] Hint Resolve BitcodeStreamDidFinish_latch CachedFileDidOpen_latch
  : pres.

Lemma BitcodeStreamDidOpen_latch e :
  preserves latch_inv (BitcodeStreamDidOpen e).
Proof.
  unfold BitcodeStreamDidOpen. unfold_prims. preserves_tac latch_leaf.
Qed.

Lemma NexeFdDidOpen_latch e : preserves latch_inv (NexeFdDidOpen e).
Proof. unfold NexeFdDidOpen. preserves_tac latch_leaf. Qed.

Lemma BitcodeStreamGotData_latch e d :
  preserves latch_inv (BitcodeStreamGotData e d).
Proof. unfold BitcodeStreamGotData. preserves_tac latch_leaf. Qed.

Lemma BitcodeGotCompiled_latch e n :
  preserves latch_inv (BitcodeGotCompiled e n).
Proof. unfold BitcodeGotCompiled. preserves_tac latch_leaf. Qed.

Lemma ObjectFileDidOpen_latch e : preserves latch_inv (ObjectFileDidOpen e).
Proof. unfold ObjectFileDidOpen. preserves_tac latch_leaf. Qed.

Lemma RunTranslate_latch e : preserves latch_inv (RunTranslate e).
Proof. unfold RunTranslate. preserves_tac latch_leaf. Qed.

#[local] Hint Resolve CachedNexeOpenedForWrite_latch
  DidCopyNexeToCachePartial_latch CorruptCacheFileWasDeleted_latch
  NexeFileWasRenamed_latch ResourceInfoWasRead_latch ResourcesDidLoad_latch
  FileSystemDidOpen_latch DirectoryWasCreated_latch
  BitcodeStreamDidOpen_latch NexeFdDidOpen_latch BitcodeStreamGotData_latch
  BitcodeGotCompiled_latch ObjectFileDidOpen_latch RunTranslate_latch : pres.

(** A completion changes files and out-parameters only. *)
Lemma host_complete_frame cb e s :
  trace_ (host_complete cb e s) = trace_ s
  /\ error_already_reported_ (host_complete cb e s) = error_already_reported_ s
  /\ host_ (host_complete cb e s) = host_ s
  /\ off_the_record_ (host_complete cb e s) = off_the_record_ s
  /\ use_new_cache_ (host_complete cb e s) = use_new_cache_ s
  /\ streaming_downloader_ (host_complete cb e s) = streaming_downloader_ s
  /\ expected_pexe_size_ (host_complete cb e s) = expected_pexe_size_ s
  /\ pexe_bytes_compiled_ (host_complete cb e s) = pexe_bytes_compiled_ s
  /\ callback_factory_ (host_complete cb e s) = callback_factory_ s.
Proof.
  unfold host_complete.
  destruct cb; cbn;
    repeat match goal with
           | |- context [match ?x with _ => _ end] => destruct x; cbn
           end;
    repeat split; reflexivity.
Qed.

Lemma dispatch_latch cb e d : preserves latch_inv (dispatch cb e d).
Proof. destruct cb; cbn; auto with pres. Qed.

#[local] Hint Resolve dispatch_latch : pres.

Lemma fire_latch cb e d : preserves latch_inv (fire cb e d).
Proof.
  unfold fire. apply preserves_bind; [auto with pres | intro registered].
  destruct (in_dec Callback_eq_dec cb registered); [|auto with pres].
  apply preserves_bind; [apply preserves_modify; intros s Hs; exact Hs|intro].
  apply preserves_bind; [|intro; auto with pres].
  apply preserves_modify; intros s Hs. unfold latch_inv in *.
  destruct (host_complete_frame cb e s) as (Ht & Hr & _).
  rewrite Ht, Hr. exact Hs.
Qed.

#[local] Hint Resolve fire_latch : pres.

Lemma deliver_latch ev : preserves latch_inv (deliver ev).
Proof.
  destruct ev; cbn; unfold_prims; auto with pres;
    try (preserves_tac latch_leaf; fail);
    apply preserves_modify; intros s Hs; unfold latch_inv in *.
  - destruct (streaming_downloader_ s); exact Hs.
  - destruct (temp_nexe_file_ s) as [[[d|]]|]; exact Hs.
Qed.

Lemma run_preserves (I : Coordinator -> Prop) :
  (forall ev, preserves I (deliver ev)) ->
  forall events, preserves I (run events).
Proof.
  intros Hd events. induction events as [|ev rest IH]; cbn.
  - apply preserves_ret.
  - apply preserves_bind; auto.
Qed.

Lemma BitcodeToNative_latch h url opts :
  latch_inv (BitcodeToNative h url opts).
Proof. reflexivity. Qed.

(** In a state where the failure has been reported, the error-exit path
    reports the load error and cancels the callbacks, and that is all. *)
Lemma ExitWithError_after_report s :
  error_already_reported_ s = true ->
  exists s',
    ExitWithError s = Some (tt, s')
    /\ trace_ s' = CancelAll :: ReportLoadError (error_info_ s) :: trace_ s
    /\ error_already_reported_ s' = true.
Proof.
  intros E. eexists. unfold ExitWithError, callback_factory_CancelAll,
    call, bind, gets, modify, ret. cbn. rewrite E. cbn.
  split; [reflexivity|]. split; [reflexivity|exact E].
Qed.

(** The first pass through the error-exit path runs the completion callback
    with [PP_ERROR_FAILED] and sets the latch. *)
Lemma ExitWithError_first_report s :
  error_already_reported_ s = false ->
  exists s',
    ExitWithError s = Some (tt, s')
    /\ trace_ s' = RunTranslateNotifyCallback PP.ERROR_FAILED
                     :: CancelAll :: ReportLoadError (error_info_ s)
                     :: trace_ s
    /\ error_already_reported_ s' = true.
Proof.
  intros E. eexists. unfold ExitWithError, callback_factory_CancelAll,
    call, bind, gets, modify, ret. cbn. rewrite E. cbn.
  repeat split; reflexivity.
Qed.

(** C1: for every request, in every run of the coordinator, the caller's
    completion callback has been run with a failure indication at most once;
    going through the error-exit path in the state reached leaves the count
    at exactly one, and when a failure had already been delivered the path
    only reports the load error and cancels the callbacks: the completion
    callback is not run again. *)
Theorem C1_failure_indication_at_most_once :
  forall h url opts events s,
    run events (BitcodeToNative h url opts) = Some (tt, s) ->
    (failure_notifications (trace_ s) <= 1)%nat
    /\ exists s',
         ExitWithError s = Some (tt, s')
         /\ failure_notifications (trace_ s') = 1%nat
         /\ (failure_notifications (trace_ s) = 1%nat ->
             trace_ s' = CancelAll :: ReportLoadError (error_info_ s)
                           :: trace_ s).
Proof.
  intros h url opts events s Hrun.
  assert (Hinv : latch_inv s).
  { eapply (run_preserves latch_inv deliver_latch events); [|exact Hrun].
    apply BitcodeToNative_latch. }
  unfold latch_inv in Hinv.
  destruct (error_already_reported_ s) eqn:E.
  - split; [lia|].
    destruct (ExitWithError_after_report s E) as (s' & Hx & Ht & _).
    exists s'. split; [exact Hx|]. split.
    + rewrite Ht. unfold failure_notifications in *. cbn. exact Hinv.
    + intros _. exact Ht.
  - split; [lia|].
    destruct (ExitWithError_first_report s E) as (s' & Hx & Ht & _).
    exists s'. split; [exact Hx|]. split.
    + rewrite Ht. unfold failure_notifications in *. cbn. lia.
    + intros H1. lia.
Qed.

(** ** Single methods *)

Ltac spec_done :=
  eexists; repeat split; cbn;
  first [ reflexivity | assumption | symmetry; assumption ].

(** What a pass through [ReportPpapiError] leaves behind. *)
Lemma ReportPpapiError_spec c e m s :
  exists s',
    ReportPpapiError c e m s = Some (tt, s')
    /\ trace_ s' = error_exit_trace (ppapi_report c e m) s
    /\ callback_factory_ s' = []
    /\ error_already_reported_ s' = true
    /\ cached_nexe_file_ s' = cached_nexe_file_ s
    /\ temp_nexe_file_ s' = temp_nexe_file_ s
    /\ disk_ s' = disk_ s.
Proof.
  unfold ReportPpapiError, ExitWithError, callback_factory_CancelAll,
    error_exit_trace, ppapi_report, call, bind, gets, modify, ret.
  cbn. destruct (error_already_reported_ s) eqn:E; cbn; spec_done.
Qed.

Lemma NexeWasCopiedToCache_ok s f :
  cached_nexe_file_ s = Some f ->
  exists s',
    NexeWasCopiedToCache PP.OK s = Some (tt, s')
    /\ trace_ s' = CacheRename (ltf_filename f)
                     (GetCacheKey (pnacl_options_ s)) :: trace_ s
    /\ callback_factory_ s' = CbNexeFileWasRenamed :: callback_factory_ s
    /\ temp_nexe_file_ s' = temp_nexe_file_ s
    /\ disk_ s' = disk_ s
    /\ error_already_reported_ s' = error_already_reported_ s
    /\ pnacl_options_ s' = pnacl_options_ s
    /\ cached_nexe_file_ s'
       = Some (mkLocalTempFile (ltf_filename f)
                 (Some (GetCacheKey (pnacl_options_ s)))
                 (ltf_read_wrapper f)).
Proof.
  intros Hf.
  unfold NexeWasCopiedToCache, cached_nexe_file_Rename, NewCallback, call,
    deref, bind, gets, modify, ret.
  cbn. rewrite Hf. cbn. spec_done.
Qed.

Lemma NexeWasCopiedToCache_error s f e :
  cached_nexe_file_ s = Some f ->
  e <> PP.OK ->
  exists s',
    NexeWasCopiedToCache e s = Some (tt, s')
    /\ trace_ s' = CacheDelete (ltf_filename f) :: trace_ s
    /\ callback_factory_ s'
       = CbCorruptCacheFileWasDeleted e :: callback_factory_ s
    /\ cached_nexe_file_ s' = cached_nexe_file_ s
    /\ error_already_reported_ s' = error_already_reported_ s.
Proof.
  intros Hf He.
  unfold NexeWasCopiedToCache, cached_nexe_file_Delete, NewCallback, call,
    deref, bind, gets, modify, ret.
  apply Z.eqb_neq in He. rewrite He.
  cbn. rewrite Hf. cbn. spec_done.
Qed.

(** C10: in the copy loop a write completion that reports zero bytes is
    taken for the end of the copy: whatever was requested, the coordinator
    goes straight to the rename, registers its callback, and neither reads
    the translated file again (its read wrapper is untouched) nor writes to
    the cache file. *)
Theorem C10_zero_byte_write_ends_copy :
  forall s f num_read_prev cur_offset,
    cached_nexe_file_ s = Some f ->
    exists s',
      DidCopyNexeToCachePartial PP.OK num_read_prev cur_offset s
      = Some (tt, s')
      /\ NexeWasCopiedToCache PP.OK s = Some (tt, s')
      /\ trace_ s' = CacheRename (ltf_filename f)
                       (GetCacheKey (pnacl_options_ s)) :: trace_ s
      /\ callback_factory_ s' = CbNexeFileWasRenamed :: callback_factory_ s
      /\ temp_nexe_file_ s' = temp_nexe_file_ s
      /\ disk_ s' = disk_ s.
Proof.
  intros s f n off Hf.
  destruct (NexeWasCopiedToCache_ok s f Hf) as (s' & Hrun & Ht & Hc & Hn & Hd & _).
  exists s'. unfold DidCopyNexeToCachePartial. cbn.
  repeat split; assumption.
Qed.

(** C3: a finalizing rename that fails because the target exists is not a
    failure: the coordinator does exactly what it does after a successful
    rename (it finishes the rename and opens the file under the cache key
    for reading, reporting no error); with no-access or any other error
    code the request ends in the error-exit path with the report of that
    category, and nothing is finished, opened or left registered. *)
Theorem C3_rename_collision_is_benign :
  forall s f key,
    cached_nexe_file_ s = Some f ->
    ltf_rename_target f = Some key ->
    (exists s',
       NexeFileWasRenamed PP.ERROR_FILEEXISTS s = Some (tt, s')
       /\ NexeFileWasRenamed PP.OK s = Some (tt, s')
       /\ trace_ s' = CacheOpenRead (KeyName key) :: CacheFinishRename
                        :: trace_ s
       /\ callback_factory_ s' = CbNexeReadDidOpen :: callback_factory_ s
       /\ error_already_reported_ s' = error_already_reported_ s)
    /\ (forall e,
          e <> PP.OK -> e <> PP.ERROR_FILEEXISTS ->
          exists s',
            NexeFileWasRenamed e s = Some (tt, s')
            /\ trace_ s' = error_exit_trace (rename_failure_report e) s
            /\ callback_factory_ s' = []
            /\ error_already_reported_ s' = true).
Proof.
  intros s f key Hf Hk. split.
  - unfold NexeFileWasRenamed, cached_nexe_file_FinishRename,
      cached_nexe_file_OpenRead, NewCallback, call, deref, bind, gets,
      modify, ret.
    cbn. rewrite Hf. cbn. rewrite Hk. spec_done.
  - intros e H0 H1. unfold NexeFileWasRenamed, rename_failure_report.
    apply Z.eqb_neq in H0, H1. rewrite H0, H1. cbn.
    destruct (e =? PP.ERROR_NOACCESS);
      match goal with
      | |- context [ReportPpapiError ?c ?e ?m ?s] =>
          destruct (ReportPpapiError_spec c e m s) as (s' & Hr & Ht & Hc & Hl & _)
      end;
      exists s'; repeat split; assumption.
Qed.

Lemma remove_one_head cb l : remove_one cb (cb :: l) = l.
Proof. cbn. destruct (Callback_eq_dec cb cb); congruence. Qed.

(** Firing the callback registered last. *)
Lemma fire_head cb l e d s :
  callback_factory_ s = cb :: l ->
  fire cb e d s
  = dispatch cb e d (host_complete cb e (set_callback_factory_ l s)).
Proof.
  intros Hc. unfold fire, bind, gets, modify. rewrite Hc.
  destruct (in_dec Callback_eq_dec cb (cb :: l)) as [_|n];
    [|exfalso; apply n; left; reflexivity].
  rewrite remove_one_head. reflexivity.
Qed.

Lemma error_exit_trace_ext info s s' :
  trace_ s' = trace_ s ->
  error_already_reported_ s' = error_already_reported_ s ->
  error_exit_trace info s' = error_exit_trace info s.
Proof. intros Ht Hr. unfold error_exit_trace. rewrite Ht, Hr. reflexivity. Qed.

Lemma CorruptCacheFileWasDeleted_spec d e s :
  exists s',
    CorruptCacheFileWasDeleted d e s = Some (tt, s')
    /\ trace_ s' = error_exit_trace (copy_failure_report e) s
    /\ callback_factory_ s' = []
    /\ error_already_reported_ s' = true.
Proof.
  unfold CorruptCacheFileWasDeleted, copy_failure_report.
  destruct (e =? PP.ERROR_NOQUOTA); [|destruct (e =? PP.ERROR_NOSPACE)];
    match goal with
    | |- context [ReportPpapiError ?c ?e ?m ?s] =>
        destruct (ReportPpapiError_spec c e m s) as (s' & Hr & Ht & Hc & Hl & _)
    end;
    exists s'; repeat split; assumption.
Qed.

(** C5: when a write of the copy into the cache fails, the coordinator
    first asks for the scratch file to be deleted and reports nothing yet;
    when the deletion completes, with whatever result, the error reported to
    the plugin and surfaced through the error-exit path is the one of the
    failed write, in its category (no quota, no space, other). *)
Theorem C5_copy_failure_deletes_then_reports_original :
  forall s f write_error num_read_prev cur_offset delete_pp_error,
    cached_nexe_file_ s = Some f ->
    write_error < 0 ->
    exists s1 s2,
      DidCopyNexeToCachePartial write_error num_read_prev cur_offset s
      = Some (tt, s1)
      /\ trace_ s1 = CacheDelete (ltf_filename f) :: trace_ s
      /\ error_already_reported_ s1 = error_already_reported_ s
      /\ fire (CbCorruptCacheFileWasDeleted write_error) delete_pp_error None s1
         = Some (tt, s2)
      /\ trace_ s2 = error_exit_trace (copy_failure_report write_error) s1.
Proof.
  intros s f e n off d Hf He.
  assert (Hne : e <> PP.OK) by (unfold PP.OK; lia).
  destruct (NexeWasCopiedToCache_error s f e Hf Hne)
    as (s1 & Hrun & Ht & Hc & Hcf & Hr).
  pose (s1' := host_complete (CbCorruptCacheFileWasDeleted e) d
                 (set_callback_factory_ (callback_factory_ s) s1)).
  destruct (CorruptCacheFileWasDeleted_spec d e s1') as (s2 & Hrun2 & Ht2 & _).
  exists s1, s2. repeat split.
  - unfold DidCopyNexeToCachePartial.
    replace (e =? PP.OK) with false by (symmetry; apply Z.eqb_neq; exact Hne).
    replace (e <? PP.OK) with true
      by (symmetry; apply Z.ltb_lt; unfold PP.OK; lia).
    exact Hrun.
  - exact Ht.
  - exact Hr.
  - rewrite (fire_head _ _ _ _ _ Hc). exact Hrun2.
  - rewrite Ht2. apply error_exit_trace_ext; subst s1';
      destruct (host_complete_frame (CbCorruptCacheFileWasDeleted e) d
                  (set_callback_factory_ (callback_factory_ s) s1))
        as (H1 & H2 & _); [rewrite H1|rewrite H2]; reflexivity.
Qed.

(** ** The copy into the cache *)

Lemma firstn_plus_skipn {A : Type} (a b : nat) (l : list A) :
  (firstn a l ++ firstn b (skipn a l))%list = firstn (a + b) l.
Proof.
  revert l. induction a as [|a IH]; intros [|x l]; cbn;
    rewrite ?firstn_nil; try reflexivity.
  f_equal. apply IH.
Qed.

Lemma firstn_length_firstn {A : Type} (n : nat) (l : list A) :
  firstn (List.length (firstn n l)) l = firstn n l.
Proof.
  rewrite length_firstn. destruct (Nat.le_ge_cases n (List.length l)).
  - rewrite Nat.min_l by assumption. reflexivity.
  - rewrite Nat.min_r by assumption.
    rewrite !firstn_all2 by lia. reflexivity.
Qed.

Lemma write_at_end (off : nat) (data bs : list byte) :
  (off <= List.length bs)%nat ->
  write_at (Z.of_nat off) data (firstn off bs) = (firstn off bs ++ data)%list.
Proof.
  intros Hle. unfold write_at. rewrite Nat2Z.id.
  assert (Hlen : List.length (firstn off bs) = off)
    by (apply firstn_length_le; exact Hle).
  rewrite Hlen, Nat.sub_diag. cbn [repeat]. rewrite app_nil_r.
  rewrite firstn_all2 by lia. rewrite skipn_all2 by lia.
  rewrite app_nil_r. reflexivity.
Qed.

#[local] Opaque kCopyBufSize.

Lemma kCopyBufSize_val : kCopyBufSize = 524288.
Proof. reflexivity. Qed.

Lemma read_wrapper_Read_spec s bs pos :
  temp_nexe_file_ s = Some (mkTempFile (Some (mkDescWrapper bs pos))) ->
  let buf := firstn (Z.to_nat kCopyBufSize) (skipn (Z.to_nat pos) bs) in
  read_wrapper_Read s
  = Some (buf,
          set_trace_ (TempFileRead (Z.of_nat (List.length buf)) :: trace_ s)
            (set_temp_nexe_file_
               (Some (mkTempFile
                        (Some (mkDescWrapper bs
                                 (pos + Z.of_nat (List.length buf)))))) s)).
Proof.
  intros Ht. unfold read_wrapper_Read, temp_nexe_read_wrapper,
    set_temp_nexe_read_wrapper, call, deref, bind, modify, ret.
  rewrite Ht. cbn. reflexivity.
Qed.

Lemma wrap64_id z : - 2 ^ 63 <= z < 2 ^ 63 -> wrap64 z = z.
Proof.
  intros H. unfold wrap64. rewrite Z.mod_small by lia. lia.
Qed.

Lemma wrap32_id z : - 2 ^ 31 <= z < 2 ^ 31 -> wrap32 z = z.
Proof.
  intros H. unfold wrap32. rewrite Z.mod_small by lia. lia.
Qed.

(** What the coordinator does with the bytes behind the read pointer once
    the pointer is where the cache file ends. *)
Lemma copy_next_chunk bs f cbs off s next_offset :
  temp_nexe_file_ s = Some (mkTempFile (Some (mkDescWrapper bs (Z.of_nat off)))) ->
  cached_nexe_file_ s = Some f ->
  callback_factory_ s = cbs ->
  disk_ s (ltf_filename f) = Some (firstn off bs) ->
  (off <= List.length bs)%nat ->
  next_offset = Z.of_nat off ->
  exists s',
    (buf <- read_wrapper_Read ;;
     let num_read := Z.of_nat (List.length buf) in
     if num_read =? 0 then NexeWasCopiedToCache PP.OK
     else if num_read <? 0 then NexeWasCopiedToCache PP.ERROR_FAILED
     else
       NewCallback (CbDidCopyNexeToCachePartial num_read next_offset) ;;
       write_file_io_Write next_offset buf) s = Some (tt, s')
    /\ ((copied bs f cbs s' /\ (List.length bs <= off)%nat)
        \/ exists n,
             copying bs f cbs off n s'
             /\ trace_ s'
                = CacheWrite (ltf_filename f) (Z.of_nat off)
                    (firstn n (skipn off bs))
                    :: TempFileRead (Z.of_nat n) :: trace_ s).
Proof.
  intros Ht Hf Hc Hd Hle ->.
  unfold bind at 1. rewrite (read_wrapper_Read_spec s bs _ Ht).
  cbv zeta. rewrite Nat2Z.id.
  set (buf := firstn (Z.to_nat kCopyBufSize) (skipn off bs)).
  set (s1 := set_trace_ _ _).
  assert (Hbuf : (List.length buf <= Z.to_nat kCopyBufSize)%nat)
    by (subst buf; apply firstn_le_length).
  assert (Hbuf2 : (List.length buf <= List.length bs - off)%nat).
  { subst buf. rewrite length_firstn, length_skipn. lia. }
  destruct (Z.of_nat (List.length buf) =? 0) eqn:E0.
  - apply Z.eqb_eq in E0.
    assert (Hnil : skipn off bs = []).
    { subst buf. destruct (skipn off bs) as [|x l]; [reflexivity|].
      assert (Hpos : (0 < Z.to_nat kCopyBufSize)%nat)
        by (rewrite kCopyBufSize_val; lia).
      destruct (Z.to_nat kCopyBufSize); [lia|]. cbn in E0. lia. }
    destruct (NexeWasCopiedToCache_ok s1 f)
      as (s' & Hrun & Htr & Hcb & Htf & Hdk & _ & Hop & Hcf).
    { subst s1. cbn. exact Hf. }
    exists s'. split; [exact Hrun|]. left.
    assert (Hge : (List.length bs <= off)%nat).
    { assert (Hl : List.length (skipn off bs) = 0%nat) by (rewrite Hnil; reflexivity).
      rewrite length_skipn in Hl. lia. }
    split; [|exact Hge].
    unfold copied. rewrite Hcf, Hcb, Hdk, Hop, Htr. subst s1. cbn.
    repeat split.
    + congruence.
    + rewrite Hd. f_equal.
      rewrite <- (firstn_skipn off bs) at 2. rewrite Hnil, app_nil_r.
      reflexivity.
    + eexists. reflexivity.
  - apply Z.eqb_neq in E0.
    replace (Z.of_nat (List.length buf) <? 0) with false
      by (symmetry; apply Z.ltb_ge; lia).
    eexists. split.
    + unfold NewCallback, write_file_io_Write, call, deref, bind, modify.
      subst s1. cbn. rewrite Hf. cbn. reflexivity.
    + right. exists (List.length buf).
      assert (Hb : firstn (List.length buf) (skipn off bs) = buf)
        by (subst buf; apply firstn_length_firstn).
      split; [|cbn; rewrite Hb; reflexivity].
      unfold copying. cbn. rewrite Hc, Hb. repeat split.
      * rewrite Nat2Z.inj_add. reflexivity.
      * exact Hf.
      * exact Hd.
      * lia.
      * lia.
      * lia.
Qed.

Lemma read_wrapper_Seek_spec s bs pos offset :
  temp_nexe_file_ s = Some (mkTempFile (Some (mkDescWrapper bs pos))) ->
  0 <= pos + offset ->
  read_wrapper_Seek offset s
  = Some (pos + offset,
          set_trace_ (TempFileSeekCur offset :: trace_ s)
            (set_temp_nexe_file_
               (Some (mkTempFile (Some (mkDescWrapper bs (pos + offset))))) s)).
Proof.
  intros Ht Hpos. unfold read_wrapper_Seek, temp_nexe_read_wrapper,
    set_temp_nexe_read_wrapper, dw_seek_cur, call, deref, bind, modify, ret.
  rewrite Ht. cbn.
  replace (pos + offset <? 0) with false by (symmetry; apply Z.ltb_ge; lia).
  cbn. reflexivity.
Qed.

(** The completion of a write of the copy that reports [k > 0] bytes. *)
Lemma host_complete_write bs f cbs off n s k :
  copying bs f cbs off n s ->
  0 < k <= Z.of_nat n ->
  host_complete (CbDidCopyNexeToCachePartial (Z.of_nat n) (Z.of_nat off)) k
    (set_callback_factory_ cbs s)
  = set_write_in_flight_ None
      (set_disk_
         (disk_update (ltf_filename f)
            (Some (firstn (off + Z.to_nat k) bs)) (disk_ s))
         (set_callback_factory_ cbs s)).
Proof.
  intros (Ht & Hf & Hc & Hw & Hd & Hn & Hbuf & Hle) Hk.
  unfold host_complete. cbn. rewrite Hf, Hw.
  replace (0 <? k) with true by (symmetry; apply Z.ltb_lt; lia).
  unfold file_bytes. rewrite Hd.
  rewrite write_at_end by lia.
  rewrite firstn_firstn, Nat.min_l by lia.
  rewrite firstn_plus_skipn. reflexivity.
Qed.

Lemma copy_step bs f cbs off n s k :
  copying bs f cbs off n s ->
  Z.of_nat (List.length bs) < 2 ^ 63 ->
  0 < k <= Z.of_nat n ->
  exists s',
    fire (CbDidCopyNexeToCachePartial (Z.of_nat n) (Z.of_nat off)) k None s
    = Some (tt, s')
    /\ ((copied bs f cbs s' /\ (List.length bs <= off + Z.to_nat k)%nat)
        \/ exists n',
             copying bs f cbs (off + Z.to_nat k) n' s'
             /\ trace_ s'
                = (CacheWrite (ltf_filename f) (Z.of_nat (off + Z.to_nat k))
                     (firstn n' (skipn (off + Z.to_nat k) bs))
                     :: TempFileRead (Z.of_nat n')
                     :: (if k =? Z.of_nat n then []
                         else [TempFileSeekCur (k - Z.of_nat n)])
                     ++ trace_ s)%list).
Proof.
  intros Hcopying Hlen Hk.
  pose proof Hcopying as (Ht & Hf & Hc & Hw & Hd & Hn & Hbuf & Hle).
  rewrite (fire_head _ _ _ _ _ Hc).
  rewrite (host_complete_write bs f cbs off n s k Hcopying Hk).
  set (s1 := set_write_in_flight_ _ _).
  assert (Hd1 : disk_ s1 (ltf_filename f) = Some (firstn (off + Z.to_nat k) bs)).
  { subst s1. cbn. unfold disk_update.
    destruct f as [[|key] tgt rw]; cbn; [reflexivity|].
    rewrite String.eqb_refl. reflexivity. }
  assert (Hnext : add64 (Z.of_nat off) k = Z.of_nat (off + Z.to_nat k)).
  { unfold add64. rewrite wrap64_id by lia. lia. }
  cbn [dispatch]. unfold DidCopyNexeToCachePartial.
  replace (k =? PP.OK) with false
    by (symmetry; apply Z.eqb_neq; unfold PP.OK; lia).
  replace (k <? PP.OK) with false
    by (symmetry; apply Z.ltb_ge; unfold PP.OK; lia).
  cbv zeta. rewrite Hnext.
  unfold bind at 1. unfold deref at 1.
  replace (temp_nexe_file_ s1) with (temp_nexe_file_ s) by reflexivity.
  rewrite Ht.
  destruct (k =? Z.of_nat n) eqn:Ekn; cbn [negb].
  - apply Z.eqb_eq in Ekn.
    apply copy_next_chunk.
    + subst s1. cbn. rewrite Ht. do 4 f_equal. lia.
    + subst s1. cbn. exact Hf.
    + reflexivity.
    + exact Hd1.
    + lia.
    + reflexivity.
  - apply Z.eqb_neq in Ekn.
    replace (k <? Z.of_nat n) with true by (symmetry; apply Z.ltb_lt; lia).
    unfold CHECK. unfold bind at 1. unfold ret at 1.
    assert (Hsub : sub32 k (Z.of_nat n) = k - Z.of_nat n).
    { unfold sub32. apply wrap32_id. rewrite kCopyBufSize_val in Hbuf. lia. }
    rewrite Hsub. unfold bind at 1.
    rewrite (read_wrapper_Seek_spec s1 bs (Z.of_nat (off + n)) _)
      by (try (subst s1; cbn; exact Ht); lia).
    replace (Z.of_nat (off + n) + (k - Z.of_nat n) <? 0) with false
      by (symmetry; apply Z.ltb_ge; lia).
    set (s2 := set_trace_ _ _).
    apply copy_next_chunk.
    + subst s2 s1. cbn. do 4 f_equal. lia.
    + subst s2 s1. cbn. exact Hf.
    + reflexivity.
    + exact Hd1.
    + lia.
    + reflexivity.
Qed.

Lemma copy_loop_done fuel w i bs f cbs s :
  copied bs f cbs s -> copy_loop fuel w i s = Some (tt, s).
Proof.
  intros (_ & Hc & _). destruct fuel; [reflexivity|].
  cbn. unfold bind, gets. rewrite Hc. reflexivity.
Qed.

Lemma copy_loop_completes (w : nat -> Z -> Z) bs f cbs :
  (forall i n, 0 < n -> 0 < w i n <= n) ->
  Z.of_nat (List.length bs) < 2 ^ 63 ->
  forall fuel i off n s,
    copying bs f cbs off n s ->
    (List.length bs - off <= fuel)%nat ->
    exists s', copy_loop fuel w i s = Some (tt, s') /\ copied bs f cbs s'.
Proof.
  intros Hw Hlen. induction fuel as [|fuel IH]; intros i off n s Hcopying Hfuel.
  - destruct Hcopying as (_ & _ & _ & _ & _ & Hn & _ & Hle). lia.
  - pose proof Hcopying as (_ & _ & Hc & _ & _ & Hn & _ & Hle).
    assert (Hk : 0 < w i (Z.of_nat n) <= Z.of_nat n) by (apply Hw; lia).
    destruct (copy_step bs f cbs off n s _ Hcopying Hlen Hk)
      as (s1 & Hfire & [[Hdone _]|(n' & Hnext & _)]).
    + exists s1. split; [|exact Hdone].
      cbn [copy_loop]. unfold bind at 1. unfold gets at 1. rewrite Hc.
      unfold bind at 1. rewrite Hfire.
      apply (copy_loop_done _ _ _ bs f cbs); exact Hdone.
    + destruct (IH (S i) _ _ s1 Hnext) as (s' & Hloop & Hdone); [lia|].
      exists s'. split; [|exact Hdone].
      cbn [copy_loop]. unfold bind at 1. unfold gets at 1. rewrite Hc.
      unfold bind at 1. rewrite Hfire. exact Hloop.
Qed.

(** A short write makes the coordinator seek back by what was not written
    and issue the next write where the cache file ends. *)
Lemma short_write_seeks_back bs f cbs off n s k :
  copying bs f cbs off n s ->
  Z.of_nat (List.length bs) < 2 ^ 63 ->
  0 < k < Z.of_nat n ->
  exists s' n',
    fire (CbDidCopyNexeToCachePartial (Z.of_nat n) (Z.of_nat off)) k None s
    = Some (tt, s')
    /\ copying bs f cbs (off + Z.to_nat k) n' s'
    /\ trace_ s'
       = CacheWrite (ltf_filename f) (Z.of_nat off + k)
           (firstn n' (skipn (off + Z.to_nat k) bs))
           :: TempFileRead (Z.of_nat n')
           :: TempFileSeekCur (k - Z.of_nat n) :: trace_ s.
Proof.
  intros Hcopying Hlen Hk.
  pose proof Hcopying as (_ & _ & _ & _ & _ & _ & _ & Hle).
  destruct (copy_step bs f cbs off n s k Hcopying Hlen)
    as (s' & Hfire & [[_ Hge]|(n' & Hnext & Htr)]); [lia|lia|].
  exists s', n'. split; [exact Hfire|]. split; [exact Hnext|].
  rewrite Htr.
  replace (k =? Z.of_nat n) with false by (symmetry; apply Z.eqb_neq; lia).
  cbn. do 2 f_equal. lia.
Qed.

Lemma copy_to_cache_completes (w : nat -> Z -> Z) bs f cbs s :
  temp_nexe_file_ s = Some (mkTempFile (Some (mkDescWrapper bs 0))) ->
  cached_nexe_file_ s = Some f ->
  callback_factory_ s = CbCachedNexeOpenedForWrite :: cbs ->
  Z.of_nat (List.length bs) < 2 ^ 63 ->
  (forall i n, 0 < n -> 0 < w i n <= n) ->
  exists s',
    copy_to_cache (List.length bs) w s = Some (tt, s')
    /\ copied bs f cbs s'.
Proof.
  intros Ht Hf Hc Hlen Hw. unfold copy_to_cache.
  unfold bind at 1. rewrite (fire_head _ _ _ _ _ Hc).
  unfold host_complete. cbn [cached_nexe_file_ set_callback_factory_].
  rewrite Hf. cbn [Z.eqb PP.OK].
  set (s0 := set_disk_ _ _).
  cbn [dispatch].
  assert (Hopen : exists s1,
             CachedNexeOpenedForWrite PP.OK s0 = Some (tt, s1)
             /\ (copied bs f cbs s1 \/ exists n, copying bs f cbs 0 n s1)).
  { destruct (copy_next_chunk bs f cbs 0 s0 0)
      as (s1 & Hrun & [[Hdone _]|(n & Hnext & _)]).
    - subst s0. cbn. exact Ht.
    - subst s0. cbn. exact Hf.
    - reflexivity.
    - subst s0. cbn. unfold disk_update.
      destruct f as [[|key] tgt rw]; cbn; [reflexivity|].
      rewrite String.eqb_refl. reflexivity.
    - lia.
    - reflexivity.
    - exists s1. split; [exact Hrun|]. left; exact Hdone.
    - exists s1. split; [exact Hrun|]. right; exists n; exact Hnext. }
  destruct Hopen as (s1 & Hrun & [Hdone|(n & Hnext)]); rewrite Hrun.
  - exists s1. split; [|exact Hdone].
    apply (copy_loop_done _ _ _ bs f cbs); exact Hdone.
  - apply (copy_loop_completes w bs f cbs Hw Hlen _ 0%nat 0%nat n s1 Hnext). lia.
Qed.

(** A successful rename puts the bytes of the scratch file under the cache
    key. *)
Lemma rename_commits bs f cbs s :
  copied bs f cbs s ->
  exists s',
    fire CbNexeFileWasRenamed PP.OK None s = Some (tt, s')
    /\ disk_ s' (KeyName (GetCacheKey (pnacl_options_ s))) = Some bs.
Proof.
  intros (Hf & Hc & Hd & _).
  rewrite (fire_head _ _ _ _ _ Hc).
  unfold host_complete. cbn [cached_nexe_file_ set_callback_factory_].
  rewrite Hf. cbn [ltf_rename_target ltf_filename Z.eqb PP.OK].
  cbn [dispatch].
  unfold NexeFileWasRenamed, cached_nexe_file_FinishRename,
    cached_nexe_file_OpenRead, NewCallback, call, deref, bind, gets, modify,
    ret.
  cbn. rewrite Hf. cbn. eexists. split; [reflexivity|].
  cbn. unfold disk_update. cbn. rewrite String.eqb_refl. exact Hd.
Qed.

(** C2, amended: a write completion that reports a positive number of bytes
    smaller than the number requested makes the coordinator seek the read
    side back by the unwritten remainder and issue the next write, of the
    bytes that follow the written ones, at the end of what has been written;
    and when every write completion reports at least one byte, the copy
    ends with the rename, and after the rename the file under the cache key
    holds exactly the bytes of the translated file. *)
Theorem C2_short_write_recovery :
  forall s bs f cbs (w : nat -> Z -> Z),
    temp_nexe_file_ s = Some (mkTempFile (Some (mkDescWrapper bs 0))) ->
    cached_nexe_file_ s = Some f ->
    callback_factory_ s = CbCachedNexeOpenedForWrite :: cbs ->
    Z.of_nat (List.length bs) < 2 ^ 63 ->
    (forall i n, 0 < n -> 0 < w i n <= n) ->
    (forall s1 off n k,
        copying bs f cbs off n s1 ->
        0 < k < Z.of_nat n ->
        exists s2 n',
          fire (CbDidCopyNexeToCachePartial (Z.of_nat n) (Z.of_nat off)) k
            None s1 = Some (tt, s2)
          /\ copying bs f cbs (off + Z.to_nat k) n' s2
          /\ trace_ s2
             = CacheWrite (ltf_filename f) (Z.of_nat off + k)
                 (firstn n' (skipn (off + Z.to_nat k) bs))
                 :: TempFileRead (Z.of_nat n')
                 :: TempFileSeekCur (k - Z.of_nat n) :: trace_ s1)
    /\ exists s' s'',
         copy_to_cache (List.length bs) w s = Some (tt, s')
         /\ copied bs f cbs s'
         /\ fire CbNexeFileWasRenamed PP.OK None s' = Some (tt, s'')
         /\ disk_ s'' (KeyName (GetCacheKey (pnacl_options_ s'))) = Some bs.
Proof.
  intros s bs f cbs w Ht Hf Hc Hlen Hw. split.
  - intros s1 off n k Hcopying Hk.
    exact (short_write_seeks_back bs f cbs off n s1 k Hcopying Hlen Hk).
  - destruct (copy_to_cache_completes w bs f cbs s Ht Hf Hc Hlen Hw)
      as (s' & Hrun & Hdone).
    destruct (rename_commits bs f cbs s' Hdone) as (s'' & Hfire & Hdisk).
    exists s', s''. split; [exact Hrun|]. split; [exact Hdone|].
    split; [exact Hfire|exact Hdisk].
Qed.

(** ** Progress events *)

(** Modelled from the spec: [ShouldDelayProgressEvent] (pnacl_coordinator.h,
    not among the sources) holds a progress event back whenever the bytes
    compiled have reached the expected total: the report of the last bytes
    is deferred until the worker has finished. *)
Hypothesis delay_at_end :
  forall expected compiled,
    0 <= expected -> expected <= compiled ->
    ShouldDelayProgressEvent expected compiled = true.

Lemma progress_events_cons a t :
  progress_events (a :: t) = (progress_events t ++ progress_of a)%list.
Proof.
  unfold progress_events. cbn [rev]. rewrite flat_map_app. cbn.
  rewrite app_nil_r. reflexivity.
Qed.

Lemma StronglySorted_snoc (l : list Z) (x : Z) :
  StronglySorted Z.le l -> Forall (fun y => y <= x) l ->
  StronglySorted Z.le (l ++ [x]).
Proof.
  induction l as [|y l IH]; intros Hs Hf; cbn.
  - constructor; constructor.
  - inversion Hs; subst. inversion Hf; subst. constructor.
    + apply IH; assumption.
    + apply Forall_app. split; [assumption|]. constructor; [assumption|constructor].
Qed.

Lemma progress_inv_quiet s s' :
  progress_inv s ->
  pexe_bytes_compiled_ s <= pexe_bytes_compiled_ s' ->
  trace_ s' = trace_ s ->
  progress_inv s'.
Proof.
  unfold progress_inv. intros (Hs & Hb & Ht) Hle Htr. rewrite Htr.
  split; [exact Hs|]. split; [|exact Ht].
  eapply Forall_impl; [|exact Hb]. cbn. intros p Hp. lia.
Qed.

Lemma progress_inv_report s s' url c total :
  progress_inv s ->
  pexe_bytes_compiled_ s <= pexe_bytes_compiled_ s' ->
  trace_ s'
  = EnqueueProgressEvent url c (pexe_bytes_compiled_ s') total :: trace_ s ->
  (c = true -> pexe_bytes_compiled_ s' <= total) ->
  progress_inv s'.
Proof.
  unfold progress_inv. intros (Hs & Hb & Ht) Hle Htr Hc.
  rewrite Htr, progress_events_cons. cbn [progress_of].
  assert (Hb' : Forall (fun p => bytesCompiled p <= pexe_bytes_compiled_ s')
                  (progress_events (trace_ s))).
  { eapply Forall_impl; [|exact Hb]. cbn. intros p Hp. lia. }
  split; [|split].
  - rewrite map_app. cbn. apply StronglySorted_snoc; [exact Hs|].
    apply Forall_map. exact Hb'.
  - apply Forall_app. split; [exact Hb'|]. constructor; [cbn; lia|constructor].
  - apply Forall_app. split; [exact Ht|]. constructor; [exact Hc|constructor].
Qed.

Lemma BitcodeGotCompiled_progress s d e n :
  streaming_downloader_ s = Some d ->
  -1 <= dl_total_bytes d ->
  -1 <= expected_pexe_size_ s ->
  progress_inv s ->
  0 <= n ->
  - 2 ^ 63 <= pexe_bytes_compiled_ s ->
  pexe_bytes_compiled_ s + n < 2 ^ 63 ->
  exists s',
    BitcodeGotCompiled e n s = Some (tt, s')
    /\ streaming_downloader_ s' = Some d
    /\ -1 <= expected_pexe_size_ s'
    /\ progress_inv s'
    /\ pexe_bytes_compiled_ s' = pexe_bytes_compiled_ s + n.
Proof.
  intros Hd Hd1 Hexp Hinv Hn Hlo Hhi.
  unfold BitcodeGotCompiled, ExpectedProgressKnown, call, deref, bind, gets,
    modify, ret.
  cbn. unfold add64. rewrite wrap64_id by lia.
  destruct (expected_pexe_size_ s =? -1) eqn:Eknown; cbn.
  - rewrite Hd. cbn.
    destruct (dl_total_bytes d =? -1) eqn:Etotal; cbn.
    + eexists. split; [reflexivity|]. cbn.
      split; [exact Hd|]. split; [assumption|].
      split; [|reflexivity].
      eapply progress_inv_report with (s := s); [exact Hinv|cbn; lia|cbn; reflexivity|].
      discriminate.
    + apply Z.eqb_neq in Etotal.
      destruct (ShouldDelayProgressEvent (dl_total_bytes d)
                  (pexe_bytes_compiled_ s + n)) eqn:Edelay; cbn.
      * eexists. split; [reflexivity|]. cbn.
        split; [exact Hd|]. split; [assumption|].
        split; [|reflexivity].
        eapply progress_inv_quiet with (s := s); [exact Hinv|cbn; lia|reflexivity].
      * eexists. split; [reflexivity|]. cbn.
        split; [exact Hd|]. split; [assumption|].
        split; [|reflexivity].
        eapply progress_inv_report with (s := s); [exact Hinv|cbn; lia|cbn; reflexivity|].
        intros _. cbn.
        destruct (Z_le_gt_dec (dl_total_bytes d) (pexe_bytes_compiled_ s + n))
          as [Hle|Hgt]; [|lia].
        rewrite delay_at_end in Edelay by lia. discriminate.
  - rewrite ?Eknown. cbn. apply Z.eqb_neq in Eknown.
    destruct (ShouldDelayProgressEvent (expected_pexe_size_ s)
                (pexe_bytes_compiled_ s + n)) eqn:Edelay; cbn.
    + eexists. split; [reflexivity|]. cbn.
      split; [exact Hd|]. split; [assumption|].
      split; [|reflexivity].
      eapply progress_inv_quiet with (s := s); [exact Hinv|cbn; lia|reflexivity].
    + eexists. split; [reflexivity|]. cbn.
      split; [exact Hd|]. split; [assumption|].
      split; [|reflexivity].
      eapply progress_inv_report with (s := s); [exact Hinv|cbn; lia|cbn; reflexivity|].
      intros _. cbn.
      destruct (Z_le_gt_dec (expected_pexe_size_ s) (pexe_bytes_compiled_ s + n))
        as [Hle|Hgt]; [|lia].
      rewrite delay_at_end in Edelay by lia. discriminate.
Qed.

Lemma compile_progress_inv calls :
  forall s d,
    streaming_downloader_ s = Some d ->
    -1 <= dl_total_bytes d ->
    -1 <= expected_pexe_size_ s ->
    progress_inv s ->
    Forall (fun c => 0 <= snd c) calls ->
    - 2 ^ 63 <= pexe_bytes_compiled_ s ->
    pexe_bytes_compiled_ s + sum_increments calls < 2 ^ 63 ->
    exists s', compile_progress calls s = Some (tt, s') /\ progress_inv s'.
Proof.
  induction calls as [|[e n] rest IH]; intros s d Hd Hd1 Hexp Hinv Hpos Hlo Hhi.
  - exists s. split; [reflexivity|exact Hinv].
  - inversion Hpos as [|c l Hn Hrest]; subst. cbn in Hn.
    change (sum_increments ((e, n) :: rest))
      with (n + sum_increments rest) in Hhi.
    assert (Hsum : 0 <= sum_increments rest).
    { clear -Hrest. unfold sum_increments.
      induction Hrest as [|c l Hc _ IHl]; cbn; lia. }
    destruct (BitcodeGotCompiled_progress s d e n Hd Hd1 Hexp Hinv Hn Hlo)
      as (s1 & Hrun & Hd' & Hexp' & Hinv' & Hc); [lia|].
    destruct (IH s1 d Hd' Hd1 Hexp' Hinv' Hrest) as (s' & Hrun' & Hinv'');
      [lia|lia|].
    exists s'. split; [|exact Hinv''].
    cbn [compile_progress]. unfold bind. rewrite Hrun. exact Hrun'.
Qed.

(** C8: for every sequence of compile-progress callbacks with non-negative
    byte increments (whose sum stays in the range of the 64-bit counter),
    started before any progress has been reported, every callback returns,
    the bytes compiled reported by the progress events never go down from
    one event to the next, and no event with a computable length reports
    more bytes compiled than the total. *)
Theorem C8_progress_monotone_and_bounded :
  forall s d calls,
    streaming_downloader_ s = Some d ->
    -1 <= dl_total_bytes d ->
    -1 <= expected_pexe_size_ s ->
    progress_events (trace_ s) = [] ->
    Forall (fun c => 0 <= snd c) calls ->
    0 <= pexe_bytes_compiled_ s ->
    pexe_bytes_compiled_ s + sum_increments calls < 2 ^ 63 ->
    exists s',
      compile_progress calls s = Some (tt, s')
      /\ StronglySorted Z.le
           (map bytesCompiled (progress_events (trace_ s')))
      /\ Forall (fun p => computable p = true ->
                          bytesCompiled p <= bytesTotal p)
           (progress_events (trace_ s')).
Proof.
  intros s d calls Hd Hd1 Hexp Hnone Hpos Hlo Hhi.
  assert (Hinv : progress_inv s).
  { unfold progress_inv. rewrite Hnone. cbn.
    repeat split; constructor. }
  destruct (compile_progress_inv calls s d Hd Hd1 Hexp Hinv Hpos)
    as (s' & Hrun & (Hs & _ & Hb)); [lia|exact Hhi|].
  exists s'. repeat split; assumption.
Qed.

(** ** The final progress event *)

Ltac final_leaf :=
  idtac;
  match goal with
  | H : no_final_progress _ |- no_final_progress _ =>
      let Hf := fresh "Hf" in
      let He := fresh "He" in
      let Hh := fresh "Hh" in
      let Hd := fresh "Hd" in
      destruct H as (Hf & He & Hh & Hd);
      unfold no_final_progress, totals_ok; cbn;
      rewrite ?progress_events_cons; cbn [progress_of];
      rewrite ?app_nil_r;
      repeat split; try assumption;
      try (let d0 := fresh "d" in
           let H0 := fresh "H" in
           intros d0 H0; inversion H0; subst; assumption)
  end.

Lemma ExitWithError_no_final : preserves no_final_progress ExitWithError.
Proof. unfold ExitWithError. unfold_prims. preserves_tac final_leaf. Qed.

#[local] Hint Resolve ExitWithError_no_final : pres.

Lemma ReportNonPpapiError_no_final c m :
  preserves no_final_progress (ReportNonPpapiError c m).
Proof. unfold ReportNonPpapiError. preserves_tac final_leaf. Qed.

Lemma ReportPpapiError_no_final c e m :
  preserves no_final_progress (ReportPpapiError c e m).
Proof. unfold ReportPpapiError. preserves_tac final_leaf. Qed.

#[local] Hint Resolve ReportNonPpapiError_no_final
  ReportPpapiError_no_final : pres.

Lemma NexeReadDidOpen_no_final e :
  preserves no_final_progress (NexeReadDidOpen e).
Proof. unfold NexeReadDidOpen. preserves_tac final_leaf. Qed.

#[local] Hint Resolve NexeReadDidOpen_no_final : pres.

Lemma negb_eqb_true_neq (a b : Z) : negb (a =? b) = true -> a <> b.
Proof.
  intros H. apply Z.eqb_neq. destruct (a =? b); [discriminate|reflexivity].
Qed.

#[local] Hint Resolve negb_eqb_true_neq : pres.

(** Without the confirmation of the worker, [TranslateFinished] goes to the
    error exit. *)
Lemma TranslateFinished_error_no_final e :
  e <> PP.OK -> preserves no_final_progress (TranslateFinished e).
Proof.
  intros He. unfold TranslateFinished.
  apply preserves_bind; [auto with pres|intro finish_error].
  destruct (negb (finish_error =? PP.OK)); [auto with pres|].
  replace (negb (e =? PP.OK)) with true; [auto with pres|].
  symmetry. apply Z.eqb_neq in He. rewrite He. reflexivity.
Qed.

#[local] Hint Resolve TranslateFinished_error_no_final : pres.

Lemma BitcodeGotCompiled_no_final e n :
  preserves no_final_progress (BitcodeGotCompiled e n).
Proof.
  intros s a s' (Hf & He & Hh & Hd) Hrun.
  unfold BitcodeGotCompiled, ExpectedProgressKnown, call, deref, bind, gets,
    modify, ret in Hrun.
  cbn in Hrun.
  assert (Hnew : forall c expected url,
             0 <= expected ->
             ShouldDelayProgressEvent expected c = false ->
             Forall (fun p => is_final_progress p = false)
               (progress_events
                  (EnqueueProgressEvent url true c expected :: trace_ s))).
  { intros c expected url H0 Hdelay. rewrite progress_events_cons.
    apply Forall_app. split; [exact Hf|]. constructor; [|constructor].
    unfold is_final_progress. cbn. apply Z.eqb_neq. intros Heq.
    rewrite delay_at_end in Hdelay by lia. discriminate. }
  assert (Hunk : forall c expected url,
             Forall (fun p => is_final_progress p = false)
               (progress_events
                  (EnqueueProgressEvent url false c expected :: trace_ s))).
  { intros c expected url. rewrite progress_events_cons.
    apply Forall_app. split; [exact Hf|]. constructor; [|constructor].
    reflexivity. }
  destruct (expected_pexe_size_ s =? -1) eqn:Eknown; cbn in Hrun.
  - destruct (streaming_downloader_ s) as [d|] eqn:Edl; [|discriminate].
    pose proof (Hd d eq_refl) as Hd1. cbn in Hrun.
    destruct (dl_total_bytes d =? -1) eqn:Etotal; cbn in Hrun.
    + inversion Hrun; subst. unfold no_final_progress, totals_ok. cbn.
      split; [apply Hunk|].
      repeat split; try assumption; rewrite Edl; exact Hd.
    + apply Z.eqb_neq in Etotal.
      destruct (ShouldDelayProgressEvent _ _) eqn:Edelay; cbn in Hrun;
        inversion Hrun; subst; unfold no_final_progress, totals_ok; cbn.
      * split; [exact Hf|].
        repeat split; try assumption; rewrite Edl; exact Hd.
      * split; [apply Hnew; [lia|exact Edelay]|].
        repeat split; try assumption; rewrite Edl; exact Hd.
  - rewrite ?Eknown in Hrun. cbn in Hrun. apply Z.eqb_neq in Eknown.
    destruct (ShouldDelayProgressEvent _ _) eqn:Edelay; cbn in Hrun;
      inversion Hrun; subst; unfold no_final_progress, totals_ok; cbn.
    + split; [exact Hf|]. repeat split; assumption.
    + split; [apply Hnew; [lia|exact Edelay]|]. repeat split; assumption.
Qed.

#[local] Hint Resolve BitcodeGotCompiled_no_final : pres.

Lemma NexeWasCopiedToCache_no_final e :
  preserves no_final_progress (NexeWasCopiedToCache e).
Proof.
  unfold NexeWasCopiedToCache. unfold_prims. preserves_tac final_leaf.
Qed.

#[local] Hint Resolve NexeWasCopiedToCache_no_final : pres.

Lemma CachedNexeOpenedForWrite_no_final e :
  preserves no_final_progress (CachedNexeOpenedForWrite e).
Proof.
  unfold CachedNexeOpenedForWrite. unfold_prims. preserves_tac final_leaf.
Qed.

#[local] Hint Resolve CachedNexeOpenedForWrite_no_final : pres.

Lemma DidCopyNexeToCachePartial_no_final e n o :
  preserves no_final_progress (DidCopyNexeToCachePartial e n o).
Proof.
  unfold DidCopyNexeToCachePartial. unfold_prims. preserves_tac final_leaf.
Qed.

#[local] Hint Resolve DidCopyNexeToCachePartial_no_final : pres.

Lemma CorruptCacheFileWasDeleted_no_final d e :
  preserves no_final_progress (CorruptCacheFileWasDeleted d e).
Proof.
  unfold CorruptCacheFileWasDeleted. preserves_tac final_leaf.
Qed.

#[local] Hint Resolve CorruptCacheFileWasDeleted_no_final : pres.

Lemma NexeFileWasRenamed_no_final e :
  preserves no_final_progress (NexeFileWasRenamed e).
Proof.
  unfold NexeFileWasRenamed. unfold_prims. preserves_tac final_leaf.
Qed.

#[local] Hint Resolve NexeFileWasRenamed_no_final : pres.

Lemma ResourceInfoWasRead_no_final e :
  preserves no_final_progress (ResourceInfoWasRead e).
Proof.
  unfold ResourceInfoWasRead. preserves_tac final_leaf.
Qed.

#[local] Hint Resolve ResourceInfoWasRead_no_final : pres.

Lemma OpenBitcodeStream_no_final :
  preserves no_final_progress OpenBitcodeStream.
Proof.
  intros s a s' Hs Hrun.
  unfold OpenBitcodeStream, ReportNonPpapiError, ExitWithError,
    callback_factory_CancelAll, NewCallback, call, bind, gets, modify, ret
    in Hrun.
  cbn in Hrun.
  repeat match type of Hrun with
         | context [if ?b then _ else _] => destruct b eqn:?; cbn in Hrun
         end;
    inversion Hrun; subst; final_leaf.
Qed.

#[local] Hint Resolve OpenBitcodeStream_no_final : pres.

Lemma ResourcesDidLoad_no_final e :
  preserves no_final_progress (ResourcesDidLoad e).
Proof.
  unfold ResourcesDidLoad. preserves_tac final_leaf.
Qed.

#[local] Hint Resolve ResourcesDidLoad_no_final : pres.

Lemma FileSystemDidOpen_no_final e :
  preserves no_final_progress (FileSystemDidOpen e).
Proof.
  unfold FileSystemDidOpen. preserves_tac final_leaf.
Qed.

#[local] Hint Resolve FileSystemDidOpen_no_final : pres.

Lemma DirectoryWasCreated_no_final e :
  preserves no_final_progress (DirectoryWasCreated e).
Proof.
  unfold DirectoryWasCreated. preserves_tac final_leaf.
Qed.

#[local] Hint Resolve DirectoryWasCreated_no_final : pres.

Lemma BitcodeStreamDidFinish_no_final e :
  preserves no_final_progress (BitcodeStreamDidFinish e).
Proof.
  unfold BitcodeStreamDidFinish. preserves_tac final_leaf.
Qed.

#[local] Hint Resolve BitcodeStreamDidFinish_no_final : pres.

Lemma CachedFileDidOpen_no_final e :
  preserves no_final_progress (CachedFileDidOpen e).
Proof.
  unfold CachedFileDidOpen. preserves_tac final_leaf.
Qed.

#[local] Hint Resolve CachedFileDidOpen_no_final : pres.

Lemma BitcodeStreamDidOpen_no_final e :
  preserves no_final_progress (BitcodeStreamDidOpen e).
Proof.
  unfold BitcodeStreamDidOpen. unfold_prims. preserves_tac final_leaf.
Qed.

#[local] Hint Resolve BitcodeStreamDidOpen_no_final : pres.

Lemma NexeFdDidOpen_no_final e :
  preserves no_final_progress (NexeFdDidOpen e).
Proof.
  unfold NexeFdDidOpen. preserves_tac final_leaf.
Qed.

#[local] Hint Resolve NexeFdDidOpen_no_final : pres.

Lemma BitcodeStreamGotData_no_final e d :
  preserves no_final_progress (BitcodeStreamGotData e d).
Proof.
  unfold BitcodeStreamGotData. preserves_tac final_leaf.
Qed.

#[local] Hint Resolve BitcodeStreamGotData_no_final : pres.

Lemma ObjectFileDidOpen_no_final e :
  preserves no_final_progress (ObjectFileDidOpen e).
Proof.
  unfold ObjectFileDidOpen. preserves_tac final_leaf.
Qed.

#[local] Hint Resolve ObjectFileDidOpen_no_final : pres.

Lemma RunTranslate_no_final e :
  preserves no_final_progress (RunTranslate e).
Proof.
  unfold RunTranslate. preserves_tac final_leaf.
Qed.

#[local] Hint Resolve RunTranslate_no_final : pres.

Lemma host_complete_no_final cb e s :
  no_final_progress s -> no_final_progress (host_complete cb e s).
Proof.
  unfold no_final_progress, totals_ok.
  destruct (host_complete_frame cb e s)
    as (Ht & _ & Hh & _ & _ & Hd & He & _).
  rewrite Ht, Hh, Hd, He. tauto.
Qed.

Lemma dispatch_no_final cb e d :
  (cb = CbTranslateFinished -> e <> PP.OK) ->
  preserves no_final_progress (dispatch cb e d).
Proof.
  intros Hcb. destruct cb; cbn; auto with pres.
Qed.

Lemma fire_no_final cb e d :
  (cb = CbTranslateFinished -> e <> PP.OK) ->
  preserves no_final_progress (fire cb e d).
Proof.
  intros Hcb. unfold fire.
  apply preserves_bind; [auto with pres | intro registered].
  destruct (in_dec Callback_eq_dec cb registered); [|auto with pres].
  apply preserves_bind; [apply preserves_modify; intros s Hs; exact Hs|intro].
  apply preserves_bind;
    [apply preserves_modify; intros s Hs; apply host_complete_no_final;
     exact Hs|intro].
  apply dispatch_no_final; exact Hcb.
Qed.

Lemma deliver_no_final ev :
  ev <> Fire CbTranslateFinished PP.OK ->
  event_total_ok ev ->
  preserves no_final_progress (deliver ev).
Proof.
  intros Hev Hok. destruct ev; cbn [deliver]; unfold_prims; auto with pres.
  - apply fire_no_final. intros -> ->. apply Hev. reflexivity.
  - apply fire_no_final. discriminate.
  - preserves_tac final_leaf.
  - preserves_tac final_leaf.
  - apply preserves_modify. intros s (Hf & He & Hh & Hd).
    unfold no_final_progress, totals_ok.
    destruct (streaming_downloader_ s) as [d|] eqn:Edl; cbn;
      repeat split; try assumption.
    + intros d0 H0. inversion H0; subst. cbn. exact Hok.
    + rewrite Edl. exact Hd.
  - apply preserves_modify. intros s Hs.
    destruct (temp_nexe_file_ s) as [[[d|]]|]; exact Hs.
Qed.

Lemma run_no_final events :
  ~ In (Fire CbTranslateFinished PP.OK) events ->
  Forall event_total_ok events ->
  preserves no_final_progress (run events).
Proof.
  induction events as [|ev rest IH]; intros Hnot Hok; cbn [run].
  - apply preserves_ret.
  - inversion Hok; subst. apply preserves_bind.
    + apply deliver_no_final; [|assumption].
      intros ->. apply Hnot. left. reflexivity.
    + intros _. apply IH; [|assumption].
      intros Hin. apply Hnot. right. exact Hin.
Qed.

Lemma BitcodeGotCompiled_withheld e n s s' :
  BitcodeGotCompiled e n s = Some (tt, s') ->
  ExpectedProgressKnown s' = true ->
  ShouldDelayProgressEvent (expected_pexe_size_ s') (pexe_bytes_compiled_ s')
  = true ->
  trace_ s' = trace_ s.
Proof.
  unfold BitcodeGotCompiled, ExpectedProgressKnown, call, deref, bind, gets,
    modify, ret.
  cbn. intros Hrun.
  destruct (expected_pexe_size_ s =? -1) eqn:Eknown; cbn in Hrun.
  - destruct (streaming_downloader_ s) as [d|]; [|discriminate]. cbn in Hrun.
    destruct (dl_total_bytes d =? -1) eqn:Etotal; cbn in Hrun.
    + inversion Hrun; subst. cbn. rewrite Etotal. discriminate.
    + destruct (ShouldDelayProgressEvent _ _) eqn:Edelay; cbn in Hrun;
        inversion Hrun; subst; cbn; [reflexivity|].
      intros _ Hd. rewrite Hd in Edelay. discriminate.
  - rewrite ?Eknown in Hrun. cbn in Hrun.
    destruct (ShouldDelayProgressEvent _ _) eqn:Edelay; cbn in Hrun;
      inversion Hrun; subst; cbn; [reflexivity|].
    intros _ Hd. rewrite Hd in Edelay. discriminate.
Qed.

Lemma progress_events_quiet a t :
  progress_of a = [] -> progress_events (a :: t) = progress_events t.
Proof.
  intros H. rewrite progress_events_cons, H. apply app_nil_r.
Qed.

(** [TranslateFinished(PP_OK)] with no earlier error sends the final
    progress event when the total is known. *)
Lemma TranslateFinished_ok_final s th d :
  translate_finish_error_ s = PP.OK ->
  translate_thread_ s = Some th ->
  temp_nexe_file_ s = Some (mkTempFile (Some d)) ->
  ExpectedProgressKnown s = true ->
  exists s',
    TranslateFinished PP.OK s = Some (tt, s')
    /\ progress_events (trace_ s')
       = (progress_events (trace_ s)
            ++ [mkProgress true (expected_pexe_size_ s)
                  (expected_pexe_size_ s)])%list.
Proof.
  intros Hfe Hth Htf Hknown.
  unfold TranslateFinished, NexeReadDidOpen, temp_nexe_file_Reset,
    temp_nexe_read_wrapper, set_temp_nexe_read_wrapper,
    cached_nexe_file_OpenWrite, NewCallback, call, deref, bind, gets,
    modify, ret.
  rewrite Hfe. cbn.
  repeat (first [rewrite Hknown | rewrite Hth | rewrite Htf]; cbn).
  destruct (use_new_cache_ s); cbn.
  - destruct (cached_nexe_file_ s); cbn;
      (eexists; split; [reflexivity|]); cbn;
      rewrite !progress_events_quiet by reflexivity;
      apply progress_events_cons.
  - destruct (HasCacheKey (pnacl_options_ s) && is_some (cached_nexe_file_ s));
      cbn.
    + eexists; split; [reflexivity|]. cbn.
      rewrite !progress_events_quiet by reflexivity.
      apply progress_events_cons.
    + destruct (cached_nexe_file_ s); cbn;
      (eexists; split; [reflexivity|]); cbn;
      rewrite !progress_events_quiet by reflexivity;
      apply progress_events_cons.
Qed.

Lemma BitcodeToNative_no_final h url opts :
  -1 <= dl_total_bytes (host_downloader h) ->
  no_final_progress (BitcodeToNative h url opts).
Proof.
  intros Hh. unfold no_final_progress, totals_ok. cbn.
  split; [|split; [lia|split; [exact Hh|discriminate]]].
  unfold progress_events. cbn. constructor.
Qed.

(** C7: as long as the worker's [TranslateFinished] callback has not fired
    with [PP_OK], no progress event of a run reports the bytes compiled
    equal to a known total; a compile-progress callback that finds the total
    known and the delay test true sends no event at all; and
    [TranslateFinished(PP_OK)] with no earlier error and a known total sends
    the event that reports the total as compiled. *)
Theorem C7_final_progress_waits_for_TranslateFinished :
  forall h url opts events s,
    -1 <= dl_total_bytes (host_downloader h) ->
    Forall event_total_ok events ->
    ~ In (Fire CbTranslateFinished PP.OK) events ->
    run events (BitcodeToNative h url opts) = Some (tt, s) ->
    Forall (fun p => is_final_progress p = false)
      (progress_events (trace_ s))
    /\ (forall e n s',
          BitcodeGotCompiled e n s = Some (tt, s') ->
          ExpectedProgressKnown s' = true ->
          ShouldDelayProgressEvent (expected_pexe_size_ s')
            (pexe_bytes_compiled_ s') = true ->
          trace_ s' = trace_ s)
    /\ (forall th d,
          translate_finish_error_ s = PP.OK ->
          translate_thread_ s = Some th ->
          temp_nexe_file_ s = Some (mkTempFile (Some d)) ->
          ExpectedProgressKnown s = true ->
          exists s',
            TranslateFinished PP.OK s = Some (tt, s')
            /\ progress_events (trace_ s')
               = (progress_events (trace_ s)
                    ++ [mkProgress true (expected_pexe_size_ s)
                          (expected_pexe_size_ s)])%list).
Proof.
  intros h url opts events s Hh Hok Hnot Hrun. split; [|split].
  - eapply (run_no_final events Hnot Hok); [|exact Hrun].
    apply BitcodeToNative_no_final. exact Hh.
  - intros e n s'. apply BitcodeGotCompiled_withheld.
  - intros th d. apply TranslateFinished_ok_final.
Qed.

(** ** Requests with caching disabled *)

Ltac uncached_leaf :=
  idtac;
  match goal with
  | H : uncached_inv _ |- uncached_inv _ =>
      let H1 := fresh "H" in
      let H2 := fresh "H" in
      let H3 := fresh "H" in
      let H4 := fresh "H" in
      let H5 := fresh "H" in
      destruct H as (H1 & H2 & H3 & H4 & H5);
      unfold uncached_inv; cbn;
      repeat split; try assumption;
      try (constructor; [reflexivity|assumption]);
      try (let d0 := fresh "d" in
           let Hx := fresh "H" in
           intros d0 Hx; discriminate Hx)
  end.

(** Without a cache file, an operation on it stops the process. *)
Lemma no_cache_file_crash {A : Type} (k : LocalTempFile -> M A) :
  preserves uncached_inv (f <- deref cached_nexe_file_ ;; k f).
Proof.
  intros s a s' (_ & _ & _ & Hc & _) Hrun.
  unfold bind, deref in Hrun. rewrite Hc in Hrun. discriminate.
Qed.

Lemma cached_nexe_file_OpenRead_uncached :
  preserves uncached_inv cached_nexe_file_OpenRead.
Proof. apply no_cache_file_crash. Qed.

Lemma cached_nexe_file_OpenWrite_uncached :
  preserves uncached_inv cached_nexe_file_OpenWrite.
Proof. apply no_cache_file_crash. Qed.

Lemma cached_nexe_file_Delete_uncached :
  preserves uncached_inv cached_nexe_file_Delete.
Proof. apply no_cache_file_crash. Qed.

Lemma cached_nexe_file_Rename_uncached k :
  preserves uncached_inv (cached_nexe_file_Rename k).
Proof. apply no_cache_file_crash. Qed.

Lemma cached_nexe_file_FinishRename_uncached :
  preserves uncached_inv cached_nexe_file_FinishRename.
Proof. apply no_cache_file_crash. Qed.

Lemma write_file_io_Write_uncached o b :
  preserves uncached_inv (write_file_io_Write o b).
Proof. apply no_cache_file_crash. Qed.

#[local] Hint Resolve cached_nexe_file_OpenRead_uncached
  cached_nexe_file_OpenWrite_uncached cached_nexe_file_Delete_uncached
  cached_nexe_file_Rename_uncached cached_nexe_file_FinishRename_uncached
  write_file_io_Write_uncached : pres.

Ltac unfold_temp_prims :=
  unfold read_wrapper_Read, read_wrapper_Seek, temp_nexe_file_Reset,
    temp_nexe_read_wrapper, set_temp_nexe_read_wrapper,
    callback_factory_CancelAll, GetCallback, GetCompileProgressCallback.

Lemma ExitWithError_uncached : preserves uncached_inv ExitWithError.
Proof. unfold ExitWithError. unfold_temp_prims. preserves_tac uncached_leaf. Qed.

#[local] Hint Resolve ExitWithError_uncached : pres.

Lemma ReportNonPpapiError_uncached c m :
  preserves uncached_inv (ReportNonPpapiError c m).
Proof. unfold ReportNonPpapiError. preserves_tac uncached_leaf. Qed.

Lemma ReportPpapiError_uncached c e m :
  preserves uncached_inv (ReportPpapiError c e m).
Proof. unfold ReportPpapiError. preserves_tac uncached_leaf. Qed.

#[local] Hint Resolve ReportNonPpapiError_uncached
  ReportPpapiError_uncached : pres.

(** Symbolic execution of a method on a coordinator without cache file. *)
Ltac uncached_exec Hs Hrun :=
  let H1 := fresh "H" in
  let H2 := fresh "H" in
  let H3 := fresh "H" in
  let H4 := fresh "H" in
  let H5 := fresh "H" in
  destruct Hs as (H1 & H2 & H3 & H4 & H5);
  cbn in Hrun; rewrite ?H4 in Hrun; cbn in Hrun;
  repeat match type of Hrun with
         | context [if ?b then _ else _] =>
             lazymatch b with
             | context [if _ then _ else _] => fail
             | context [match _ with Some _ => _ | None => _ end] => fail
             | _ => destruct b eqn:?
             end;
             cbn in Hrun; rewrite ?H4 in Hrun; cbn in Hrun
         | context [match ?o with Some _ => _ | None => _ end] =>
             lazymatch o with
             | context [if _ then _ else _] => fail
             | context [match _ with Some _ => _ | None => _ end] => fail
             | _ => destruct o eqn:?
             end;
             cbn in Hrun; rewrite ?H4 in Hrun; cbn in Hrun
         end;
  try discriminate;
  try match goal with
      | E : _ && false = true |- _ =>
          rewrite andb_false_r in E; discriminate E
      end;
  inversion Hrun; subst; unfold uncached_inv; cbn;
  repeat split; try assumption;
  repeat (constructor; [reflexivity|]); try assumption.

Lemma NexeReadDidOpen_uncached e : preserves uncached_inv (NexeReadDidOpen e).
Proof.
  intros s a s' Hs Hrun.
  unfold NexeReadDidOpen, ReportPpapiError, ExitWithError,
    callback_factory_CancelAll, call, deref, bind, gets, modify, ret in Hrun.
  uncached_exec Hs Hrun.
Qed.

#[local] Hint Resolve NexeReadDidOpen_uncached : pres.

Lemma TranslateFinished_uncached e :
  preserves uncached_inv (TranslateFinished e).
Proof.
  intros s a s' Hs Hrun.
  unfold TranslateFinished, NexeReadDidOpen, ReportPpapiError, ExitWithError,
    temp_nexe_file_Reset, temp_nexe_read_wrapper, set_temp_nexe_read_wrapper,
    cached_nexe_file_OpenWrite, callback_factory_CancelAll, NewCallback,
    call, deref, bind, gets, modify, ret in Hrun.
  uncached_exec Hs Hrun.
Qed.

#[local] Hint Resolve TranslateFinished_uncached : pres.

Lemma NexeWasCopiedToCache_uncached e :
  preserves uncached_inv (NexeWasCopiedToCache e).
Proof.
  unfold NexeWasCopiedToCache. unfold_temp_prims. preserves_tac uncached_leaf.
Qed.

#[local] Hint Resolve NexeWasCopiedToCache_uncached : pres.

Lemma CachedNexeOpenedForWrite_uncached e :
  preserves uncached_inv (CachedNexeOpenedForWrite e).
Proof.
  unfold CachedNexeOpenedForWrite. unfold_temp_prims. preserves_tac uncached_leaf.
Qed.

#[local] Hint Resolve CachedNexeOpenedForWrite_uncached : pres.

Lemma DidCopyNexeToCachePartial_uncached e n o :
  preserves uncached_inv (DidCopyNexeToCachePartial e n o).
Proof.
  unfold DidCopyNexeToCachePartial. unfold_temp_prims. preserves_tac uncached_leaf.
Qed.

#[local] Hint Resolve DidCopyNexeToCachePartial_uncached : pres.

Lemma CorruptCacheFileWasDeleted_uncached d e :
  preserves uncached_inv (CorruptCacheFileWasDeleted d e).
Proof.
  unfold CorruptCacheFileWasDeleted. unfold_temp_prims. preserves_tac uncached_leaf.
Qed.

#[local] Hint Resolve CorruptCacheFileWasDeleted_uncached : pres.

Lemma NexeFileWasRenamed_uncached e :
  preserves uncached_inv (NexeFileWasRenamed e).
Proof.
  unfold NexeFileWasRenamed. unfold_temp_prims. preserves_tac uncached_leaf.
Qed.

#[local] Hint Resolve NexeFileWasRenamed_uncached : pres.

Lemma ResourceInfoWasRead_uncached e :
  preserves uncached_inv (ResourceInfoWasRead e).
Proof.
  unfold ResourceInfoWasRead. unfold_temp_prims. preserves_tac uncached_leaf.
Qed.

#[local] Hint Resolve ResourceInfoWasRead_uncached : pres.

Lemma OpenBitcodeStream_uncached :
  preserves uncached_inv OpenBitcodeStream.
Proof.
  intros s a s' Hs Hrun.
  unfold OpenBitcodeStream, ReportNonPpapiError, ExitWithError,
    callback_factory_CancelAll, NewCallback, call, bind, gets, modify, ret
    in Hrun.
  uncached_exec Hs Hrun;
    intros d Hd; inversion Hd; subst; reflexivity.
Qed.

#[local] Hint Resolve OpenBitcodeStream_uncached : pres.

Lemma ResourcesDidLoad_uncached e :
  preserves uncached_inv (ResourcesDidLoad e).
Proof.
  unfold ResourcesDidLoad. unfold_temp_prims. preserves_tac uncached_leaf.
Qed.

#[local] Hint Resolve ResourcesDidLoad_uncached : pres.

Lemma FileSystemDidOpen_uncached e :
  preserves uncached_inv (FileSystemDidOpen e).
Proof.
  unfold FileSystemDidOpen. unfold_temp_prims. preserves_tac uncached_leaf.
Qed.

#[local] Hint Resolve FileSystemDidOpen_uncached : pres.

Lemma DirectoryWasCreated_uncached e :
  preserves uncached_inv (DirectoryWasCreated e).
Proof.
  unfold DirectoryWasCreated. unfold_temp_prims. preserves_tac uncached_leaf.
Qed.

#[local] Hint Resolve DirectoryWasCreated_uncached : pres.

Lemma BitcodeStreamDidFinish_uncached e :
  preserves uncached_inv (BitcodeStreamDidFinish e).
Proof.
  unfold BitcodeStreamDidFinish. unfold_temp_prims. preserves_tac uncached_leaf.
Qed.

#[local] Hint Resolve BitcodeStreamDidFinish_uncached : pres.

Lemma CachedFileDidOpen_uncached e :
  preserves uncached_inv (CachedFileDidOpen e).
Proof.
  unfold CachedFileDidOpen. unfold_temp_prims. preserves_tac uncached_leaf.
Qed.

#[local] Hint Resolve CachedFileDidOpen_uncached : pres.

Lemma BitcodeStreamDidOpen_uncached e :
  preserves uncached_inv (BitcodeStreamDidOpen e).
Proof.
  unfold BitcodeStreamDidOpen.
  destruct (negb (e =? PP.OK)); [preserves_tac uncached_leaf|].
  intros s a s' Hs Hrun.
  pose proof Hs as (Hdis & Hotr & Hdl & Hc & Ht).
  unfold bind at 1 in Hrun. unfold gets at 1 in Hrun.
  destruct (off_the_record_ s) eqn:Eotr; cbn [negb] in Hrun;
    [exact (CachedFileDidOpen_uncached _ s a s' Hs Hrun)|].
  unfold bind at 1 in Hrun. unfold deref at 1 in Hrun.
  destruct (streaming_downloader_ s) as [d|] eqn:Ed; [|discriminate].
  cbv zeta in Hrun. rewrite (Hdl d eq_refl) in Hrun.
  unfold caching_disabled in Hdis. rewrite <- Hotr in Hdis. cbn in Hdis.
  rewrite Hdis in Hrun.
  revert Hrun. generalize s a s' Hs. fold (preserves uncached_inv
    (opts <- gets pnacl_options_ ;;
     modify (set_pnacl_options_ (set_cache_validators "" opts)) ;;
     CachedFileDidOpen PP.ERROR_FAILED)).
  preserves_tac uncached_leaf.
Qed.

#[local] Hint Resolve BitcodeStreamDidOpen_uncached : pres.

Lemma NexeFdDidOpen_uncached e :
  preserves uncached_inv (NexeFdDidOpen e).
Proof.
  unfold NexeFdDidOpen. unfold_temp_prims. preserves_tac uncached_leaf.
Qed.

#[local] Hint Resolve NexeFdDidOpen_uncached : pres.

Lemma BitcodeStreamGotData_uncached e d :
  preserves uncached_inv (BitcodeStreamGotData e d).
Proof.
  unfold BitcodeStreamGotData. unfold_temp_prims. preserves_tac uncached_leaf.
Qed.

#[local] Hint Resolve BitcodeStreamGotData_uncached : pres.

Lemma BitcodeGotCompiled_uncached e n :
  preserves uncached_inv (BitcodeGotCompiled e n).
Proof.
  unfold BitcodeGotCompiled. unfold_temp_prims. preserves_tac uncached_leaf.
Qed.

#[local] Hint Resolve BitcodeGotCompiled_uncached : pres.

Lemma ObjectFileDidOpen_uncached e :
  preserves uncached_inv (ObjectFileDidOpen e).
Proof.
  unfold ObjectFileDidOpen. unfold_temp_prims. preserves_tac uncached_leaf.
Qed.

#[local] Hint Resolve ObjectFileDidOpen_uncached : pres.

Lemma RunTranslate_uncached e :
  preserves uncached_inv (RunTranslate e).
Proof.
  unfold RunTranslate. unfold_temp_prims. preserves_tac uncached_leaf.
Qed.

#[local] Hint Resolve RunTranslate_uncached : pres.

Lemma host_complete_no_cache_file cb e s :
  cached_nexe_file_ s = None ->
  cached_nexe_file_ (host_complete cb e s) = None.
Proof.
  intros Hc. unfold host_complete. rewrite Hc.
  destruct cb; cbn;
    repeat match goal with
           | |- context [match ?x with _ => _ end] => destruct x; cbn
           end;
    exact Hc.
Qed.

Lemma host_complete_uncached cb e s :
  uncached_inv s -> uncached_inv (host_complete cb e s).
Proof.
  intros (Hdis & Hotr & Hdl & Hc & Ht). unfold uncached_inv.
  destruct (host_complete_frame cb e s)
    as (Htr & _ & Hh & Ho & _ & Hd & _).
  rewrite Htr, Hh, Ho, Hd.
  repeat split; try assumption.
  apply host_complete_no_cache_file. exact Hc.
Qed.

Lemma dispatch_uncached cb e d : preserves uncached_inv (dispatch cb e d).
Proof. destruct cb; cbn; auto with pres. Qed.

Lemma fire_uncached cb e d : preserves uncached_inv (fire cb e d).
Proof.
  unfold fire.
  apply preserves_bind; [auto with pres | intro registered].
  destruct (in_dec Callback_eq_dec cb registered); [|auto with pres].
  apply preserves_bind; [apply preserves_modify; intros s Hs; exact Hs|intro].
  apply preserves_bind;
    [apply preserves_modify; intros s Hs; apply host_complete_uncached;
     exact Hs|intro].
  apply dispatch_uncached.
Qed.

Lemma deliver_uncached ev : preserves uncached_inv (deliver ev).
Proof.
  destruct ev; cbn [deliver]; unfold_temp_prims; auto with pres.
  - apply fire_uncached.
  - apply fire_uncached.
  - preserves_tac uncached_leaf.
  - preserves_tac uncached_leaf.
  - apply preserves_modify. intros s (Hdis & Hotr & Hdl & Hc & Ht).
    unfold uncached_inv.
    destruct (streaming_downloader_ s) as [d|] eqn:Edl; cbn;
      repeat split; try assumption.
    + intros d0 H0. inversion H0; subst. cbn. apply Hdl. reflexivity.
    + rewrite Edl. exact Hdl.
  - apply preserves_modify. intros s Hs.
    destruct (temp_nexe_file_ s) as [[[d|]]|]; exact Hs.
Qed.

Lemma BitcodeToNative_uncached h url opts :
  caching_disabled h = true -> uncached_inv (BitcodeToNative h url opts).
Proof.
  intros Hdis. unfold uncached_inv. cbn.
  repeat split; try assumption; try discriminate.
  repeat constructor.
Qed.

(** ** The success path *)

(** With no cache file, a [TranslateFinished(PP_OK)] that finds no earlier
    error resets the translated file, hands its read wrapper over and runs
    the completion callback with [PP_OK], once. *)
Lemma TranslateFinished_ok_uncached s th d :
  translate_finish_error_ s = PP.OK ->
  translate_thread_ s = Some th ->
  temp_nexe_file_ s = Some (mkTempFile (Some d)) ->
  cached_nexe_file_ s = None ->
  exists s',
    TranslateFinished PP.OK s = Some (tt, s')
    /\ translated_fd_ s' = Some (mkDescWrapper (dw_contents d) 0)
    /\ trace_ s'
       = (RunTranslateNotifyCallback PP.OK
            :: (if use_new_cache_ s then [ReportTranslationFinished] else [])
            ++ TempFileReset
            :: (if ExpectedProgressKnown s then
                  [EnqueueProgressEvent (pexe_url_ s) true
                     (expected_pexe_size_ s) (expected_pexe_size_ s)]
                else [])
            ++ trace_ s)%list.
Proof.
  intros Hfe Hth Htf Hc.
  unfold TranslateFinished, NexeReadDidOpen, temp_nexe_file_Reset,
    temp_nexe_read_wrapper, set_temp_nexe_read_wrapper,
    cached_nexe_file_OpenWrite, NewCallback, call, deref, bind, gets,
    modify, ret.
  rewrite Hfe. cbn.
  destruct (ExpectedProgressKnown s); cbn;
    repeat (first [rewrite Hth | rewrite Htf | rewrite Hc]; cbn);
    destruct (use_new_cache_ s); cbn;
    repeat (first [rewrite Hth | rewrite Htf | rewrite Hc
                  | rewrite andb_false_r]; cbn);
    eexists; repeat split; reflexivity.
Qed.

Lemma notifications_cons a t :
  notifications (a :: t)
  = (match a with
     | RunTranslateNotifyCallback e => [e]
     | _ => []
     end ++ notifications t)%list.
Proof. reflexivity. Qed.

(** C6: in every run of a request with caching disabled (the profile is off
    the record, or the response says no-store, or it has no cache
    validators) the coordinator performs no cache-store operation: it neither
    opens, writes, renames or deletes a cache file nor asks the browser for a
    cache entry; and in the state reached, a [TranslateFinished(PP_OK)] with
    no earlier error hands the read wrapper of the translated file, reset to
    the start, to the caller with [PP_OK], still without any cache-store
    operation. *)
Theorem C6_caching_disabled_never_touches_cache_store :
  forall h url opts events s,
    caching_disabled h = true ->
    run events (BitcodeToNative h url opts) = Some (tt, s) ->
    Forall (fun a => is_cache_store_op a = false) (trace_ s)
    /\ (forall th d,
          translate_finish_error_ s = PP.OK ->
          translate_thread_ s = Some th ->
          temp_nexe_file_ s = Some (mkTempFile (Some d)) ->
          exists s' t,
            TranslateFinished PP.OK s = Some (tt, s')
            /\ translated_fd_ s' = Some (mkDescWrapper (dw_contents d) 0)
            /\ trace_ s' = RunTranslateNotifyCallback PP.OK :: t
            /\ Forall (fun a => is_cache_store_op a = false) (trace_ s')).
Proof.
  intros h url opts events s Hdis Hrun.
  assert (Hinv : uncached_inv s).
  { eapply (run_preserves uncached_inv deliver_uncached events); [|exact Hrun].
    apply BitcodeToNative_uncached. exact Hdis. }
  split; [apply Hinv|].
  intros th d Hfe Hth Htf.
  pose proof Hinv as (_ & _ & _ & Hc & _).
  destruct (TranslateFinished_ok_uncached s th d Hfe Hth Htf Hc)
    as (s' & Hfin & Hfd & Htr).
  exists s'. eexists. split; [exact Hfin|]. split; [exact Hfd|].
  split; [exact Htr|].
  apply (TranslateFinished_uncached PP.OK s tt s' Hinv Hfin).
Qed.

(** X26: each way onto the success path runs the completion callback once,
    with [PP_OK], and leaves the coordinator with a read wrapper positioned
    at the start of the native executable: after [TranslateFinished(PP_OK)]
    without cache file, the wrapper of the translated file, reset to
    position 0; after a cache file has been opened for reading (a cache hit,
    or the reopening that follows the rename), a fresh wrapper on the bytes
    of that file. *)
Theorem success_hands_over_handle_at_start :
  (forall s th d,
      translate_finish_error_ s = PP.OK ->
      translate_thread_ s = Some th ->
      temp_nexe_file_ s = Some (mkTempFile (Some d)) ->
      cached_nexe_file_ s = None ->
      exists s',
        TranslateFinished PP.OK s = Some (tt, s')
        /\ translated_fd_ s' = Some (mkDescWrapper (dw_contents d) 0)
        /\ notifications (trace_ s') = PP.OK :: notifications (trace_ s))
  /\ (forall s f cb cbs,
        cb = CbNexeReadDidOpen \/ cb = CbCachedFileDidOpen ->
        cached_nexe_file_ s = Some f ->
        callback_factory_ s = cb :: cbs ->
        exists s',
          fire cb PP.OK None s = Some (tt, s')
          /\ translated_fd_ s'
             = Some (mkDescWrapper
                       (file_bytes (disk_ s) (ltf_filename f)) 0)
          /\ notifications (trace_ s') = PP.OK :: notifications (trace_ s)).
Proof.
  split.
  - intros s th d Hfe Hth Htf Hc.
    destruct (TranslateFinished_ok_uncached s th d Hfe Hth Htf Hc)
      as (s' & Hfin & Hfd & Htr).
    exists s'. split; [exact Hfin|]. split; [exact Hfd|].
    rewrite Htr.
    destruct (use_new_cache_ s), (ExpectedProgressKnown s); reflexivity.
  - intros s f cb cbs Hcb Hf Hc.
    rewrite (fire_head _ _ _ _ _ Hc).
    destruct Hcb as [-> | ->]; cbn [dispatch];
      unfold host_complete; cbn [cached_nexe_file_ set_callback_factory_];
      rewrite Hf; cbn [Z.eqb PP.OK];
      unfold CachedFileDidOpen, NexeReadDidOpen, call, deref, bind, gets,
        modify, ret; cbn;
      eexists; repeat split; reflexivity.
Qed.

(** ** The open of the cache file system *)

(** With one of the three named errors the request ends in the error-exit
    path and nothing is left registered. *)
Lemma FileSystemDidOpen_named_error_stops s e :
  e = PP.ERROR_NOACCESS \/ e = PP.ERROR_NOQUOTA \/ e = PP.ERROR_NOSPACE ->
  exists s' info,
    FileSystemDidOpen e s = Some (tt, s')
    /\ trace_ s' = error_exit_trace info s
    /\ callback_factory_ s' = [].
Proof.
  intros [-> | [-> | ->]]; unfold FileSystemDidOpen;
    repeat match goal with
           | |- context [if ?b then _ else _] =>
               let v := eval vm_compute in b in
               change b with v; cbv iota
           end;
    match goal with
    | |- context [ReportPpapiError ?c ?e ?m ?s] =>
        destruct (ReportPpapiError_spec c e m s) as (s' & Hr & Ht & Hc & _)
    end;
    exists s'; eexists; repeat split; eassumption.
Qed.

(** With any other error the report is followed by the creation of the
    cache directory, whose callback is registered after the cancellation:
    the request goes on. *)
Lemma FileSystemDidOpen_other_error_goes_on s e :
  e <> PP.OK -> e <> PP.ERROR_NOACCESS -> e <> PP.ERROR_NOQUOTA ->
  e <> PP.ERROR_NOSPACE ->
  exists s',
    FileSystemDidOpen e s = Some (tt, s')
    /\ trace_ s'
       = MakeDirectory
           :: error_exit_trace
                (ppapi_report ERROR_PNACL_CACHE_OPEN_OTHER e
                   "File system for PNaCl translation cache failed to open.")
                s
    /\ callback_factory_ s' = [CbDirectoryWasCreated].
Proof.
  intros H0 H1 H2 H3. unfold FileSystemDidOpen.
  apply Z.eqb_neq in H0, H1, H2, H3. rewrite H0, H1, H2, H3. cbn [negb].
  cbv zeta.
  match goal with
  | |- context [ReportPpapiError ?c ?e ?m] =>
      destruct (ReportPpapiError_spec c e m s) as (s' & Hr & Ht & Hc & _)
  end.
  unfold bind at 1. rewrite Hr.
  unfold NewCallback, call, bind, modify. cbn.
  eexists. split; [reflexivity|]. cbn. rewrite Ht, Hc.
  split; reflexivity.
Qed.

(** ** The progress events up to the final one *)

Lemma BitcodeGotCompiled_frame e n s s' :
  BitcodeGotCompiled e n s = Some (tt, s') ->
  translate_finish_error_ s' = translate_finish_error_ s
  /\ translate_thread_ s' = translate_thread_ s
  /\ temp_nexe_file_ s' = temp_nexe_file_ s.
Proof.
  unfold BitcodeGotCompiled, ExpectedProgressKnown, call, deref, bind, gets,
    modify, ret.
  cbn. intros Hrun.
  destruct (expected_pexe_size_ s =? -1) eqn:Eknown; cbn in Hrun.
  - destruct (streaming_downloader_ s) as [d|]; [|discriminate]. cbn in Hrun.
    destruct (dl_total_bytes d =? -1); cbn in Hrun;
      [|destruct (ShouldDelayProgressEvent _ _); cbn in Hrun];
      inversion Hrun; subst; cbn; repeat split.
  - rewrite ?Eknown in Hrun. cbn in Hrun.
    destruct (ShouldDelayProgressEvent _ _); cbn in Hrun;
      inversion Hrun; subst; cbn; repeat split.
Qed.

Lemma BitcodeGotCompiled_below_total s d e n s' :
  streaming_downloader_ s = Some d ->
  -1 <= dl_total_bytes d ->
  -1 <= expected_pexe_size_ s ->
  progress_below_total d s ->
  BitcodeGotCompiled e n s = Some (tt, s') ->
  progress_below_total d s'.
Proof.
  intros Hd Hd1 Hexp Hbelow.
  unfold BitcodeGotCompiled, progress_below_total, ExpectedProgressKnown,
    call, deref, bind, gets, modify, ret in *.
  cbn. intros Hrun.
  assert (Hnew : forall c expected url,
             0 <= expected ->
             ShouldDelayProgressEvent expected c = false ->
             Forall (fun p => bytesCompiled p <= expected)
               (progress_events (trace_ s)) ->
             Forall (fun p => bytesCompiled p <= expected)
               (progress_events
                  (EnqueueProgressEvent url true c expected :: trace_ s))).
  { intros c expected url H0 Hdelay Hold. rewrite progress_events_cons.
    apply Forall_app. split; [exact Hold|]. constructor; [|constructor].
    cbn. destruct (Z_le_gt_dec expected c) as [Hle|Hgt]; [|lia].
    rewrite delay_at_end in Hdelay by lia. discriminate. }
  destruct (expected_pexe_size_ s =? -1) eqn:Eknown; cbn in Hrun, Hbelow.
  - rewrite Hd in Hrun. cbn in Hrun.
    destruct (dl_total_bytes d =? -1) eqn:Etotal; cbn in Hrun.
    + inversion Hrun; subst. cbn. rewrite Etotal. cbn.
      right. apply Z.eqb_eq. exact Etotal.
    + apply Z.eqb_neq in Etotal.
      assert (Hold : Forall (fun p => bytesCompiled p <= dl_total_bytes d)
                       (progress_events (trace_ s))).
      { destruct Hbelow as [Hnil|Hunk]; [rewrite Hnil; constructor|lia]. }
      destruct (ShouldDelayProgressEvent _ _) eqn:Edelay; cbn in Hrun;
        inversion Hrun; subst; cbn;
        replace (dl_total_bytes d =? -1) with false
          by (symmetry; apply Z.eqb_neq; exact Etotal); cbn.
      * exact Hold.
      * apply Hnew; [lia|exact Edelay|exact Hold].
  - rewrite ?Eknown in Hrun. cbn in Hrun.
    destruct (ShouldDelayProgressEvent _ _) eqn:Edelay; cbn in Hrun;
      inversion Hrun; subst; cbn; rewrite Eknown; cbn.
    + exact Hbelow.
    + apply Z.eqb_neq in Eknown. apply Hnew; [lia|exact Edelay|exact Hbelow].
Qed.

Lemma compile_progress_below_total calls :
  forall s d,
    streaming_downloader_ s = Some d ->
    -1 <= dl_total_bytes d ->
    -1 <= expected_pexe_size_ s ->
    progress_inv s ->
    progress_below_total d s ->
    Forall (fun c => 0 <= snd c) calls ->
    - 2 ^ 63 <= pexe_bytes_compiled_ s ->
    pexe_bytes_compiled_ s + sum_increments calls < 2 ^ 63 ->
    exists s',
      compile_progress calls s = Some (tt, s')
      /\ progress_inv s'
      /\ progress_below_total d s'
      /\ translate_finish_error_ s' = translate_finish_error_ s
      /\ translate_thread_ s' = translate_thread_ s
      /\ temp_nexe_file_ s' = temp_nexe_file_ s.
Proof.
  induction calls as [|[e n] rest IH];
    intros s d Hd Hd1 Hexp Hinv Hbelow Hpos Hlo Hhi.
  - exists s. split; [reflexivity|]. split; [exact Hinv|].
    split; [exact Hbelow|]. repeat split.
  - inversion Hpos as [|c l Hn Hrest]; subst. cbn in Hn.
    change (sum_increments ((e, n) :: rest))
      with (n + sum_increments rest) in Hhi.
    assert (Hsum : 0 <= sum_increments rest).
    { clear -Hrest. unfold sum_increments.
      induction Hrest as [|c l Hc _ IHl]; cbn; lia. }
    destruct (BitcodeGotCompiled_progress s d e n Hd Hd1 Hexp Hinv Hn Hlo)
      as (s1 & Hrun & Hd' & Hexp' & Hinv' & Hc); [lia|].
    pose proof (BitcodeGotCompiled_below_total s d e n s1 Hd Hd1 Hexp Hbelow
                  Hrun) as Hbelow'.
    destruct (BitcodeGotCompiled_frame e n s s1 Hrun) as (F1 & F2 & F3).
    destruct (IH s1 d Hd' Hd1 Hexp' Hinv' Hbelow' Hrest)
      as (s' & Hrun' & Hinv'' & Hbelow'' & G1 & G2 & G3); [lia|lia|].
    exists s'. split.
    + cbn [compile_progress]. unfold bind. rewrite Hrun. exact Hrun'.
    + split; [exact Hinv''|]. split; [exact Hbelow''|].
      repeat split; congruence.
Qed.

(** [TranslateFinished(PP_OK)] with no earlier error adds the final progress
    event when the total is known, and no progress event otherwise. *)
Lemma TranslateFinished_ok_progress s th d :
  translate_finish_error_ s = PP.OK ->
  translate_thread_ s = Some th ->
  temp_nexe_file_ s = Some (mkTempFile (Some d)) ->
  exists s',
    TranslateFinished PP.OK s = Some (tt, s')
    /\ progress_events (trace_ s')
       = (progress_events (trace_ s)
            ++ (if ExpectedProgressKnown s then
                  [mkProgress true (expected_pexe_size_ s)
                     (expected_pexe_size_ s)]
                else []))%list.
Proof.
  intros Hfe Hth Htf.
  destruct (ExpectedProgressKnown s) eqn:Hknown.
  - apply (TranslateFinished_ok_final s th d Hfe Hth Htf Hknown).
  - unfold TranslateFinished, NexeReadDidOpen, temp_nexe_file_Reset,
      temp_nexe_read_wrapper, set_temp_nexe_read_wrapper,
      cached_nexe_file_OpenWrite, NewCallback, call, deref, bind, gets,
      modify, ret.
    rewrite Hfe. cbn.
    repeat (first [rewrite Hknown | rewrite Hth | rewrite Htf]; cbn).
    rewrite app_nil_r.
    destruct (use_new_cache_ s); cbn.
    + destruct (cached_nexe_file_ s); cbn;
        (eexists; split; [reflexivity|]); cbn;
        rewrite !progress_events_quiet by reflexivity; reflexivity.
    + destruct (HasCacheKey (pnacl_options_ s)
                && is_some (cached_nexe_file_ s)); cbn.
      * eexists; split; [reflexivity|]. cbn.
        rewrite !progress_events_quiet by reflexivity. reflexivity.
      * destruct (cached_nexe_file_ s); cbn;
          (eexists; split; [reflexivity|]); cbn;
          rewrite !progress_events_quiet by reflexivity; reflexivity.
Qed.

(** The progress events of a whole translation, the final one included:
    after a sequence of compile-progress callbacks with non-negative
    increments and the [TranslateFinished(PP_OK)] that follows it, the bytes
    compiled reported never go down and never exceed a known total. *)
Lemma progress_monotone_through_final_event :
  forall s d th dw calls,
    streaming_downloader_ s = Some d ->
    -1 <= dl_total_bytes d ->
    -1 <= expected_pexe_size_ s ->
    progress_events (trace_ s) = [] ->
    Forall (fun c => 0 <= snd c) calls ->
    0 <= pexe_bytes_compiled_ s ->
    pexe_bytes_compiled_ s + sum_increments calls < 2 ^ 63 ->
    translate_finish_error_ s = PP.OK ->
    translate_thread_ s = Some th ->
    temp_nexe_file_ s = Some (mkTempFile (Some dw)) ->
    exists s',
      (compile_progress calls ;; TranslateFinished PP.OK) s = Some (tt, s')
      /\ StronglySorted Z.le
           (map bytesCompiled (progress_events (trace_ s')))
      /\ Forall (fun p => computable p = true ->
                          bytesCompiled p <= bytesTotal p)
           (progress_events (trace_ s')).
Proof.
  intros s d th dw calls Hd Hd1 Hexp Hnone Hpos Hlo Hhi Hfe Hth Htf.
  assert (Hinv : progress_inv s).
  { unfold progress_inv. rewrite Hnone. cbn. repeat split; constructor. }
  assert (Hbelow : progress_below_total d s).
  { unfold progress_below_total. rewrite Hnone.
    destruct (ExpectedProgressKnown s); [constructor|left; reflexivity]. }
  destruct (compile_progress_below_total calls s d Hd Hd1 Hexp Hinv Hbelow
              Hpos) as (s1 & Hrun & (Hs & _ & Hb) & Hbelow1 & F1 & F2 & F3);
    [lia|exact Hhi|].
  destruct (TranslateFinished_ok_progress s1 th dw) as (s' & Hfin & Hev);
    [congruence|congruence|congruence|].
  exists s'. split; [unfold bind; rewrite Hrun; exact Hfin|].
  rewrite Hev. unfold progress_below_total in Hbelow1.
  destruct (ExpectedProgressKnown s1).
  - split.
    + rewrite map_app. cbn. apply StronglySorted_snoc; [exact Hs|].
      apply Forall_map. exact Hbelow1.
    + apply Forall_app. split; [exact Hb|].
      constructor; [cbn; lia|constructor].
  - rewrite app_nil_r. split; assumption.
Qed.

(** ** Methods outside the claims *)

(** What a pass through the error-exit path leaves behind. *)
Lemma ExitWithError_spec s :
  exists s',
    ExitWithError s = Some (tt, s')
    /\ trace_ s' = error_exit_trace (error_info_ s) s
    /\ callback_factory_ s' = []
    /\ error_already_reported_ s' = true
    /\ translated_fd_ s' = translated_fd_ s
    /\ temp_nexe_file_ s' = temp_nexe_file_ s
    /\ cached_nexe_file_ s' = cached_nexe_file_ s.
Proof.
  unfold ExitWithError, callback_factory_CancelAll, error_exit_trace, call,
    bind, gets, modify, ret.
  cbn. destruct (error_already_reported_ s) eqn:E; cbn; spec_done.
Qed.

(** X1: the creation of the cache directory: a directory that exists already is
    as good as one just created, the bitcode stream is opened in both cases;
    any other result is reported with the one error code the coordinator has
    for it, and the stream is not opened. *)
Theorem DirectoryWasCreated_existing_directory_is_benign :
  forall s,
    DirectoryWasCreated PP.ERROR_FILEEXISTS s = OpenBitcodeStream s
    /\ DirectoryWasCreated PP.OK s = OpenBitcodeStream s
    /\ (forall e,
          e <> PP.OK -> e <> PP.ERROR_FILEEXISTS ->
          exists s',
            DirectoryWasCreated e s = Some (tt, s')
            /\ trace_ s' = error_exit_trace (directory_failure_report e) s
            /\ error_code (directory_failure_report e)
               = ERROR_PNACL_CACHE_DIRECTORY_CREATE
            /\ callback_factory_ s' = []).
Proof.
  intros s. split; [reflexivity|]. split; [reflexivity|].
  intros e H0 H1. unfold DirectoryWasCreated, directory_failure_report.
  apply Z.eqb_neq in H0, H1. rewrite H0, H1. cbn [negb andb].
  destruct (e =? PP.ERROR_NOACCESS);
    match goal with
    | |- context [ReportPpapiError ?c ?e ?m ?s] =>
        destruct (ReportPpapiError_spec c e m s) as (s' & Hr & Ht & Hc & _)
    end;
    exists s'; repeat split; assumption.
Qed.

(** X2: the synchronous result of [FileSystem::Open] is compared with
    [PP_OK_COMPLETIONPENDING], and the error is then classified by the
    completion value of the resource load, which is [PP_OK] on this path:
    whatever [Open] returned, [PP_ERROR_INPROGRESS] included, the report is
    the one of the category "other", with [pp_error=0] in its message, and
    the request ends in the error-exit path. *)
Theorem ResourcesDidLoad_open_failure_is_reported_as_other :
  forall s,
    off_the_record_ s = false ->
    use_new_cache_ s = false ->
    host_fs_open_result (host_ s) <> PP.OK_COMPLETIONPENDING ->
    exists s',
      ResourcesDidLoad PP.OK s = Some (tt, s')
      /\ trace_ s'
         = error_exit_trace
             (mkErrorInfo ERROR_PNACL_CACHE_OPEN_OTHER
                "PnaclCoordinator: File system for PNaCl translation cache failed to open. (pp_error=0).")
             (set_trace_ (FileSystemOpen :: trace_ s) s)
      /\ callback_factory_ s' = [].
Proof.
  intros s Hotr Hnew Hopen.
  unfold ResourcesDidLoad, NewCallback, call, bind, gets, modify, ret.
  cbn. rewrite Hotr. cbn. rewrite Hnew. cbn.
  apply Z.eqb_neq in Hopen. rewrite Hopen. cbn.
  unfold error_exit_trace, call, bind, modify, ret. cbn.
  destruct (error_already_reported_ s); cbn;
    eexists; repeat split; reflexivity.
Qed.

(** A callback that is not registered does not run. *)
Lemma fire_unregistered cb e d s :
  ~ In cb (callback_factory_ s) -> fire cb e d s = Some (tt, s).
Proof.
  intros Hn. unfold fire, bind, gets.
  destruct (in_dec Callback_eq_dec cb (callback_factory_ s));
    [contradiction|reflexivity].
Qed.

(** With no callback registered, completions change nothing. *)
Lemma run_completions_idle events :
  forall s,
    callback_factory_ s = [] ->
    forallb is_completion events = true ->
    run events s = Some (tt, s).
Proof.
  induction events as [|ev rest IH]; intros s Hc Hall; [reflexivity|].
  cbn in Hall. apply andb_prop in Hall. destruct Hall as [Hev Hrest].
  cbn [run]. unfold bind.
  destruct ev; try discriminate Hev; cbn [deliver];
    rewrite fire_unregistered by (rewrite Hc; intros []);
    apply IH; assumption.
Qed.

(** X3: when the resources fail to load, the coordinator leaves the report to
    the class that loads them: it reports nothing, registers no callback and
    does not run the completion callback, and no completion that arrives
    afterwards makes it act. *)
Theorem failed_resource_load_stalls :
  forall h url opts e0 e events,
    e <> PP.OK ->
    forallb is_completion events = true ->
    exists s,
      run (Fire CbResourceInfoWasRead e0 :: Fire CbResourcesDidLoad e :: events)
        (BitcodeToNative h url opts) = Some (tt, s)
      /\ trace_ s = [StartLoad; ReadResourceInfo]
      /\ callback_factory_ s = []
      /\ error_already_reported_ s = false.
Proof.
  intros h url opts e0 e events He Hall.
  cbn [run deliver]. unfold bind at 1.
  rewrite (fire_head CbResourceInfoWasRead [] e0 None) by reflexivity.
  cbn [dispatch host_complete].
  unfold ResourceInfoWasRead, NewCallback, call, bind at 1, modify.
  cbn. unfold bind at 1.
  match goal with
  | |- context [fire CbResourcesDidLoad e None ?s0] =>
      rewrite (fire_head CbResourcesDidLoad [] e None s0) by reflexivity
  end.
  cbn [dispatch host_complete]. unfold ResourcesDidLoad.
  apply Z.eqb_neq in He. rewrite He. cbn [negb]. unfold ret.
  eexists. split; [apply run_completions_idle; [reflexivity|exact Hall]|].
  repeat split.
Qed.

(** X4: a download that ends with an error is not reported at once: the error
    is kept for the moment the translation thread returns, with a report of
    the category no-access or other (the report for an aborted download is
    overwritten by the one of the category other), the translation is
    aborted, callbacks stay registered and the completion callback is not
    run. *)
Theorem BitcodeStreamDidFinish_defers_the_failure :
  forall s e th,
    e <> PP.OK ->
    translate_thread_ s = Some th ->
    exists s',
      BitcodeStreamDidFinish e s = Some (tt, s')
      /\ translate_finish_error_ s' = e
      /\ error_info_ s' = pexe_load_failure_report e
      /\ error_code (error_info_ s') <> ERROR_PNACL_PEXE_FETCH_ABORTED
      /\ trace_ s' = AbortSubprocesses :: trace_ s
      /\ callback_factory_ s' = callback_factory_ s
      /\ error_already_reported_ s' = error_already_reported_ s.
Proof.
  intros s e th He Hth.
  unfold BitcodeStreamDidFinish, pexe_load_failure_report, call, deref, bind,
    gets, modify, ret.
  apply Z.eqb_neq in He. rewrite He. cbn [negb].
  destruct (e =? PP.ERROR_ABORTED) eqn:Ea.
  - apply Z.eqb_eq in Ea. subst e. cbn. rewrite Hth.
    eexists. repeat split; cbn; discriminate.
  - destruct (e =? PP.ERROR_NOACCESS); cbn; rewrite Hth;
      eexists; repeat split; cbn; discriminate.
Qed.

(** [TranslateFinished] with an earlier download error, or with an error
    from the translation thread, goes to the error-exit path with the report
    that [error_info_] holds: no progress event is sent and no file is
    touched. *)
Lemma TranslateFinished_bails_out s e :
  translate_finish_error_ s <> PP.OK \/ e <> PP.OK ->
  exists s',
    TranslateFinished e s = Some (tt, s')
    /\ trace_ s' = error_exit_trace (error_info_ s) s
    /\ callback_factory_ s' = []
    /\ translated_fd_ s' = translated_fd_ s
    /\ temp_nexe_file_ s' = temp_nexe_file_ s
    /\ cached_nexe_file_ s' = cached_nexe_file_ s.
Proof.
  intros Hor.
  destruct (ExitWithError_spec s) as (s' & Hx & Ht & Hc & _ & Hfd & Htf & Hcf).
  exists s'. split; [|repeat split; assumption].
  unfold TranslateFinished, bind at 1, gets at 1.
  destruct (translate_finish_error_ s =? PP.OK) eqn:E1; cbn [negb];
    [|exact Hx].
  destruct (e =? PP.OK) eqn:E2; cbn [negb]; [|exact Hx].
  apply Z.eqb_eq in E1, E2. destruct Hor; contradiction.
Qed.

(** X5: a failed download wins over the translation: once the download has
    ended with an error, [TranslateFinished] reports the failure of the
    download whatever the translation thread returns, [PP_OK] included; the
    translated file is not handed over and no cache file is made.  An error
    from the translation thread alone is reported with the report the thread
    left in [error_info_]. *)
Theorem download_failure_wins_over_translation :
  forall s e e' th,
    e <> PP.OK ->
    translate_thread_ s = Some th ->
    (exists s1 s2,
       BitcodeStreamDidFinish e s = Some (tt, s1)
       /\ TranslateFinished e' s1 = Some (tt, s2)
       /\ trace_ s2 = error_exit_trace (pexe_load_failure_report e) s1
       /\ callback_factory_ s2 = []
       /\ translated_fd_ s2 = translated_fd_ s
       /\ temp_nexe_file_ s2 = temp_nexe_file_ s
       /\ cached_nexe_file_ s2 = cached_nexe_file_ s)
    /\ (exists s2,
          TranslateFinished e s = Some (tt, s2)
          /\ trace_ s2 = error_exit_trace (error_info_ s) s
          /\ callback_factory_ s2 = []
          /\ translated_fd_ s2 = translated_fd_ s).
Proof.
  intros s e e' th He Hth. split.
  - assert (H1 : exists s1,
               BitcodeStreamDidFinish e s = Some (tt, s1)
               /\ translate_finish_error_ s1 = e
               /\ error_info_ s1 = pexe_load_failure_report e
               /\ translated_fd_ s1 = translated_fd_ s
               /\ temp_nexe_file_ s1 = temp_nexe_file_ s
               /\ cached_nexe_file_ s1 = cached_nexe_file_ s).
    { unfold BitcodeStreamDidFinish, pexe_load_failure_report, call, deref,
        bind, gets, modify, ret.
      pose proof He as He'. apply Z.eqb_neq in He'. rewrite He'. cbn [negb].
      destruct (e =? PP.ERROR_ABORTED) eqn:Ea.
      - apply Z.eqb_eq in Ea. subst e. cbn. rewrite Hth.
        eexists. repeat split.
      - destruct (e =? PP.ERROR_NOACCESS); cbn; rewrite Hth;
          eexists; repeat split. }
    destruct H1 as (s1 & Hrun & Hfe & Hinfo & F1 & F2 & F3).
    destruct (TranslateFinished_bails_out s1 e')
      as (s2 & Hfin & Ht & Hc & G1 & G2 & G3);
      [left; rewrite Hfe; exact He|].
    exists s1, s2. split; [exact Hrun|]. split; [exact Hfin|].
    rewrite Ht, Hinfo. repeat split; congruence.
  - destruct (TranslateFinished_bails_out s e)
      as (s2 & Hfin & Ht & Hc & G1 & _); [right; exact He|].
    exists s2. repeat split; assumption.
Qed.

(** X6: a write completion that reports more bytes than the write was given
    stops the process: the count differs from the count that was read and
    fails the check that it is the smaller one. *)
Theorem DidCopyNexeToCachePartial_overlong_write_stops :
  forall s pp_error num_read_prev cur_offset,
    0 < pp_error ->
    num_read_prev < pp_error ->
    DidCopyNexeToCachePartial pp_error num_read_prev cur_offset s = None.
Proof.
  intros s e n off Hpos Hlt. unfold DidCopyNexeToCachePartial.
  replace (e =? PP.OK) with false
    by (symmetry; apply Z.eqb_neq; unfold PP.OK; lia).
  replace (e <? PP.OK) with false
    by (symmetry; apply Z.ltb_ge; unfold PP.OK; lia).
  cbv zeta. unfold bind at 1, deref at 1.
  destruct (temp_nexe_file_ s); [|reflexivity].
  replace (e =? n) with false by (symmetry; apply Z.eqb_neq; lia).
  cbn [negb].
  replace (e <? n) with false by (symmetry; apply Z.ltb_ge; lia).
  reflexivity.
Qed.

(** X7: [RunTranslate] does not look at its completion value: when the
    temporary file for the nexe has failed to open, nothing is reported, and
    the translation is started all the same. *)
Theorem RunTranslate_starts_whatever_the_open_result :
  forall s e cbs th,
    callback_factory_ s = CbRunTranslate :: cbs ->
    translate_thread_ s = Some th ->
    exists s',
      fire CbRunTranslate e None s = Some (tt, s')
      /\ trace_ s' = ThreadRunTranslate :: trace_ s
      /\ callback_factory_ s' = CbTranslateFinished :: cbs
      /\ error_already_reported_ s' = error_already_reported_ s
      /\ (e <> PP.OK -> temp_nexe_file_ s' = temp_nexe_file_ s).
Proof.
  intros s e cbs th Hc Hth.
  rewrite (fire_head _ _ _ _ _ Hc). cbn [dispatch].
  unfold RunTranslate, NewCallback, call, CHECK, bind, gets, modify, ret.
  unfold host_complete. cbn [temp_nexe_file_ set_callback_factory_].
  destruct (temp_nexe_file_ s) as [t|] eqn:Et;
    [destruct (e =? PP.OK) eqn:Ee|]; cbn; rewrite Hth; cbn;
    eexists; repeat split; cbn;
    intros Hne;
    first [ exact Et | apply Z.eqb_eq in Ee; contradiction ].
Qed.

Lemma bytes_received_nonneg chunks : 0 <= bytes_received chunks.
Proof.
  unfold bytes_received.
  induction chunks as [|[e d] rest IH]; cbn; [lia|].
  destruct (is_some d && (0 <? e)) eqn:E; [|lia].
  apply andb_prop in E. destruct E as [_ E]. apply Z.ltb_lt in E. lia.
Qed.

(** X8: the chunks of the stream: every completion of the stream, with data or
    without, with a byte count or an error, is handed to the translation
    thread, in the order of arrival; the size of the pexe grows by the
    positive completion values that come with data, and by nothing else. *)
Theorem stream_data_counts_the_bytes :
  forall chunks s th,
    translate_thread_ s = Some th ->
    - 2 ^ 63 <= pexe_size_ s ->
    pexe_size_ s + bytes_received chunks < 2 ^ 63 ->
    exists s',
      stream_data chunks s = Some (tt, s')
      /\ pexe_size_ s' = pexe_size_ s + bytes_received chunks
      /\ trace_ s' = (put_bytes_calls chunks ++ trace_ s)%list
      /\ callback_factory_ s' = callback_factory_ s.
Proof.
  induction chunks as [|[e d] rest IH]; intros s th Hth Hlo Hhi.
  - exists s. split; [reflexivity|]. cbn. split; [lia|]. split; reflexivity.
  - pose proof (bytes_received_nonneg rest) as Hrest.
    change (bytes_received ((e, d) :: rest))
      with ((if is_some d && (0 <? e) then e else 0) + bytes_received rest)
      in *.
    assert (Hstep : exists s1,
               BitcodeStreamGotData e d s = Some (tt, s1)
               /\ pexe_size_ s1
                  = pexe_size_ s + (if is_some d && (0 <? e) then e else 0)
               /\ trace_ s1 = PutBytes d e :: trace_ s
               /\ callback_factory_ s1 = callback_factory_ s
               /\ translate_thread_ s1 = Some th).
    { unfold BitcodeStreamGotData, call, deref, bind, gets, modify, ret.
      rewrite Hth. cbn. rewrite Z.gtb_ltb.
      destruct (is_some d && (0 <? e)) eqn:E; cbn.
      - apply andb_prop in E. destruct E as [_ E]. apply Z.ltb_lt in E.
        eexists. split; [reflexivity|]. cbn.
        unfold add64. rewrite wrap64_id by lia.
        repeat split. exact Hth.
      - eexists. split; [reflexivity|]. cbn.
        repeat split; [lia|exact Hth]. }
    destruct Hstep as (s1 & Hrun & Hsz & Htr & Hcb & Hth1).
    destruct (IH s1 th Hth1) as (s' & Hrun' & Hsz' & Htr' & Hcb');
      [destruct (is_some d && (0 <? e)) eqn:E; lia|lia|].
    exists s'. split; [cbn [stream_data]; unfold bind; rewrite Hrun; exact Hrun'|].
    split; [lia|]. split; [|congruence].
    rewrite Htr', Htr. unfold put_bytes_calls. cbn [map rev fst snd].
    rewrite <- app_assoc. reflexivity.
Qed.

(** X9: with the cache of the browser, a hit needs no translation: when
    [GetNexeFd] completes with a hit, the coordinator lets go of the
    downloader, opens neither an object file nor the rest of the stream, and
    opens the file the browser gave it for reading; when that open
    completes, the read wrapper of the file goes to the caller with
    [PP_OK].  A positive completion value of [GetNexeFd] counts as a
    success. *)
Theorem new_cache_hit_skips_the_translation :
  forall s e cbs,
    callback_factory_ s = CbNexeFdDidOpen :: cbs ->
    0 <= e ->
    host_is_cache_hit (host_ s) = true ->
    host_set_existing_fd_ok (host_ s) = true ->
    cached_nexe_file_ s = None ->
    exists s1 s2,
      fire CbNexeFdDidOpen e None s = Some (tt, s1)
      /\ trace_ s1 = TempFileOpen NexeFile false :: trace_ s
      /\ callback_factory_ s1 = CbNexeReadDidOpen :: cbs
      /\ streaming_downloader_ s1 = None
      /\ obj_file_ s1 = obj_file_ s
      /\ fire CbNexeReadDidOpen PP.OK None s1 = Some (tt, s2)
      /\ translated_fd_ s2
         = Some (fresh_wrapper (host_nexe_fd_contents (host_ s)))
      /\ trace_ s2 = RunTranslateNotifyCallback PP.OK :: trace_ s1.
Proof.
  intros s e cbs Hc He Hhit Hfd Hcf.
  assert (H1 : exists s1,
             fire CbNexeFdDidOpen e None s = Some (tt, s1)
             /\ trace_ s1 = TempFileOpen NexeFile false :: trace_ s
             /\ callback_factory_ s1 = CbNexeReadDidOpen :: cbs
             /\ streaming_downloader_ s1 = None
             /\ obj_file_ s1 = obj_file_ s
             /\ cached_nexe_file_ s1 = None
             /\ temp_nexe_file_ s1 = Some (mkTempFile None)
             /\ host_ s1 = host_ s).
  { rewrite (fire_head _ _ _ _ _ Hc). cbn [dispatch].
    unfold host_complete.
    replace (0 <=? e) with true by (symmetry; apply Z.leb_le; exact He).
    unfold NexeFdDidOpen, NewCallback, call, bind, gets, modify, ret.
    replace (e <? PP.OK) with false
      by (symmetry; apply Z.ltb_ge; unfold PP.OK; lia).
    cbn. rewrite Hfd, Hhit. cbn.
    eexists. split; [reflexivity|]. cbn. repeat split. exact Hcf. }
  destruct H1 as (s1 & Hrun1 & Ht1 & Hc1 & Hd1 & Ho1 & Hcf1 & Htf1 & Hh1).
  exists s1.
  assert (H2 : exists s2,
             fire CbNexeReadDidOpen PP.OK None s1 = Some (tt, s2)
             /\ translated_fd_ s2
                = Some (fresh_wrapper (host_nexe_fd_contents (host_ s1)))
             /\ trace_ s2 = RunTranslateNotifyCallback PP.OK :: trace_ s1).
  { rewrite (fire_head _ _ _ _ _ Hc1). cbn [dispatch].
    unfold host_complete.
    cbn [cached_nexe_file_ temp_nexe_file_ host_ disk_
         set_callback_factory_].
    rewrite Hcf1, Htf1. cbn [Z.eqb PP.OK].
    unfold NexeReadDidOpen, call, deref, bind, gets, modify, ret.
    cbn. rewrite Hcf1. cbn. eexists. repeat split. }
  destruct H2 as (s2 & Hrun2 & Hfd2 & Ht2).
  exists s2. rewrite Hh1 in Hfd2. repeat split; assumption.
Qed.


(** X11: the key of the cache lookup: when the stream has opened and the
    response may be stored, the cache validators of the options become the
    validators of the response followed by the URL the downloader ended at,
    and the entry that is looked up is the one under the cache key of those
    options: a cache file opened for reading without the new cache, a
    request to the browser with it. *)
Theorem BitcodeStreamDidOpen_looks_up_validators_and_url :
  forall s d,
    off_the_record_ s = false ->
    streaming_downloader_ s = Some d ->
    CacheControlNoStore (dl_response_headers d) = false ->
    GetCacheValidators (dl_response_headers d) <> "" ->
    PP.OK_COMPLETIONPENDING <= host_nexe_fd_err (host_ s) ->
    exists s',
      BitcodeStreamDidOpen PP.OK s = Some (tt, s')
      /\ pnacl_options_ s'
         = set_cache_validators
             (GetCacheValidators (dl_response_headers d) ++ dl_url d)
             (pnacl_options_ s)
      /\ (use_new_cache_ s = false ->
          cached_nexe_file_ s'
          = Some (mkLocalTempFile (KeyName (GetCacheKey (pnacl_options_ s')))
                    None None)
          /\ trace_ s'
             = CacheOpenRead (KeyName (GetCacheKey (pnacl_options_ s')))
                 :: trace_ s
          /\ callback_factory_ s'
             = CbCachedFileDidOpen :: callback_factory_ s)
      /\ (use_new_cache_ s = true ->
          cached_nexe_file_ s' = cached_nexe_file_ s
          /\ trace_ s' = GetNexeFd (GetCacheKey (pnacl_options_ s')) :: trace_ s
          /\ callback_factory_ s' = CbNexeFdDidOpen :: callback_factory_ s).
Proof.
  intros s d Hotr Hd Hstore Hval Hfd.
  unfold BitcodeStreamDidOpen, cached_nexe_file_OpenRead, NewCallback, call,
    deref, bind, gets, modify, ret.
  cbn. rewrite Hotr. cbn. rewrite Hd. cbn. rewrite Hstore.
  apply String.eqb_neq in Hval. rewrite Hval. cbn.
  destruct (use_new_cache_ s) eqn:Enew; cbn.
  - replace (host_nexe_fd_err (host_ s) <? PP.OK_COMPLETIONPENDING)
      with false by (symmetry; apply Z.ltb_ge; exact Hfd).
    eexists. split; [reflexivity|]. cbn. split; [reflexivity|].
    split; [discriminate|]. intros _. repeat split.
  - eexists. split; [reflexivity|]. cbn. split; [reflexivity|].
    split; [|discriminate]. intros _. repeat split.
Qed.

(** X12: a stream that fails to open: without the new cache the failure is only
    kept, as for a stream that fails later, and is reported when the
    translation thread returns; with the new cache no translation has been
    started, and the failure is reported at once through the error-exit
    path. *)
Theorem BitcodeStreamDidOpen_failure_is_reported_at_once_with_the_new_cache :
  forall s e th,
    e <> PP.OK ->
    translate_thread_ s = Some th ->
    (use_new_cache_ s = false ->
     exists s',
       BitcodeStreamDidOpen e s = Some (tt, s')
       /\ translate_finish_error_ s' = e
       /\ trace_ s' = AbortSubprocesses :: trace_ s
       /\ callback_factory_ s' = callback_factory_ s
       /\ error_already_reported_ s' = error_already_reported_ s)
    /\ (use_new_cache_ s = true ->
        exists s',
          BitcodeStreamDidOpen e s = Some (tt, s')
          /\ trace_ s'
             = error_exit_trace (pexe_load_failure_report e)
                 (set_trace_ (AbortSubprocesses :: trace_ s) s)
          /\ callback_factory_ s' = []
          /\ error_already_reported_ s' = true).
Proof.
  intros s e th He Hth.
  assert (H1 : exists s1,
             BitcodeStreamDidFinish e s = Some (tt, s1)
             /\ translate_finish_error_ s1 = e
             /\ error_info_ s1 = pexe_load_failure_report e
             /\ trace_ s1 = AbortSubprocesses :: trace_ s
             /\ callback_factory_ s1 = callback_factory_ s
             /\ error_already_reported_ s1 = error_already_reported_ s
             /\ use_new_cache_ s1 = use_new_cache_ s).
  { unfold BitcodeStreamDidFinish, pexe_load_failure_report, call, deref,
      bind, gets, modify, ret.
    pose proof He as He'. apply Z.eqb_neq in He'. rewrite He'. cbn [negb].
    destruct (e =? PP.ERROR_ABORTED) eqn:Ea.
    - apply Z.eqb_eq in Ea. subst e. cbn. rewrite Hth.
      eexists. repeat split.
    - destruct (e =? PP.ERROR_NOACCESS); cbn; rewrite Hth;
        eexists; repeat split. }
  destruct H1 as (s1 & Hrun & Hfe & Hinfo & Htr & Hcb & Hrep & Hnc).
  pose proof He as He'. apply Z.eqb_neq in He'.
  split; intros Hnew.
  - exists s1. unfold BitcodeStreamDidOpen. rewrite He'. cbn [negb].
    unfold bind at 1. rewrite Hrun. unfold bind, gets.
    rewrite Hnc, Hnew. repeat split; assumption.
  - destruct (TranslateFinished_bails_out s1 e) as (s2 & Hfin & Ht & Hc & _);
      [right; exact He|].
    destruct (ExitWithError_spec s1) as (s2' & Hx & _ & _ & Hrep2 & _).
    exists s2. unfold BitcodeStreamDidOpen. rewrite He'. cbn [negb].
    unfold bind at 1. rewrite Hrun. unfold bind, gets.
    rewrite Hnc, Hnew. split; [exact Hfin|]. split; [|split; [exact Hc|]].
    + rewrite Ht, Hinfo. unfold error_exit_trace. rewrite Htr, Hrep.
      reflexivity.
    + unfold TranslateFinished, bind at 1, gets at 1 in Hfin.
      rewrite Hfe, He' in Hfin. cbn [negb] in Hfin.
      rewrite Hx in Hfin. inversion Hfin; subst. exact Hrep2.
Qed.

(** X13: [OpenBitcodeStream] always returns.  The translation thread object
    exists before the stream is asked for, so that no piece of the file is
    dropped; without the new cache the object file is opened first.  A
    stream that cannot be opened ends the request in the error-exit path,
    which cancels the callback of the object file as well. *)
Theorem OpenBitcodeStream_creates_the_thread_before_the_stream :
  forall s,
    exists s',
      OpenBitcodeStream s = Some (tt, s')
      /\ translate_thread_ s' = Some TranslateThread
      /\ streaming_downloader_ s' = Some (host_downloader (host_ s))
      /\ (host_open_stream_ok (host_ s) = true ->
          trace_ s'
          = (OpenStream (pexe_url_ s)
               :: (if use_new_cache_ s then []
                   else [TempFileOpen ObjFile true]) ++ trace_ s)%list
          /\ callback_factory_ s'
             = (CbBitcodeStreamDidOpen
                  :: (if use_new_cache_ s then []
                      else [CbObjectFileDidOpen]) ++ callback_factory_ s)%list)
      /\ (host_open_stream_ok (host_ s) = false ->
          trace_ s'
          = error_exit_trace
              (mkErrorInfo ERROR_PNACL_PEXE_FETCH_OTHER
                 ("PnaclCoordinator: failed to open stream " ++ pexe_url_ s))
              (set_trace_
                 (OpenStream (pexe_url_ s)
                    :: (if use_new_cache_ s then []
                        else [TempFileOpen ObjFile true]) ++ trace_ s)%list s)
          /\ callback_factory_ s' = []).
Proof.
  intros s.
  unfold OpenBitcodeStream, ReportNonPpapiError, ExitWithError,
    callback_factory_CancelAll, error_exit_trace, NewCallback, call, bind,
    gets, modify, ret.
  cbn.
  destruct (use_new_cache_ s); cbn;
    destruct (host_open_stream_ok (host_ s)); cbn;
    try (destruct (error_already_reported_ s); cbn);
    eexists; (split; [reflexivity|]); cbn;
    repeat split; intros; try discriminate; reflexivity.
Qed.

(** ** A report of a load error ends the request *)

Ltac reports_leaf :=
  idtac;
  match goal with
  | H : reports_are _ _ |- reports_are _ _ =>
      unfold reports_are in *; cbn in *; exact H
  end.

Ltac quiet_tac := intro; unfold_prims; preserves_tac reports_leaf.

Lemma final_of_quiet {A : Type} (m : M A) :
  (forall n, preserves (reports_are n) m) -> report_is_final m.
Proof.
  intros Hq s a s' Hrun. left.
  exact (Hq _ s a s' eq_refl Hrun).
Qed.

Lemma final_bind {A B : Type} (m : M A) (k : A -> M B) :
  (forall n, preserves (reports_are n) m) ->
  (forall a, report_is_final (k a)) ->
  report_is_final (bind m k).
Proof.
  intros Hq Hk s b s' Hrun. unfold bind in Hrun.
  destruct (m s) as [[a s1]|] eqn:E; [|discriminate].
  pose proof (Hq _ s a s1 eq_refl E) as H1. unfold reports_are in H1.
  destruct (Hk a s1 b s' Hrun) as [H2|H2]; [left; congruence|right; exact H2].
Qed.

Lemma ExitWithError_final : report_is_final ExitWithError.
Proof.
  intros s a s' Hrun. right.
  destruct (ExitWithError_spec s) as (s1 & Hx & _ & Hc & _).
  rewrite Hx in Hrun. inversion Hrun; subst. exact Hc.
Qed.

Create HintDb final discriminated.

#[local] Hint Resolve ExitWithError_final : final.

Ltac final_step :=
  lazymatch goal with
  | |- report_is_final (bind _ _) => apply final_bind; [ quiet_tac | intro ]
  | |- report_is_final (if ?b then _ else _) => destruct b
  | |- report_is_final (match ?o with Some _ => _ | None => _ end) =>
      destruct o
  | |- report_is_final _ =>
      first [ solve [ auto with final ] | apply final_of_quiet; quiet_tac ]
  end.

Ltac final_tac := cbv zeta; repeat final_step.

Lemma ReportNonPpapiError_final c m :
  report_is_final (ReportNonPpapiError c m).
Proof. unfold ReportNonPpapiError. final_tac. Qed.

Lemma ReportPpapiError_final c e m :
  report_is_final (ReportPpapiError c e m).
Proof. unfold ReportPpapiError. final_tac. Qed.

#[local] Hint Resolve ReportNonPpapiError_final ReportPpapiError_final
  : final.

Lemma NexeReadDidOpen_final e : report_is_final (NexeReadDidOpen e).
Proof. unfold NexeReadDidOpen. final_tac. Qed.

#[local] Hint Resolve NexeReadDidOpen_final : final.

Lemma TranslateFinished_final e : report_is_final (TranslateFinished e).
Proof. unfold TranslateFinished. unfold_prims. final_tac. Qed.

Lemma NexeWasCopiedToCache_final e :
  report_is_final (NexeWasCopiedToCache e).
Proof. unfold NexeWasCopiedToCache. unfold_prims. final_tac. Qed.

#[local] Hint Resolve TranslateFinished_final NexeWasCopiedToCache_final
  : final.

Lemma CachedNexeOpenedForWrite_final e :
  report_is_final (CachedNexeOpenedForWrite e).
Proof. unfold CachedNexeOpenedForWrite. unfold_prims. final_tac. Qed.

Lemma DidCopyNexeToCachePartial_final e n o :
  report_is_final (DidCopyNexeToCachePartial e n o).
Proof. unfold DidCopyNexeToCachePartial. unfold_prims. final_tac. Qed.

Lemma CorruptCacheFileWasDeleted_final d e :
  report_is_final (CorruptCacheFileWasDeleted d e).
Proof. unfold CorruptCacheFileWasDeleted. final_tac. Qed.

Lemma NexeFileWasRenamed_final e : report_is_final (NexeFileWasRenamed e).
Proof. unfold NexeFileWasRenamed. unfold_prims. final_tac. Qed.

Lemma ResourceInfoWasRead_final e : report_is_final (ResourceInfoWasRead e).
Proof. unfold ResourceInfoWasRead. final_tac. Qed.

Lemma OpenBitcodeStream_final : report_is_final OpenBitcodeStream.
Proof. unfold OpenBitcodeStream. final_tac. Qed.

#[local] Hint Resolve OpenBitcodeStream_final : final.

Lemma ResourcesDidLoad_final e : report_is_final (ResourcesDidLoad e).
Proof. unfold ResourcesDidLoad. final_tac. Qed.

Lemma DirectoryWasCreated_final e : report_is_final (DirectoryWasCreated e).
Proof. unfold DirectoryWasCreated. final_tac. Qed.

Lemma BitcodeStreamDidFinish_quiet n e :
  preserves (reports_are n) (BitcodeStreamDidFinish e).
Proof. unfold BitcodeStreamDidFinish. preserves_tac reports_leaf. Qed.

#[local] Hint Resolve BitcodeStreamDidFinish_quiet : pres.

Lemma CachedFileDidOpen_final e : report_is_final (CachedFileDidOpen e).
Proof. unfold CachedFileDidOpen. final_tac. Qed.

#[local] Hint Resolve CachedFileDidOpen_final : final.

Lemma BitcodeStreamDidOpen_final e : report_is_final (BitcodeStreamDidOpen e).
Proof. unfold BitcodeStreamDidOpen. unfold_prims. final_tac. Qed.

Lemma NexeFdDidOpen_final e : report_is_final (NexeFdDidOpen e).
Proof. unfold NexeFdDidOpen. final_tac. Qed.

Lemma ObjectFileDidOpen_final e : report_is_final (ObjectFileDidOpen e).
Proof. unfold ObjectFileDidOpen. final_tac. Qed.

(** The methods behind the callbacks, [FileSystemDidOpen] apart. *)
Lemma dispatch_final cb e d :
  cb <> CbFileSystemDidOpen -> report_is_final (dispatch cb e d).
Proof.
  intros Hcb. destruct cb; cbn [dispatch]; try contradiction;
    first [ apply CachedNexeOpenedForWrite_final
          | apply DidCopyNexeToCachePartial_final
          | apply CorruptCacheFileWasDeleted_final
          | apply NexeFileWasRenamed_final
          | apply ResourceInfoWasRead_final
          | apply ResourcesDidLoad_final
          | apply DirectoryWasCreated_final
          | apply BitcodeStreamDidOpen_final
          | apply NexeFdDidOpen_final
          | apply ObjectFileDidOpen_final
          | solve [ auto with final ]
          | apply final_of_quiet; intro;
            unfold BitcodeStreamGotData, BitcodeGotCompiled, RunTranslate;
            preserves_tac reports_leaf ].
Qed.

(** X14: whenever a callback other than the one of the cache file system has
    fired and its method has reported a load error to the plugin, the
    method has returned with no callback registered: the report was the
    last thing it did, and nothing it had started can call back. *)
Theorem a_reported_error_leaves_no_callback :
  forall cb e d s s',
    cb <> CbFileSystemDidOpen ->
    fire cb e d s = Some (tt, s') ->
    load_error_reports (trace_ s') <> load_error_reports (trace_ s) ->
    callback_factory_ s' = [].
Proof.
  intros cb e d s s' Hcb Hrun Hrep.
  unfold fire, bind, gets, modify in Hrun.
  destruct (in_dec Callback_eq_dec cb (callback_factory_ s)) as [Hin|Hout].
  - destruct (dispatch_final cb e d Hcb _ _ _ Hrun) as [Hq|Hc];
      [|exact Hc].
    exfalso. apply Hrep. rewrite Hq.
    destruct (host_complete_frame cb e
                (set_callback_factory_
                   (remove_one cb (callback_factory_ s)) s)) as (Ht & _).
    rewrite Ht. reflexivity.
  - inversion Hrun; subst. contradiction.
Qed.

(** ** Invariants of whole runs *)

(** A value read from the coordinator that the invariant fixes. *)
Lemma preserves_gets_known {A B : Type} (I : Coordinator -> Prop)
    (f : Coordinator -> A) (v : A) (k : A -> M B) :
  (forall s, I s -> f s = v) ->
  preserves I (k v) ->
  preserves I (bind (gets f) k).
Proof.
  intros Hf Hk s b s' Hs Hrun. unfold bind, gets in Hrun.
  rewrite (Hf s Hs) in Hrun. exact (Hk s b s' Hs Hrun).
Qed.

(** A pointer that the invariant keeps NULL. *)
Lemma preserves_deref_null {A B : Type} (I : Coordinator -> Prop)
    (p : Coordinator -> option A) (k : A -> M B) :
  (forall s, I s -> p s = None) ->
  preserves I (bind (deref p) k).
Proof.
  intros Hp s b s' Hs Hrun. unfold bind, deref in Hrun.
  rewrite (Hp s Hs) in Hrun. discriminate.
Qed.

(** The methods, with all they call. *)
Ltac unfold_methods :=
  unfold BitcodeStreamDidOpen, DirectoryWasCreated, ResourcesDidLoad,
    FileSystemDidOpen, ResourceInfoWasRead, NexeFdDidOpen, CachedFileDidOpen,
    BitcodeStreamDidFinish, ObjectFileDidOpen, RunTranslate,
    TranslateFinished, OpenBitcodeStream, BitcodeStreamGotData,
    BitcodeGotCompiled, CachedNexeOpenedForWrite, DidCopyNexeToCachePartial,
    NexeWasCopiedToCache, CorruptCacheFileWasDeleted, NexeFileWasRenamed,
    NexeReadDidOpen, ReportPpapiError, ReportNonPpapiError, ExitWithError,
    read_wrapper_Read, read_wrapper_Seek, temp_nexe_file_Reset,
    temp_nexe_read_wrapper, set_temp_nexe_read_wrapper, write_file_io_Write,
    cached_nexe_file_OpenRead, cached_nexe_file_OpenWrite,
    cached_nexe_file_Delete, cached_nexe_file_Rename,
    cached_nexe_file_FinishRename, callback_factory_CancelAll, GetCallback,
    GetCompileProgressCallback.

Ltac absurd_cond :=
  match goal with
  | E : _ && false = true |- _ => rewrite andb_false_r in E; discriminate E
  | E : true = false |- _ => discriminate E
  | E : false = true |- _ => discriminate E
  end.

(** One step through the structure of a method, using what the invariant
    [known] says about the values the method reads. *)
Ltac known_step leaf known :=
  cbn [negb andb orb is_some];
  lazymatch goal with
  | |- preserves _ (bind (gets _) _) =>
      first [ eapply preserves_gets_known; [ known | cbv beta ]
            | apply preserves_bind; [ apply preserves_gets | intro ] ]
  | |- preserves _ (bind (deref _) _) =>
      first [ apply preserves_deref_null; known
            | apply preserves_bind; [ apply preserves_deref | intro ] ]
  | |- preserves _ (bind _ _) => apply preserves_bind; [ | intro ]
  | |- preserves _ (if ?b then _ else _) =>
      destruct b eqn:?; try absurd_cond
  | |- preserves _ (match ?o with Some _ => _ | None => _ end) =>
      destruct o eqn:?
  | |- preserves _ (match ?p with pair _ _ => _ end) => destruct p eqn:?
  | |- preserves _ (modify _) => apply preserves_modify; intros; leaf
  | |- preserves _ (call _) => apply preserves_modify; intros; leaf
  | |- preserves _ (NewCallback _) => apply preserves_modify; intros; leaf
  | |- preserves _ (ret _) => apply preserves_ret
  | |- preserves _ crash => apply preserves_crash
  | |- preserves _ (CHECK _) => apply preserves_CHECK
  | |- preserves _ (gets _) => apply preserves_gets
  | |- preserves _ (deref _) => apply preserves_deref
  end.

Ltac known_tac leaf known :=
  unfold_methods; cbv zeta; repeat (known_step leaf known).

(** The end of a proof that a list built on a list satisfying [Forall]
    satisfies it. *)
Ltac forall_cons :=
  cbn; repeat (constructor; [reflexivity|]); first [assumption | constructor].

Lemma Forall_remove_one (P : Callback -> Prop) cb l :
  Forall P l -> Forall P (remove_one cb l).
Proof.
  induction 1 as [|c l Hc Hl IH]; cbn; [constructor|].
  destruct (Callback_eq_dec cb c); [exact Hl|constructor; assumption].
Qed.

(** *** Without the cache of the plugin *)

Ltac local_known :=
  let s0 := fresh "s" in
  let K1 := fresh "K" in
  let K2 := fresh "K" in
  let K3 := fresh "K" in
  intros s0 (K1 & K2 & K3 & _);
  first [ exact K1 | exact K2 | exact K3 ].

Ltac local_leaf :=
  idtac;
  match goal with
  | H : no_local_cache_inv _ _ _ |- no_local_cache_inv _ _ _ =>
      let H1 := fresh "H" in
      let H2 := fresh "H" in
      let H3 := fresh "H" in
      let H4 := fresh "H" in
      let H5 := fresh "H" in
      destruct H as (H1 & H2 & H3 & H4 & H5);
      unfold no_local_cache_inv; cbn;
      (split; [exact H1|]); (split; [exact H2|]); (split; [exact H3|]);
      split; forall_cons
  end.

Lemma dispatch_no_local_cache o n cb e d :
  o || n = true ->
  is_CbFileSystemDidOpen cb = false ->
  preserves (no_local_cache_inv o n) (dispatch cb e d).
Proof.
  intros Hflag Hcb.
  destruct o, n; try discriminate Hflag; clear Hflag;
    destruct cb; try discriminate Hcb; clear Hcb; cbn [dispatch];
    known_tac local_leaf local_known.
Qed.

Lemma fire_no_local_cache o n cb e d :
  o || n = true -> preserves (no_local_cache_inv o n) (fire cb e d).
Proof.
  intros Hflag s a s' Hs Hrun. unfold fire, bind, gets, modify in Hrun.
  destruct (in_dec Callback_eq_dec cb (callback_factory_ s)) as [Hin|Hout];
    [|inversion Hrun; subst; exact Hs].
  destruct Hs as (H1 & H2 & H3 & H4 & H5).
  assert (Hcb : is_CbFileSystemDidOpen cb = false).
  { rewrite Forall_forall in H4. exact (H4 cb Hin). }
  eapply (dispatch_no_local_cache o n cb e d Hflag Hcb); [|exact Hrun].
  match goal with
  | |- no_local_cache_inv _ _ (host_complete _ _ ?s0) =>
      destruct (host_complete_frame cb e s0)
        as (Ht & _ & _ & Ho & Hn & _ & _ & _ & Hc)
  end.
  unfold no_local_cache_inv. rewrite Ht, Ho, Hn, Hc. cbn.
  repeat split; try assumption.
  - apply host_complete_no_cache_file. exact H3.
  - apply Forall_remove_one. exact H4.
Qed.

Lemma deliver_no_local_cache o n ev :
  o || n = true -> preserves (no_local_cache_inv o n) (deliver ev).
Proof.
  intros Hflag. destruct ev; cbn [deliver];
    try (apply fire_no_local_cache; exact Hflag);
    try (known_tac local_leaf local_known; fail);
    apply preserves_modify; intros s Hs.
  - destruct (streaming_downloader_ s); exact Hs.
  - destruct (temp_nexe_file_ s) as [[[dw|]]|]; exact Hs.
Qed.

(** X15: when the profile is off the record, or when the cache of the browser is
    in use, no run of the coordinator touches the cache that the plugin
    keeps in its temporary file system: the file system is not opened, the
    cache directory is not created, no cache file is opened, written,
    deleted or renamed, and the coordinator never has a cache file. *)
Theorem no_local_cache_off_the_record_or_with_the_new_cache :
  forall h url opts events s,
    host_off_the_record h || host_use_new_cache h = true ->
    run events (BitcodeToNative h url opts) = Some (tt, s) ->
    Forall (fun a => is_local_cache_op a = false) (trace_ s)
    /\ cached_nexe_file_ s = None.
Proof.
  intros h url opts events s Hflag Hrun.
  assert (Hinv : no_local_cache_inv (host_off_the_record h)
                   (host_use_new_cache h) s).
  { eapply (run_preserves _ (fun ev => deliver_no_local_cache _ _ ev Hflag)
              events); [|exact Hrun].
    unfold no_local_cache_inv. cbn. repeat split; repeat constructor. }
  destruct Hinv as (_ & _ & Hc & _ & Ht). split; assumption.
Qed.

(** *** Without the cache of the browser *)

Ltac browser_known :=
  let s0 := fresh "s" in
  let K1 := fresh "K" in
  intros s0 (K1 & _); exact K1.

Ltac browser_leaf :=
  idtac;
  match goal with
  | H : no_browser_cache_inv _ |- no_browser_cache_inv _ =>
      let H1 := fresh "H" in
      let H2 := fresh "H" in
      destruct H as (H1 & H2);
      unfold no_browser_cache_inv; cbn;
      split; [exact H1|forall_cons]
  end.

Lemma dispatch_no_browser_cache cb e d :
  preserves no_browser_cache_inv (dispatch cb e d).
Proof.
  destruct cb; cbn [dispatch]; known_tac browser_leaf browser_known.
Qed.

Lemma fire_no_browser_cache cb e d :
  preserves no_browser_cache_inv (fire cb e d).
Proof.
  intros s a s' Hs Hrun. unfold fire, bind, gets, modify in Hrun.
  destruct (in_dec Callback_eq_dec cb (callback_factory_ s)) as [Hin|Hout];
    [|inversion Hrun; subst; exact Hs].
  destruct Hs as (H1 & H2).
  eapply (dispatch_no_browser_cache cb e d); [|exact Hrun].
  match goal with
  | |- no_browser_cache_inv (host_complete _ _ ?s0) =>
      destruct (host_complete_frame cb e s0)
        as (Ht & _ & _ & _ & Hn & _)
  end.
  unfold no_browser_cache_inv. rewrite Ht, Hn. cbn. split; assumption.
Qed.

Lemma deliver_no_browser_cache ev :
  preserves no_browser_cache_inv (deliver ev).
Proof.
  destruct ev; cbn [deliver];
    try apply fire_no_browser_cache;
    try (known_tac browser_leaf browser_known; fail);
    apply preserves_modify; intros s Hs.
  - destruct (streaming_downloader_ s); exact Hs.
  - destruct (temp_nexe_file_ s) as [[[dw|]]|]; exact Hs.
Qed.

(** X16: without PNACL_USE_NEW_CACHE no run of the coordinator uses the cache of
    the browser: it neither asks the browser for a cache entry nor tells it
    that a translation has finished. *)
Theorem no_browser_cache_without_the_new_cache :
  forall h url opts events s,
    host_use_new_cache h = false ->
    run events (BitcodeToNative h url opts) = Some (tt, s) ->
    Forall (fun a => is_browser_cache_op a = false) (trace_ s).
Proof.
  intros h url opts events s Hflag Hrun.
  assert (Hinv : no_browser_cache_inv s).
  { eapply (run_preserves _ deliver_no_browser_cache events); [|exact Hrun].
    unfold no_browser_cache_inv. cbn. split; [exact Hflag|].
    repeat constructor. }
  apply Hinv.
Qed.

(** *** The values the completion callback gets *)

Ltac no_known := fail.

Ltac plain_leaf :=
  idtac;
  match goal with
  | H : plain_notifications_inv _ |- plain_notifications_inv _ =>
      unfold plain_notifications_inv in *; cbn [trace_ set_trace_
        set_callback_factory_ set_error_already_reported_ set_error_info_
        set_translated_fd_ set_cached_nexe_file_ set_temp_nexe_file_
        set_streaming_downloader_ set_translate_thread_ set_obj_file_
        set_pnacl_options_ set_translate_finish_error_ set_pexe_size_
        set_pexe_bytes_compiled_ set_expected_pexe_size_
        set_write_in_flight_];
      first
        [ exact H
        | constructor; [|exact H];
          first
            [ reflexivity
            | unfold is_plain_notification;
              match goal with
              | E : negb (_ =? PP.OK) = false |- _ =>
                  apply negb_false_iff in E; rewrite E; reflexivity
              end ] ]
  end.

Lemma dispatch_plain_notifications cb e d :
  preserves plain_notifications_inv (dispatch cb e d).
Proof.
  destruct cb; cbn [dispatch]; known_tac plain_leaf no_known.
Qed.

Lemma fire_plain_notifications cb e d :
  preserves plain_notifications_inv (fire cb e d).
Proof.
  intros s a s' Hs Hrun. unfold fire, bind, gets, modify in Hrun.
  destruct (in_dec Callback_eq_dec cb (callback_factory_ s)) as [Hin|Hout];
    [|inversion Hrun; subst; exact Hs].
  eapply (dispatch_plain_notifications cb e d); [|exact Hrun].
  match goal with
  | |- plain_notifications_inv (host_complete _ _ ?s0) =>
      destruct (host_complete_frame cb e s0) as (Ht & _)
  end.
  unfold plain_notifications_inv. rewrite Ht. exact Hs.
Qed.

Lemma deliver_plain_notifications ev :
  preserves plain_notifications_inv (deliver ev).
Proof.
  destruct ev; cbn [deliver];
    try apply fire_plain_notifications;
    try (known_tac plain_leaf no_known; fail);
    apply preserves_modify; intros s Hs.
  - destruct (streaming_downloader_ s); exact Hs.
  - destruct (temp_nexe_file_ s) as [[[dw|]]|]; exact Hs.
Qed.

(** X17: in every run of the coordinator the completion callback of the caller
    gets one of two values: [PP_OK], or [PP_ERROR_FAILED] whatever the error
    was; the error code itself only goes into the load error reported to
    the plugin. *)
Theorem completion_callback_gets_ok_or_failed :
  forall h url opts events s,
    run events (BitcodeToNative h url opts) = Some (tt, s) ->
    Forall (fun e => e = PP.OK \/ e = PP.ERROR_FAILED)
      (notifications (trace_ s)).
Proof.
  intros h url opts events s Hrun.
  assert (Hinv : plain_notifications_inv s).
  { eapply (run_preserves _ deliver_plain_notifications events);
      [|exact Hrun].
    unfold plain_notifications_inv. cbn. repeat constructor. }
  unfold plain_notifications_inv in Hinv.
  induction Hinv as [|a t Ha _ IH]; [constructor|].
  rewrite notifications_cons. apply Forall_app. split; [|exact IH].
  destruct a; try constructor; [|constructor].
  cbn in Ha. apply orb_prop in Ha.
  destruct Ha as [Ha|Ha]; apply Z.eqb_eq in Ha; [left|right]; exact Ha.
Qed.

(** *** The translation thread object *)

Ltac has_thread_leaf :=
  idtac;
  match goal with
  | H : has_thread _ |- has_thread _ =>
      unfold has_thread in *; cbn; first [exact H | discriminate]
  end.

(** Once made, the translation thread object stays. *)
Lemma dispatch_has_thread cb e d : preserves has_thread (dispatch cb e d).
Proof.
  destruct cb; cbn [dispatch]; known_tac has_thread_leaf no_known.
Qed.

Lemma host_complete_thread cb e s :
  translate_thread_ (host_complete cb e s) = translate_thread_ s.
Proof.
  unfold host_complete.
  destruct cb; cbn;
    repeat match goal with
           | |- context [match ?x with _ => _ end] => destruct x; cbn
           end;
    reflexivity.
Qed.

Lemma has_thread_thread_inv s : has_thread s -> thread_inv s.
Proof. intros H Hnone. contradiction. Qed.

(** [OpenBitcodeStream] makes the translation thread object. *)
Lemma OpenBitcodeStream_has_thread s a s' :
  OpenBitcodeStream s = Some (a, s') -> has_thread s'.
Proof.
  intros Hrun. unfold OpenBitcodeStream in Hrun.
  change (bind (gets host_) ?k s) with (k (host_ s) s) in Hrun.
  cbv beta in Hrun.
  match type of Hrun with
  | bind (modify ?f) ?k s = _ =>
      change (bind (modify f) k s) with (k tt (f s)) in Hrun
  end.
  cbv beta in Hrun.
  match type of Hrun with
  | bind (modify ?f) ?k ?s0 = _ =>
      change (bind (modify f) k s0) with (k tt (f s0)) in Hrun
  end.
  cbv beta in Hrun.
  refine ((_ : preserves has_thread _) _ _ _ _ Hrun);
    [|unfold has_thread; cbn; discriminate].
  known_tac has_thread_leaf no_known.
Qed.

Lemma OpenBitcodeStream_thread_inv : preserves thread_inv OpenBitcodeStream.
Proof.
  intros s a s' _ Hrun. apply has_thread_thread_inv.
  exact (OpenBitcodeStream_has_thread s a s' Hrun).
Qed.

Ltac thread_leaf :=
  idtac;
  match goal with
  | H : thread_inv _ |- thread_inv _ =>
      let Hn := fresh "Hn" in
      unfold thread_inv in *; cbn; intro Hn; specialize (H Hn);
      forall_cons
  end.

Ltac thread_tac :=
  unfold ResourcesDidLoad, FileSystemDidOpen, DirectoryWasCreated,
    ResourceInfoWasRead, BitcodeStreamGotData, BitcodeGotCompiled,
    ReportPpapiError, ReportNonPpapiError, ExitWithError,
    callback_factory_CancelAll, GetCallback, GetCompileProgressCallback;
  cbv zeta;
  repeat first [ apply OpenBitcodeStream_thread_inv
               | known_step thread_leaf no_known ].

(** The methods that can run before there is a translation thread object
    register only callbacks that need none. *)
Lemma dispatch_thread_inv cb e d :
  needs_no_thread cb = true -> preserves thread_inv (dispatch cb e d).
Proof.
  intros Hcb. destruct cb; try discriminate Hcb; clear Hcb; cbn [dispatch];
    thread_tac.
Qed.

Lemma fire_thread_inv cb e d : preserves thread_inv (fire cb e d).
Proof.
  intros s a s' Hs Hrun. unfold fire, bind, gets, modify in Hrun.
  destruct (in_dec Callback_eq_dec cb (callback_factory_ s)) as [Hin|Hout];
    [|inversion Hrun; subst; exact Hs].
  destruct (translate_thread_ s) as [th|] eqn:Eth.
  - apply has_thread_thread_inv.
    eapply (dispatch_has_thread cb e d); [|exact Hrun].
    unfold has_thread. rewrite host_complete_thread. cbn. rewrite Eth.
    discriminate.
  - assert (Hcb : needs_no_thread cb = true).
    { specialize (Hs Eth). rewrite Forall_forall in Hs. exact (Hs cb Hin). }
    eapply (dispatch_thread_inv cb e d Hcb); [|exact Hrun].
    unfold thread_inv. rewrite host_complete_thread. cbn. intros _.
    match goal with
    | |- Forall _ (callback_factory_ (host_complete _ _ ?s0)) =>
        destruct (host_complete_frame cb e s0)
          as (_ & _ & _ & _ & _ & _ & _ & _ & Hc)
    end.
    rewrite Hc. cbn. apply Forall_remove_one. exact (Hs Eth).
Qed.

Lemma deliver_thread_inv ev : preserves thread_inv (deliver ev).
Proof.
  destruct ev; cbn [deliver];
    try apply fire_thread_inv;
    try (thread_tac; fail);
    apply preserves_modify; intros s Hs.
  - destruct (streaming_downloader_ s); exact Hs.
  - destruct (temp_nexe_file_ s) as [[[dw|]]|]; exact Hs.
Qed.

(** X18: in every run of the coordinator the translation thread object exists
    whenever a callback that uses it is registered: every callback except
    those made before the bitcode stream is opened and those that the
    helper classes ask for.  In particular the check in [RunTranslate] that
    the thread object is not NULL never fails, and a download that ends
    with an error always finds the thread object it aborts. *)
Theorem translate_thread_exists_when_it_is_needed :
  forall h url opts events s,
    run events (BitcodeToNative h url opts) = Some (tt, s) ->
    (forall cb,
        In cb (callback_factory_ s) -> needs_no_thread cb = false ->
        translate_thread_ s = Some TranslateThread)
    /\ (forall e,
          In CbRunTranslate (callback_factory_ s) ->
          exists s', fire CbRunTranslate e None s = Some (tt, s'))
    /\ (forall e,
          In CbBitcodeStreamDidFinish (callback_factory_ s) ->
          exists s', fire CbBitcodeStreamDidFinish e None s = Some (tt, s')).
Proof.
  intros h url opts events s Hrun.
  assert (Hinv : thread_inv s).
  { eapply (run_preserves _ deliver_thread_inv events); [|exact Hrun].
    unfold thread_inv. cbn. intros _. repeat constructor. }
  assert (Hth : forall cb,
             In cb (callback_factory_ s) -> needs_no_thread cb = false ->
             translate_thread_ s = Some TranslateThread).
  { intros cb Hin Hcb.
    destruct (translate_thread_ s) as [[]|] eqn:Eth; [reflexivity|].
    specialize (Hinv Eth). rewrite Forall_forall in Hinv.
    rewrite (Hinv cb Hin) in Hcb. discriminate. }
  split; [exact Hth|]. split; intros e Hin;
    specialize (Hth _ Hin eq_refl);
    unfold fire, bind, gets, modify;
    match goal with
    | |- context [in_dec Callback_eq_dec ?cb ?l] =>
        destruct (in_dec Callback_eq_dec cb l) as [_|Hout];
        [|contradiction]
    end;
    cbn [dispatch];
    match goal with
    | |- context [host_complete ?cb ?e ?s0] =>
        assert (Hth0 : translate_thread_ (host_complete cb e s0)
                       = Some TranslateThread)
          by (rewrite host_complete_thread; exact Hth);
        generalize dependent (host_complete cb e s0); intros s1 Hth1
    end.
  - unfold RunTranslate, NewCallback, call, CHECK, bind, gets, modify, ret.
    cbn. rewrite Hth1. cbn. eexists. reflexivity.
  - unfold BitcodeStreamDidFinish, call, deref, bind, gets, modify, ret.
    destruct (negb (e =? PP.OK)); [|eexists; reflexivity].
    destruct (e =? PP.ERROR_ABORTED), (e =? PP.ERROR_NOACCESS); cbn;
      rewrite Hth1; cbn; eexists; reflexivity.
Qed.

(** ** What the cache stores is what a hit hands over *)

Ltac options_leaf :=
  idtac;
  match goal with
  | H : options_are _ _ |- options_are _ _ =>
      unfold options_are in *; cbn; exact H
  end.

Lemma dispatch_copy_options o cb e d :
  is_copy_callback cb = true -> preserves (options_are o) (dispatch cb e d).
Proof.
  intros Hcb. destruct cb; try discriminate Hcb; clear Hcb; cbn [dispatch];
    known_tac options_leaf no_known.
Qed.

Lemma host_complete_options cb e s :
  pnacl_options_ (host_complete cb e s) = pnacl_options_ s.
Proof.
  unfold host_complete.
  destruct cb; cbn;
    repeat match goal with
           | |- context [match ?x with _ => _ end] => destruct x; cbn
           end;
    reflexivity.
Qed.

Lemma fire_copy_options o cb e d :
  is_copy_callback cb = true -> preserves (options_are o) (fire cb e d).
Proof.
  intros Hcb s a s' Hs Hrun. unfold fire, bind, gets, modify in Hrun.
  destruct (in_dec Callback_eq_dec cb (callback_factory_ s)) as [Hin|Hout];
    [|inversion Hrun; subst; exact Hs].
  eapply (dispatch_copy_options o cb e d Hcb); [|exact Hrun].
  unfold options_are. rewrite host_complete_options. exact Hs.
Qed.

(** The copy into the cache leaves the options, and so the cache key, as
    they are. *)
Lemma copy_to_cache_options o fuel w :
  preserves (options_are o) (copy_to_cache fuel w).
Proof.
  unfold copy_to_cache. apply preserves_bind;
    [apply fire_copy_options; reflexivity|intros _].
  generalize 0%nat as i. induction fuel as [|fuel IH]; intros i; cbn [copy_loop].
  - apply preserves_ret.
  - apply preserves_bind; [apply preserves_gets|intros registered].
    destruct registered as [|[] rest]; try apply preserves_ret.
    apply preserves_bind; [apply fire_copy_options; reflexivity|intros _].
    apply IH.
Qed.

(** After the copy, a successful rename leaves the cache file under the
    cache key, with the bytes of the translated file, waiting to be opened
    for reading. *)
Lemma rename_commits_state bs f cbs s :
  copied bs f cbs s ->
  exists s',
    fire CbNexeFileWasRenamed PP.OK None s = Some (tt, s')
    /\ disk_ s' (KeyName (GetCacheKey (pnacl_options_ s))) = Some bs
    /\ cached_nexe_file_ s'
       = Some (mkLocalTempFile (KeyName (GetCacheKey (pnacl_options_ s)))
                 None (ltf_read_wrapper f))
    /\ callback_factory_ s' = CbNexeReadDidOpen :: cbs.
Proof.
  intros (Hf & Hc & Hd & _).
  rewrite (fire_head _ _ _ _ _ Hc).
  unfold host_complete. cbn [cached_nexe_file_ set_callback_factory_].
  rewrite Hf. cbn [ltf_rename_target ltf_filename Z.eqb PP.OK].
  cbn [dispatch].
  unfold NexeFileWasRenamed, cached_nexe_file_FinishRename,
    cached_nexe_file_OpenRead, NewCallback, call, deref, bind, gets, modify,
    ret.
  cbn. rewrite Hf. cbn. eexists. split; [reflexivity|].
  cbn. unfold disk_update. cbn. rewrite String.eqb_refl.
  split; [exact Hd|]. split; reflexivity.
Qed.

(** A cache file that opens for reading, after the rename or at the lookup,
    is handed to the caller: a read wrapper at the start of the bytes the
    cache directory holds under the name of the file. *)
Lemma cache_file_opened s f cb cbs :
  cb = CbNexeReadDidOpen \/ cb = CbCachedFileDidOpen ->
  cached_nexe_file_ s = Some f ->
  callback_factory_ s = cb :: cbs ->
  exists s',
    fire cb PP.OK None s = Some (tt, s')
    /\ translated_fd_ s'
       = Some (mkDescWrapper (file_bytes (disk_ s) (ltf_filename f)) 0)
    /\ trace_ s' = RunTranslateNotifyCallback PP.OK :: trace_ s
    /\ disk_ s' = disk_ s
    /\ (cb = CbCachedFileDidOpen -> streaming_downloader_ s' = None).
Proof.
  intros Hcb Hf Hc.
  rewrite (fire_head _ _ _ _ _ Hc).
  destruct Hcb as [-> | ->]; cbn [dispatch];
    unfold host_complete; cbn [cached_nexe_file_ set_callback_factory_];
    rewrite Hf; cbn [Z.eqb PP.OK];
    unfold CachedFileDidOpen, NexeReadDidOpen, call, deref, bind, gets,
      modify, ret; cbn;
    eexists; repeat split; try reflexivity; discriminate.
Qed.

(** X19: the round trip through the cache: when the translated file has been
    copied into the cache, with writes as short as they come, renamed to
    its cache key and opened again, the caller gets the bytes of the
    translated file; and a later request that looks the same cache key up
    in the cache directory gets a hit that hands over these same bytes,
    without streaming the rest of the pexe. *)
Theorem cache_hit_returns_what_was_stored :
  forall s bs f cbs (w : nat -> Z -> Z),
    temp_nexe_file_ s = Some (mkTempFile (Some (mkDescWrapper bs 0))) ->
    cached_nexe_file_ s = Some f ->
    callback_factory_ s = CbCachedNexeOpenedForWrite :: cbs ->
    Z.of_nat (List.length bs) < 2 ^ 63 ->
    (forall i n, 0 < n -> 0 < w i n <= n) ->
    exists s1 s2 s3,
      copy_to_cache (List.length bs) w s = Some (tt, s1)
      /\ fire CbNexeFileWasRenamed PP.OK None s1 = Some (tt, s2)
      /\ fire CbNexeReadDidOpen PP.OK None s2 = Some (tt, s3)
      /\ translated_fd_ s3 = Some (mkDescWrapper bs 0)
      /\ trace_ s3 = RunTranslateNotifyCallback PP.OK :: trace_ s2
      /\ forall s' cbs',
           disk_ s' = disk_ s3 ->
           cached_nexe_file_ s'
           = Some (mkLocalTempFile
                     (KeyName (GetCacheKey (pnacl_options_ s))) None None) ->
           callback_factory_ s' = CbCachedFileDidOpen :: cbs' ->
           exists s'',
             fire CbCachedFileDidOpen PP.OK None s' = Some (tt, s'')
             /\ translated_fd_ s'' = Some (mkDescWrapper bs 0)
             /\ streaming_downloader_ s'' = None
             /\ trace_ s'' = RunTranslateNotifyCallback PP.OK :: trace_ s'.
Proof.
  intros s bs f cbs w Ht Hf Hc Hlen Hw.
  destruct (copy_to_cache_completes w bs f cbs s Ht Hf Hc Hlen Hw)
    as (s1 & Hcopy & Hdone).
  pose proof (copy_to_cache_options (pnacl_options_ s) _ w s tt s1 eq_refl
                Hcopy) as Hopts.
  unfold options_are in Hopts.
  destruct (rename_commits_state bs f cbs s1 Hdone)
    as (s2 & Hren & Hdisk & Hcf & Hcb).
  rewrite Hopts in Hdisk, Hcf.
  destruct (cache_file_opened s2 _ CbNexeReadDidOpen cbs
              (or_introl eq_refl) Hcf Hcb)
    as (s3 & Hopen & Hfd & Htr & Hd3 & _).
  cbn [ltf_filename] in Hfd. unfold file_bytes in Hfd. rewrite Hdisk in Hfd.
  exists s1, s2, s3. do 5 (split; [assumption|]).
  intros s' cbs' Hd' Hcf' Hcb'.
  destruct (cache_file_opened s' _ CbCachedFileDidOpen cbs'
              (or_intror eq_refl) Hcf' Hcb')
    as (s'' & Hopen' & Hfd' & Htr' & _ & Hdl).
  cbn [ltf_filename] in Hfd'. unfold file_bytes in Hfd'.
  rewrite Hd', Hd3, Hdisk in Hfd'.
  exists s''. split; [exact Hopen'|]. split; [exact Hfd'|].
  split; [exact (Hdl eq_refl)|exact Htr'].
Qed.

(** ** The completion callback after the handover *)

(** Firing a registered callback, wherever it stands in the registry. *)
Lemma fire_registered cb e d s :
  In cb (callback_factory_ s) ->
  fire cb e d s
  = dispatch cb e d
      (host_complete cb e
         (set_callback_factory_ (remove_one cb (callback_factory_ s)) s)).
Proof.
  intros Hin. unfold fire, bind, gets, modify.
  destruct (in_dec Callback_eq_dec cb (callback_factory_ s));
    [reflexivity|contradiction].
Qed.

Lemma In_remove_one_other (cb cb' : Callback) l :
  cb' <> cb -> In cb' l -> In cb' (remove_one cb l).
Proof.
  intros Hne. induction l as [|c l IH]; intros Hin; [exact Hin|].
  cbn. destruct (Callback_eq_dec cb c) as [->|Hc].
  - destruct Hin as [Heq|Hin]; [congruence|exact Hin].
  - destruct Hin as [Heq|Hin]; [left; exact Heq|right; exact (IH Hin)].
Qed.

(** A hit in the cache directory hands the file over and runs the
    completion callback; it neither cancels the callbacks that are still
    registered nor sets the flag of the error exit. *)
Lemma cache_hit_keeps_the_callbacks s f :
  cached_nexe_file_ s = Some f ->
  In CbCachedFileDidOpen (callback_factory_ s) ->
  exists s',
    fire CbCachedFileDidOpen PP.OK None s = Some (tt, s')
    /\ translated_fd_ s'
       = Some (mkDescWrapper (file_bytes (disk_ s) (ltf_filename f)) 0)
    /\ trace_ s' = RunTranslateNotifyCallback PP.OK :: trace_ s
    /\ callback_factory_ s'
       = remove_one CbCachedFileDidOpen (callback_factory_ s)
    /\ error_already_reported_ s' = error_already_reported_ s.
Proof.
  intros Hf Hin.
  rewrite (fire_registered _ _ _ _ Hin).
  cbn [dispatch]. unfold host_complete.
  cbn [cached_nexe_file_ set_callback_factory_].
  rewrite Hf. cbn [Z.eqb PP.OK].
  unfold CachedFileDidOpen, NexeReadDidOpen, call, deref, bind, gets,
    modify, ret; cbn.
  eexists; repeat split; reflexivity.
Qed.

(** C9: the completion callback is not run exactly once on the success path.
    A hit in the cache directory hands the cached file to the caller, as a
    read wrapper at position 0, and runs the completion callback with
    [PP_OK]; but the success path neither cancels the callbacks that are
    still registered nor sets [error_already_reported_], as the error exit
    does.  The translation thread was started while the stream was opening,
    and when it then ends with an error, [TranslateFinished] goes through the
    error exit and runs the completion callback a second time, with
    [PP_ERROR_FAILED], after the file has been handed over. *)
Theorem C9_completion_callback_runs_again_after_the_handover :
  forall s f e,
    cached_nexe_file_ s = Some f ->
    In CbCachedFileDidOpen (callback_factory_ s) ->
    In CbTranslateFinished (callback_factory_ s) ->
    error_already_reported_ s = false ->
    e <> PP.OK ->
    exists s1 s2,
      fire CbCachedFileDidOpen PP.OK None s = Some (tt, s1)
      /\ translated_fd_ s1
         = Some (mkDescWrapper (file_bytes (disk_ s) (ltf_filename f)) 0)
      /\ notifications (trace_ s1) = PP.OK :: notifications (trace_ s)
      /\ fire CbTranslateFinished e None s1 = Some (tt, s2)
      /\ translated_fd_ s2 = translated_fd_ s1
      /\ notifications (trace_ s2)
         = PP.ERROR_FAILED :: PP.OK :: notifications (trace_ s).
Proof.
  intros s f e Hf Hhit Htf Hrep He.
  destruct (cache_hit_keeps_the_callbacks s f Hf Hhit)
    as (s1 & Hrun1 & Hfd1 & Htr1 & Hcb1 & Hrep1).
  assert (Hin1 : In CbTranslateFinished (callback_factory_ s1)).
  { rewrite Hcb1. apply In_remove_one_other; [discriminate|exact Htf]. }
  pose (s1' := host_complete CbTranslateFinished e
                 (set_callback_factory_
                    (remove_one CbTranslateFinished (callback_factory_ s1))
                    s1)).
  destruct (TranslateFinished_bails_out s1' e (or_intror He))
    as (s2 & Hrun2 & Htr2 & _ & Hfd2 & _).
  exists s1, s2.
  split; [exact Hrun1|]. split; [exact Hfd1|].
  split; [rewrite Htr1; reflexivity|].
  split; [rewrite (fire_registered _ _ _ _ Hin1); exact Hrun2|].
  split; [rewrite Hfd2; reflexivity|].
  rewrite Htr2. unfold error_exit_trace.
  change (error_already_reported_ s1') with (error_already_reported_ s1).
  change (trace_ s1') with (trace_ s1).
  rewrite Hrep1, Hrep, Htr1. reflexivity.
Qed.

End Methods.

(** * The manifest of the component files *)

Lemma substring_whole (s : string) : substring 0 (String.length s) s = s.
Proof. induction s as [|c s IH]; cbn; [reflexivity|rewrite IH; reflexivity]. Qed.

Lemma index_files_prefix (name : string) :
  index 0 "files/" ("files/" ++ name) = Some 0%nat.
Proof. cbn. destruct name; reflexivity. Qed.

(** X20: a key in the files/ namespace resolves to the base URL of the manifest
    followed by the rest of the key with the platform prefix; the file is
    marked as needing no translation and no error is reported. *)
Theorem ResolveKey_resolves_a_key_under_files :
  forall PrependPlatformPrefix m name o,
    ResolveKey PrependPlatformPrefix m ("files/" ++ name) o
    = (true,
       mkManifestOut (manifest_base_url_ m ++ PrependPlatformPrefix name)
         false (out_error_info o)).
Proof.
  intros pre m name o. unfold ResolveKey, ResolveURL, string_find,
    string_substr.
  cbv zeta. rewrite index_files_prefix.
  cbn. rewrite Nat.sub_0_r, substring_whole. reflexivity.
Qed.

(** X21: [ResolveKey] fails exactly on the keys in which files/ occurs nowhere:
    it then reports that error and leaves the URL as it was; on every other
    key it succeeds and reports nothing.  In both cases the file is marked
    as needing no translation. *)
Theorem ResolveKey_fails_exactly_without_files :
  forall PrependPlatformPrefix m key o,
    (ResolveKey PrependPlatformPrefix m key o
     = (false,
        mkManifestOut (out_full_url o) false
          (Some (ERROR_MANIFEST_RESOLVE_URL, "key did not start with files/")))
     /\ forall pos, substring pos 6 key <> "files/")
    \/ (ResolveKey PrependPlatformPrefix m key o
        = (true,
           mkManifestOut
             (manifest_base_url_ m
                ++ PrependPlatformPrefix (string_substr 6 key))
             false (out_error_info o))
        /\ exists pos, substring pos 6 key = "files/").
Proof.
  intros pre m key o. unfold ResolveKey, ResolveURL, string_find.
  cbv zeta.
  destruct (index 0 "files/" key) as [pos|] eqn:E.
  - right. split; [reflexivity|]. exists pos.
    exact (index_correct1 0 pos "files/" key E).
  - left. split; [reflexivity|]. intros pos.
    apply (index_correct3 0 pos "files/" key E); [discriminate|lia].
Qed.

(** X22: the test is for an occurrence of files/ anywhere in the key, and the
    six characters dropped are the first six: a key with one character in
    front of files/ is resolved as well, to the last character of files/
    followed by the rest. *)
Theorem ResolveKey_accepts_files_after_the_start :
  forall PrependPlatformPrefix m c rest o,
    ResolveKey PrependPlatformPrefix m (String c ("files/" ++ rest)) o
    = (true,
       mkManifestOut
         (manifest_base_url_ m ++ PrependPlatformPrefix ("/" ++ rest))
         false (out_error_info o)).
Proof.
  intros pre m c rest o. unfold ResolveKey, ResolveURL, string_find,
    string_substr.
  assert (E : exists pos,
             index 0 "files/" (String c ("files/" ++ rest)) = Some pos).
  { cbn [index].
    destruct (String.prefix "files/" (String c ("files/" ++ rest)));
      [eexists; reflexivity|].
    rewrite index_files_prefix. eexists; reflexivity. }
  destruct E as (pos & E). cbv zeta. rewrite E.
  cbn. rewrite substring_whole. reflexivity.
Qed.

(** * The UMA histograms *)

Lemma GetUMAInterface_calls u :
  uma_calls (snd (GetUMAInterface u)) = uma_calls u.
Proof. unfold GetUMAInterface. destruct (uma_interface u); reflexivity. Qed.

Ltac uma_cases :=
  unfold HistogramTime, HistogramSizeKB, HistogramRatio,
    HistogramEnumerateTranslationCache, HistogramOptLevel, GetUMAInterface,
    uma_record;
  repeat match goal with
         | |- context [if ?b then _ else _] =>
             destruct b eqn:?; cbn -[Z.mul Z.quot wrap64 wrap32 Z.add]
         end.

(** One histogram request adds at most one call, with a sample that the
    histogram can take. *)
Lemma histogram_sample_ok r u :
  ratio_in_range r ->
  ratio_fits_sample r ->
  Forall sample_ok (uma_calls u) ->
  Forall sample_ok (uma_calls (histogram r u)).
Proof.
  intros Hr Hfit Hu.
  destruct r; cbn [histogram ratio_in_range ratio_fits_sample] in *;
    uma_cases;
    try exact Hu; constructor; try exact Hu;
    cbn -[Z.mul Z.quot wrap64 wrap32 Z.add];
    unfold kOptUnknown in *;
    repeat match goal with
           | E : _ || _ = false |- _ =>
               apply orb_false_elim in E; destruct E
           | E : (_ <? _) = false |- _ => apply Z.ltb_ge in E
           | E : (_ <=? _) = false |- _ => apply Z.leb_gt in E
           | E : (_ >? _) = false |- _ => rewrite Z.gtb_ltb in E
           end;
    try lia.
  all: rewrite wrap64_id by lia;
    assert (0 <= Z.quot (100 * a) b) by (apply Z.quot_pos; lia);
    rewrite wrap32_id by lia; assumption.
Qed.

(** X23: as long as every ratio asked for fits the 32-bit sample of its
    histogram, every sample handed to the browser is one its histogram can
    take: a time, a size or a ratio is not negative (a negative one is
    dropped, and so is a ratio with a denominator that is not positive), the
    sample of an enumeration is below its boundary, and an optimisation
    level outside 0..3 is counted as unknown. *)
Theorem histogram_samples_are_in_range :
  forall rs u,
    Forall ratio_in_range rs ->
    Forall ratio_fits_sample rs ->
    Forall sample_ok (uma_calls u) ->
    Forall sample_ok (uma_calls (histograms rs u)).
Proof.
  unfold histograms.
  induction rs as [|r rs IH]; intros u Hrs Hfit Hu; [exact Hu|].
  inversion Hrs as [|r' rs' Hr Hrest]; subst.
  inversion Hfit as [|r' rs' Hf Hfrest]; subst. cbn [fold_left].
  apply IH; [exact Hrest|exact Hfrest|].
  apply histogram_sample_ok; assumption.
Qed.

(** X25: a ratio of [2 ^ 31] percent or more does not fit the sample: the
    conversion to 32 bits turns a ratio below [2 ^ 32] percent into a
    negative sample, which is handed to the browser all the same. *)
Theorem HistogramRatio_large_ratio_is_recorded_negative :
  forall name a b u,
    0 <= a -> 0 < b -> 100 * a < 2 ^ 63 ->
    2 ^ 31 <= Z.quot (100 * a) b < 2 ^ 32 ->
    uma_interface u = true \/ uma_browser_interface u = true ->
    exists sample,
      uma_calls (HistogramRatio name a b u)
      = HistogramCustomCounts name sample kRatioMin kRatioMax kRatioBuckets
          :: uma_calls u
      /\ sample = Z.quot (100 * a) b - 2 ^ 32
      /\ sample < 0.
Proof.
  intros name a b u Ha Hb Hmul Hq Hptr.
  exists (Z.quot (100 * a) b - 2 ^ 32).
  split; [|split; [reflexivity|lia]].
  assert (Hw : wrap32 (Z.quot (wrap64 (100 * a)) b)
               = Z.quot (100 * a) b - 2 ^ 32).
  { rewrite wrap64_id by lia. unfold wrap32.
    replace (Z.quot (100 * a) b + 2 ^ 31)
      with ((Z.quot (100 * a) b - 2 ^ 31) + 1 * 2 ^ 32) by lia.
    rewrite Z.mod_add by lia. rewrite Z.mod_small by lia. lia. }
  unfold HistogramRatio, GetUMAInterface, uma_record.
  replace (a <? 0) with false by (symmetry; apply Z.ltb_ge; lia).
  replace (b <=? 0) with false by (symmetry; apply Z.leb_gt; lia).
  cbn [orb]. rewrite Hw.
  destruct (uma_interface u) eqn:Ei; cbn; [reflexivity|].
  destruct Hptr as [Hi|Hbi]; [discriminate Hi|].
  rewrite Hbi. reflexivity.
Qed.

(** The state of the interface pointer after some requests: either it has
    not been needed yet, or the browser has been asked. *)
Lemma histogram_lookup r u :
  uma_browser_interface (histogram r u) = uma_browser_interface u
  /\ (uma_browser_interface u = true ->
      (uma_interface u = true ->
       uma_interface (histogram r u) = true
       /\ uma_lookups (histogram r u) = uma_lookups u)
      /\ (uma_interface u = false ->
          (uma_interface (histogram r u) = false
           /\ uma_lookups (histogram r u) = uma_lookups u)
          \/ (uma_interface (histogram r u) = true
              /\ uma_lookups (histogram r u) = S (uma_lookups u))))
  /\ (uma_browser_interface u = false ->
      uma_interface u = false ->
      uma_interface (histogram r u) = false
      /\ uma_calls (histogram r u) = uma_calls u).
Proof.
  destruct r; cbn [histogram]; uma_cases;
    repeat split; intros; try congruence; auto;
    match goal with
    | E : negb ?x = false, H : ?x = false |- _ =>
        rewrite H in E; discriminate E
    end.
Qed.

(** X24: the interface of the browser is looked up once: when the browser has
    it, any sequence of requests asks for it at most one time; when the
    browser does not have it, nothing is recorded. *)
Theorem uma_interface_is_looked_up_once :
  forall rs u,
    uma_interface u = false ->
    uma_lookups u = 0%nat ->
    (uma_browser_interface u = true ->
     (uma_lookups (histograms rs u) <= 1)%nat)
    /\ (uma_browser_interface u = false ->
        uma_calls (histograms rs u) = uma_calls u).
Proof.
  intros rs u Hi Hl. split; intros Hb.
  - assert (H : forall rs u,
               uma_browser_interface u = true ->
               (uma_interface u = false /\ uma_lookups u = 0%nat)
               \/ (uma_interface u = true /\ uma_lookups u = 1%nat) ->
               (uma_lookups (histograms rs u) <= 1)%nat).
    { clear. unfold histograms.
      induction rs as [|r rs IH]; intros u Hb Hu; cbn [fold_left].
      - destruct Hu as [[_ ->]|[_ ->]]; lia.
      - destruct (histogram_lookup r u) as (Hb' & Hyes & _).
        destruct (Hyes Hb) as (Hkeep & Hask).
        apply IH; [congruence|].
        destruct Hu as [[Hi Hl]|[Hi Hl]].
        + destruct (Hask Hi) as [[Hi' Hl']|[Hi' Hl']];
            [left|right]; split; congruence.
        + destruct (Hkeep Hi) as [Hi' Hl']. right. split; congruence. }
    apply H; [exact Hb|]. left. split; assumption.
  - clear Hl. revert u Hi Hb. unfold histograms.
    induction rs as [|r rs IH]; intros u Hi Hb; cbn [fold_left];
      [reflexivity|].
    destruct (histogram_lookup r u) as (Hb' & _ & Hno).
    destruct (Hno Hb Hi) as [Hi' Hc].
    rewrite IH; [exact Hc|exact Hi'|congruence].
Qed.

(** * Examples

    The properties at the example request. *)

Local Abbreviation example_run :=
  (run example_ShouldDelayProgressEvent example_HasCacheKey
     example_GetCacheKey example_GetCacheValidators
     example_CacheControlNoStore).

Local Abbreviation example_fire :=
  (fire example_ShouldDelayProgressEvent example_HasCacheKey
     example_GetCacheKey example_GetCacheValidators
     example_CacheControlNoStore).

Local Abbreviation example_copy_to_cache :=
  (copy_to_cache example_ShouldDelayProgressEvent example_HasCacheKey
     example_GetCacheKey example_GetCacheValidators
     example_CacheControlNoStore).

Local Abbreviation example_start :=
  (BitcodeToNative example_host "U" example_options).

Local Abbreviation example_start_off_the_record :=
  (BitcodeToNative example_host_off_the_record "U" example_options).

(** The example request after the translation, when the scratch file is
    about to open. *)
Local Abbreviation example_translated :=
  (state_after example_start (example_run example_miss example_start)).

(** The same after a copy whose write reports zero bytes and after the
    rename that follows. *)
Local Abbreviation example_zero_write_committed :=
  (state_after example_translated
     ((example_copy_to_cache 5 example_zero_write ;;
       example_fire CbNexeFileWasRenamed PP.OK None) example_translated)).

(** The example delay test holds events back at the end. *)
Lemma example_delay_at_end :
  forall expected compiled,
    0 <= expected -> expected <= compiled ->
    example_ShouldDelayProgressEvent expected compiled = true.
Proof.
  intros e c He Hc. unfold example_ShouldDelayProgressEvent.
  apply Z.ltb_lt.
  destruct (Z.eq_dec e 0) as [->|Hne].
  - rewrite Z.quot_0_r_ext by reflexivity. lia.
  - replace ((e - c) * 100) with (- ((c - e) * 100)) by lia.
    rewrite Z.quot_opp_l by exact Hne.
    assert (0 <= Z.quot ((c - e) * 100) e) by (apply Z.quot_pos; lia).
    lia.
Qed.

(** Two failures in a row: one failure indication. *)
Lemma C1_witness_two_failures :
  exists s,
    example_run example_two_failures example_start = Some (tt, s)
    /\ (failure_notifications (trace_ s) <= 1)%nat.
Proof.
  exists (state_after example_start
            (example_run example_two_failures example_start)).
  split; [vm_compute; reflexivity|].
  apply (C1_failure_indication_at_most_once
           example_ShouldDelayProgressEvent example_HasCacheKey
           example_GetCacheKey example_GetCacheValidators
           example_CacheControlNoStore example_host "U" example_options
           example_two_failures).
  vm_compute; reflexivity.
Defined.

(** A short first write (two of five bytes): the copy recovers and the
    cache entry holds the translated bytes. *)
Lemma C2_witness_short_first_write :
  exists s s' s'',
    example_run example_miss example_start = Some (tt, s)
    /\ example_copy_to_cache 5 example_short_write s = Some (tt, s')
    /\ example_fire CbNexeFileWasRenamed PP.OK None s' = Some (tt, s'')
    /\ disk_ s'' (KeyName (example_GetCacheKey (pnacl_options_ s')))
       = Some example_nexe.
Proof.
  pose (s := state_after example_start
               (example_run example_miss example_start)).
  destruct (C2_short_write_recovery
              example_ShouldDelayProgressEvent example_HasCacheKey
              example_GetCacheKey example_GetCacheValidators
              example_CacheControlNoStore s example_nexe
              (mkLocalTempFile ScratchName None None) []
              example_short_write)
    as (_ & s' & s'' & Hcopy & _ & Hfire & Hdisk).
  - vm_compute; reflexivity.
  - vm_compute; reflexivity.
  - vm_compute; reflexivity.
  - vm_compute; reflexivity.
  - intros i n Hn. destruct i; unfold example_short_write; lia.
  - exists s, s', s''. split; [vm_compute; reflexivity|].
    split; [exact Hcopy|]. split; [exact Hfire|exact Hdisk].
Defined.

(** The first write of the copy, of five bytes, completes with zero bytes,
    fewer than requested: the coordinator does not seek back and issues no
    further write, the rename goes ahead, and the cache entry is empty
    although the translated file has five bytes. *)
Lemma C2_counterexample_zero_byte_write :
  temp_nexe_file_ example_translated
  = Some (mkTempFile (Some (mkDescWrapper example_nexe 0)))
  /\ firstn 5 (trace_ example_zero_write_committed)
     = [CacheOpenRead (KeyName "abc123U"); CacheFinishRename;
        CacheRename ScratchName "abc123U";
        CacheWrite ScratchName 0 example_nexe; TempFileRead 5]
  /\ disk_ example_zero_write_committed (KeyName "abc123U") = Some []
  /\ disk_ example_zero_write_committed (KeyName "abc123U")
     <> Some example_nexe.
Proof.
  vm_compute. repeat split; discriminate.
Qed.

(** The rename after the copy hits an existing entry. *)
Lemma C3_witness_rename_collision :
  exists s s',
    example_run (example_miss ++ example_copy) example_start = Some (tt, s)
    /\ NexeFileWasRenamed PP.ERROR_FILEEXISTS s = Some (tt, s')
    /\ trace_ s'
       = CacheOpenRead (KeyName "abc123U") :: CacheFinishRename :: trace_ s.
Proof.
  pose (s := state_after example_start
               (example_run (example_miss ++ example_copy) example_start)).
  destruct (C3_rename_collision_is_benign s
              (mkLocalTempFile ScratchName (Some "abc123U") None) "abc123U")
    as ((s' & Hexists & _ & Htrace & _) & _).
  - vm_compute; reflexivity.
  - reflexivity.
  - exists s, s'. split; [vm_compute; reflexivity|].
    split; [exact Hexists|exact Htrace].
Defined.

(** C4: the open of the cache file system fails with [PP_ERROR_FAILED],
    which is none of no-access, no-quota, no-space.  The failure is reported
    and the completion callback run with the failure indication, and then
    the request goes on all the same: the cache directory is created, the
    object file opened and the bitcode stream opened. *)
Lemma C4_filesystem_open_failure_goes_on :
  calls_of (example_run example_fs_open_failure example_start)
  = Some
      [ReadResourceInfo; StartLoad; FileSystemOpen;
       ReportLoadError
         (mkErrorInfo ERROR_PNACL_CACHE_OPEN_OTHER
            "PnaclCoordinator: File system for PNaCl translation cache failed to open. (pp_error=-2).");
       CancelAll; RunTranslateNotifyCallback PP.ERROR_FAILED;
       MakeDirectory; TempFileOpen ObjFile true; OpenStream "U"].
Proof. vm_compute. reflexivity. Qed.

(** After that failure the translation can still run to its end: the
    completion callback is then run a second time, with [PP_OK]. *)
Lemma example_fs_open_failure_then_success :
  option_map (fun t => notifications t)
    (calls_of
       (example_run
          (example_fs_open_failure
             ++ [Fire CbObjectFileDidOpen PP.OK;
                 Fire CbBitcodeStreamDidOpen PP.OK;
                 Fire CbCachedFileDidOpen PP.ERROR_FILENOTFOUND;
                 Fire CbRunTranslate PP.OK]
             ++ example_translation
             ++ [Fire CbTranslateFinished PP.OK]
             ++ example_copy
             ++ [Fire CbNexeFileWasRenamed PP.OK;
                 Fire CbNexeReadDidOpen PP.OK])
          example_start))
  = Some [PP.ERROR_FAILED; PP.OK].
Proof. vm_compute. reflexivity. Qed.

(** The first write of the copy fails for lack of quota and the deletion of
    the scratch file fails too: the no-quota error is reported. *)
Lemma C5_witness_no_quota :
  exists s s1 s2,
    example_run (example_miss ++ [Fire CbCachedNexeOpenedForWrite PP.OK])
      example_start = Some (tt, s)
    /\ DidCopyNexeToCachePartial example_GetCacheKey PP.ERROR_NOQUOTA 5 0 s
       = Some (tt, s1)
    /\ trace_ s1 = CacheDelete ScratchName :: trace_ s
    /\ example_fire (CbCorruptCacheFileWasDeleted PP.ERROR_NOQUOTA)
         PP.ERROR_FAILED None s1 = Some (tt, s2)
    /\ trace_ s2
       = error_exit_trace (copy_failure_report PP.ERROR_NOQUOTA) s1.
Proof.
  pose (s := state_after example_start
               (example_run
                  (example_miss ++ [Fire CbCachedNexeOpenedForWrite PP.OK])
                  example_start)).
  destruct (C5_copy_failure_deletes_then_reports_original
              example_ShouldDelayProgressEvent example_HasCacheKey
              example_GetCacheKey example_GetCacheValidators
              example_CacheControlNoStore s
              (mkLocalTempFile ScratchName None None)
              PP.ERROR_NOQUOTA 5 0 PP.ERROR_FAILED)
    as (s1 & s2 & Hcopy & Htrace & _ & Hfire & Hreport).
  - vm_compute; reflexivity.
  - vm_compute; reflexivity.
  - exists s, s1, s2. split; [vm_compute; reflexivity|].
    repeat split; assumption.
Defined.

(** An off-the-record request: no cache-store operation in the whole run,
    and the translated file goes to the caller. *)
Lemma C6_witness_off_the_record :
  exists s s',
    example_run (example_setup_off_the_record ++ example_translation)
      example_start_off_the_record = Some (tt, s)
    /\ Forall (fun a => is_cache_store_op a = false) (trace_ s)
    /\ TranslateFinished example_HasCacheKey PP.OK s = Some (tt, s')
    /\ translated_fd_ s' = Some (mkDescWrapper example_nexe 0).
Proof.
  pose (s := state_after example_start_off_the_record
               (example_run
                  (example_setup_off_the_record ++ example_translation)
                  example_start_off_the_record)).
  destruct (C6_caching_disabled_never_touches_cache_store
              example_ShouldDelayProgressEvent example_HasCacheKey
              example_GetCacheKey example_GetCacheValidators
              example_CacheControlNoStore example_host_off_the_record "U"
              example_options
              (example_setup_off_the_record ++ example_translation) s)
    as (Hnone & Hdone).
  - vm_compute; reflexivity.
  - vm_compute; reflexivity.
  - destruct (Hdone TranslateThread (mkDescWrapper example_nexe 0))
      as (s' & t & Hfin & Hfd & _).
    + vm_compute; reflexivity.
    + vm_compute; reflexivity.
    + vm_compute; reflexivity.
    + exists s, s'. split; [vm_compute; reflexivity|].
      split; [exact Hnone|]. split; [exact Hfin|exact Hfd].
Defined.

(** The three chunks are compiled and the worker has not finished: no final
    progress event yet. *)
Lemma C7_witness_before_TranslateFinished :
  exists s,
    example_run (example_setup ++ example_translation) example_start
    = Some (tt, s)
    /\ Forall (fun p => is_final_progress p = false)
         (progress_events (trace_ s)).
Proof.
  pose (s := state_after example_start
               (example_run (example_setup ++ example_translation)
                  example_start)).
  destruct (C7_final_progress_waits_for_TranslateFinished
              example_ShouldDelayProgressEvent example_HasCacheKey
              example_GetCacheKey example_GetCacheValidators
              example_CacheControlNoStore example_delay_at_end
              example_host "U" example_options
              (example_setup ++ example_translation) s)
    as (Hnone & _).
  - vm_compute. discriminate.
  - vm_compute. repeat constructor.
  - vm_compute. intuition discriminate.
  - vm_compute; reflexivity.
  - exists s. split; [vm_compute; reflexivity|exact Hnone].
Defined.

(** The three chunks of 100, 200 and 50 bytes. *)
Lemma C8_witness_three_chunks :
  exists s s',
    example_run example_setup example_start = Some (tt, s)
    /\ compile_progress example_ShouldDelayProgressEvent
         [(PP.OK, 100); (PP.OK, 200); (PP.OK, 50)] s = Some (tt, s')
    /\ StronglySorted Z.le
         (map bytesCompiled (progress_events (trace_ s'))).
Proof.
  pose (s := state_after example_start
               (example_run example_setup example_start)).
  destruct (C8_progress_monotone_and_bounded
              example_ShouldDelayProgressEvent example_delay_at_end s
              (mkFileDownloader "U" "abc123" 350)
              [(PP.OK, 100); (PP.OK, 200); (PP.OK, 50)])
    as (s' & Hrun & Hsorted & _).
  - vm_compute; reflexivity.
  - vm_compute. discriminate.
  - vm_compute. discriminate.
  - vm_compute; reflexivity.
  - repeat constructor; vm_compute; discriminate.
  - vm_compute. discriminate.
  - vm_compute; reflexivity.
  - exists s, s'. split; [vm_compute; reflexivity|].
    split; [exact Hrun|exact Hsorted].
Defined.

(** The off-the-record request ends with the translated file, the request
    with cache with the file reopened under the cache key; both at
    position 0. *)
Lemma success_witness_both_paths :
  (exists s s',
      example_run (example_setup_off_the_record ++ example_translation)
        example_start_off_the_record = Some (tt, s)
      /\ TranslateFinished example_HasCacheKey PP.OK s = Some (tt, s')
      /\ translated_fd_ s' = Some (mkDescWrapper example_nexe 0)
      /\ notifications (trace_ s') = [PP.OK])
  /\ (exists s s',
        example_run
          (example_miss ++ example_copy ++ [Fire CbNexeFileWasRenamed PP.OK])
          example_start = Some (tt, s)
        /\ example_fire CbNexeReadDidOpen PP.OK None s = Some (tt, s')
        /\ translated_fd_ s' = Some (mkDescWrapper example_nexe 0)
        /\ notifications (trace_ s') = [PP.OK]).
Proof.
  destruct (success_hands_over_handle_at_start
              example_ShouldDelayProgressEvent example_HasCacheKey
              example_GetCacheKey example_GetCacheValidators
              example_CacheControlNoStore)
    as (Htemp & Hcache).
  split.
  - pose (s := state_after example_start_off_the_record
                 (example_run
                    (example_setup_off_the_record ++ example_translation)
                    example_start_off_the_record)).
    destruct (Htemp s TranslateThread (mkDescWrapper example_nexe 0))
      as (s' & Hfin & Hfd & Hn).
    + vm_compute; reflexivity.
    + vm_compute; reflexivity.
    + vm_compute; reflexivity.
    + vm_compute; reflexivity.
    + exists s, s'. split; [vm_compute; reflexivity|].
      split; [exact Hfin|]. split; [exact Hfd|exact Hn].
  - pose (s := state_after example_start
                 (example_run
                    (example_miss ++ example_copy
                       ++ [Fire CbNexeFileWasRenamed PP.OK])
                    example_start)).
    destruct (Hcache s (mkLocalTempFile (KeyName "abc123U") None None)
                CbNexeReadDidOpen [])
      as (s' & Hfire & Hfd & Hn).
    + left; reflexivity.
    + vm_compute; reflexivity.
    + vm_compute; reflexivity.
    + exists s, s'. split; [vm_compute; reflexivity|].
      split; [exact Hfire|]. split; [exact Hfd|exact Hn].
Defined.

(** The first write of the copy, of five bytes, reports zero bytes: the
    rename is the next thing the coordinator does. *)
Lemma C10_witness_zero_bytes :
  exists s s',
    example_run (example_miss ++ [Fire CbCachedNexeOpenedForWrite PP.OK])
      example_start = Some (tt, s)
    /\ DidCopyNexeToCachePartial example_GetCacheKey PP.OK 5 0 s
       = Some (tt, s')
    /\ trace_ s' = CacheRename ScratchName "abc123U" :: trace_ s.
Proof.
  pose (s := state_after example_start
               (example_run
                  (example_miss ++ [Fire CbCachedNexeOpenedForWrite PP.OK])
                  example_start)).
  destruct (C10_zero_byte_write_ends_copy example_GetCacheKey s
              (mkLocalTempFile ScratchName None None) 5 0)
    as (s' & Hrun & _ & Htrace & _).
  - vm_compute; reflexivity.
  - exists s, s'. split; [vm_compute; reflexivity|].
    split; [exact Hrun|exact Htrace].
Defined.

(** ** The methods outside the claims, at the example request *)

Local Abbreviation example_after events :=
  (state_after example_start (example_run events example_start)).

Local Abbreviation example_new_cache_after hit events :=
  (state_after example_start
     (example_run events
        (BitcodeToNative (example_host_new_cache hit) "U" example_options))).

Local Abbreviation example_BitcodeStreamDidOpen :=
  (BitcodeStreamDidOpen example_HasCacheKey example_GetCacheKey
     example_GetCacheValidators example_CacheControlNoStore).

(** [FileSystem::Open] answers that an open is in progress: the report is
    the one of the category other. *)
Lemma ResourcesDidLoad_open_failure_witness :
  exists s',
    ResourcesDidLoad PP.OK
      (state_after example_start
         (example_run [Fire CbResourceInfoWasRead PP.OK]
            (BitcodeToNative example_host_fs_in_progress "U"
               example_options)))
    = Some (tt, s')
    /\ callback_factory_ s' = [].
Proof.
  destruct (ResourcesDidLoad_open_failure_is_reported_as_other
              (state_after example_start
                 (example_run [Fire CbResourceInfoWasRead PP.OK]
                    (BitcodeToNative example_host_fs_in_progress "U"
                       example_options))))
    as (s' & Hrun & _ & Hc).
  - vm_compute; reflexivity.
  - vm_compute; reflexivity.
  - vm_compute. discriminate.
  - exists s'. split; assumption.
Defined.

(** The resources fail to load; completions that arrive later find nothing
    to run. *)
Lemma failed_resource_load_witness :
  exists s,
    example_run
      [Fire CbResourceInfoWasRead PP.OK; Fire CbResourcesDidLoad PP.ERROR_FAILED;
       Fire CbFileSystemDidOpen PP.OK; FireStreamData 10 None]
      example_start = Some (tt, s)
    /\ trace_ s = [StartLoad; ReadResourceInfo].
Proof.
  destruct (failed_resource_load_stalls
              example_ShouldDelayProgressEvent example_HasCacheKey
              example_GetCacheKey example_GetCacheValidators
              example_CacheControlNoStore example_host "U" example_options
              PP.OK PP.ERROR_FAILED
              [Fire CbFileSystemDidOpen PP.OK; FireStreamData 10 None])
    as (s & Hrun & Ht & _).
  - discriminate.
  - reflexivity.
  - exists s. split; assumption.
Defined.

(** The download is aborted while the translation is set up: the report
    kept is the one of the category other. *)
Lemma BitcodeStreamDidFinish_aborted_witness :
  exists s',
    BitcodeStreamDidFinish PP.ERROR_ABORTED (example_after example_setup)
    = Some (tt, s')
    /\ translate_finish_error_ s' = PP.ERROR_ABORTED
    /\ error_code (error_info_ s') = ERROR_PNACL_PEXE_FETCH_OTHER.
Proof.
  destruct (BitcodeStreamDidFinish_defers_the_failure
              (example_after example_setup) PP.ERROR_ABORTED TranslateThread)
    as (s' & Hrun & Hfe & Hinfo & _).
  - discriminate.
  - vm_compute; reflexivity.
  - exists s'. split; [exact Hrun|]. split; [exact Hfe|].
    rewrite Hinfo. reflexivity.
Defined.

(** The aborted download, followed by a translation thread that returns
    [PP_OK]: the request fails. *)
Lemma download_failure_wins_witness :
  exists s1 s2,
    BitcodeStreamDidFinish PP.ERROR_ABORTED (example_after example_setup)
    = Some (tt, s1)
    /\ TranslateFinished example_HasCacheKey PP.OK s1 = Some (tt, s2)
    /\ callback_factory_ s2 = [].
Proof.
  destruct (download_failure_wins_over_translation example_HasCacheKey
              (example_after example_setup) PP.ERROR_ABORTED PP.OK
              TranslateThread)
    as ((s1 & s2 & Hrun & Hfin & _ & Hc & _) & _).
  - discriminate.
  - vm_compute; reflexivity.
  - exists s1, s2. repeat split; assumption.
Defined.

(** A write of five bytes that reports six. *)
Lemma overlong_write_witness :
  DidCopyNexeToCachePartial example_GetCacheKey 6 5 0
    (example_after (example_miss ++ [Fire CbCachedNexeOpenedForWrite PP.OK]))
  = None.
Proof.
  apply DidCopyNexeToCachePartial_overlong_write_stops; reflexivity.
Defined.

(** The temporary file for the nexe fails to open: the translation is
    started. *)
Lemma RunTranslate_failed_open_witness :
  exists s',
    example_fire CbRunTranslate PP.ERROR_FAILED None
      (example_after example_object_file_last) = Some (tt, s')
    /\ trace_ s'
       = ThreadRunTranslate :: trace_ (example_after example_object_file_last).
Proof.
  destruct (RunTranslate_starts_whatever_the_open_result
              example_ShouldDelayProgressEvent example_HasCacheKey
              example_GetCacheKey example_GetCacheValidators
              example_CacheControlNoStore
              (example_after example_object_file_last) PP.ERROR_FAILED
              [CbBitcodeStreamDidFinish] TranslateThread)
    as (s' & Hrun & Ht & _).
  - vm_compute; reflexivity.
  - vm_compute; reflexivity.
  - exists s'. split; assumption.
Defined.

(** The three completions of the stream: three bytes counted. *)
Lemma stream_data_witness :
  exists s',
    stream_data example_chunks (example_after example_setup) = Some (tt, s')
    /\ pexe_size_ s' = 3.
Proof.
  destruct (stream_data_counts_the_bytes example_chunks
              (example_after example_setup) TranslateThread)
    as (s' & Hrun & Hsize & _).
  - vm_compute; reflexivity.
  - vm_compute. discriminate.
  - vm_compute; reflexivity.
  - exists s'. split; [exact Hrun|]. rewrite Hsize. reflexivity.
Defined.

(** The browser has the entry. *)
Lemma new_cache_hit_witness :
  exists s1 s2,
    example_fire CbNexeFdDidOpen PP.OK None
      (example_new_cache_after true example_new_cache_lookup) = Some (tt, s1)
    /\ example_fire CbNexeReadDidOpen PP.OK None s1 = Some (tt, s2)
    /\ translated_fd_ s2 = Some (mkDescWrapper example_nexe 0).
Proof.
  destruct (new_cache_hit_skips_the_translation
              example_ShouldDelayProgressEvent example_HasCacheKey
              example_GetCacheKey example_GetCacheValidators
              example_CacheControlNoStore
              (example_new_cache_after true example_new_cache_lookup)
              PP.OK [])
    as (s1 & s2 & Hrun1 & _ & _ & _ & _ & Hrun2 & Hfd & _).
  - vm_compute; reflexivity.
  - vm_compute. discriminate.
  - vm_compute; reflexivity.
  - vm_compute; reflexivity.
  - vm_compute; reflexivity.
  - exists s1, s2. split; [exact Hrun1|]. split; [exact Hrun2|exact Hfd].
Defined.


(** The key of the example request: validators, then URL. *)
Lemma cache_lookup_key_witness :
  exists s',
    example_BitcodeStreamDidOpen PP.OK (example_after example_cache_ready)
    = Some (tt, s')
    /\ pnacl_options_ s' = mkPnaclOptions 2 "abc123U".
Proof.
  destruct (BitcodeStreamDidOpen_looks_up_validators_and_url
              example_HasCacheKey example_GetCacheKey
              example_GetCacheValidators example_CacheControlNoStore
              (example_after example_cache_ready)
              (mkFileDownloader "U" "abc123" 350))
    as (s' & Hrun & Hopts & _).
  - vm_compute; reflexivity.
  - vm_compute; reflexivity.
  - vm_compute; reflexivity.
  - vm_compute. discriminate.
  - vm_compute. discriminate.
  - exists s'. split; [exact Hrun|]. rewrite Hopts. vm_compute. reflexivity.
Defined.

(** The stream of the example request fails to open, without the new
    cache: the failure is kept. *)
Lemma stream_open_failure_witness :
  exists s',
    example_BitcodeStreamDidOpen PP.ERROR_FAILED
      (example_after example_cache_ready) = Some (tt, s')
    /\ translate_finish_error_ s' = PP.ERROR_FAILED
    /\ error_already_reported_ s' = false.
Proof.
  destruct (BitcodeStreamDidOpen_failure_is_reported_at_once_with_the_new_cache
              example_HasCacheKey example_GetCacheKey
              example_GetCacheValidators example_CacheControlNoStore
              (example_after example_cache_ready) PP.ERROR_FAILED
              TranslateThread)
    as (Hold & _).
  - discriminate.
  - vm_compute; reflexivity.
  - destruct Hold as (s' & Hrun & Hfe & _ & _ & Hrep);
      [vm_compute; reflexivity|].
    exists s'. split; [exact Hrun|]. split; [exact Hfe|].
    rewrite Hrep. vm_compute. reflexivity.
Defined.

(** The cache directory cannot be created: the report leaves no callback,
    the ones of the object file and of the stream included. *)
Lemma reported_error_witness :
  callback_factory_
    (state_after example_start
       (example_fire CbDirectoryWasCreated PP.ERROR_FAILED None
          (example_after
             [Fire CbResourceInfoWasRead PP.OK; Fire CbResourcesDidLoad PP.OK;
              Fire CbFileSystemDidOpen PP.OK])))
  = [].
Proof.
  apply (a_reported_error_leaves_no_callback
           example_ShouldDelayProgressEvent example_HasCacheKey
           example_GetCacheKey example_GetCacheValidators
           example_CacheControlNoStore
           CbDirectoryWasCreated PP.ERROR_FAILED None
           (example_after
              [Fire CbResourceInfoWasRead PP.OK; Fire CbResourcesDidLoad PP.OK;
               Fire CbFileSystemDidOpen PP.OK])).
  - discriminate.
  - vm_compute; reflexivity.
  - vm_compute. discriminate.
Defined.

(** The off-the-record request never opens the file system of the
    cache. *)
Lemma no_local_cache_witness :
  Forall (fun a => is_local_cache_op a = false)
    (trace_
       (state_after example_start_off_the_record
          (example_run (example_setup_off_the_record ++ example_translation)
             example_start_off_the_record))).
Proof.
  destruct (no_local_cache_off_the_record_or_with_the_new_cache
              example_ShouldDelayProgressEvent example_HasCacheKey
              example_GetCacheKey example_GetCacheValidators
              example_CacheControlNoStore example_host_off_the_record "U"
              example_options
              (example_setup_off_the_record ++ example_translation)
              (state_after example_start_off_the_record
                 (example_run
                    (example_setup_off_the_record ++ example_translation)
                    example_start_off_the_record)))
    as (Hnone & _).
  - reflexivity.
  - vm_compute; reflexivity.
  - exact Hnone.
Defined.

(** The example request, which uses the cache of the plugin, up to the end
    of the translation. *)
Lemma no_browser_cache_witness :
  Forall (fun a => is_browser_cache_op a = false)
    (trace_ (example_after example_miss)).
Proof.
  apply (no_browser_cache_without_the_new_cache
           example_ShouldDelayProgressEvent example_HasCacheKey
           example_GetCacheKey example_GetCacheValidators
           example_CacheControlNoStore example_host "U" example_options
           example_miss).
  - reflexivity.
  - vm_compute; reflexivity.
Defined.

(** Two failures in a row: the one notification is [PP_ERROR_FAILED]. *)
Lemma completion_callback_witness :
  Forall (fun e => e = PP.OK \/ e = PP.ERROR_FAILED)
    (notifications (trace_ (example_after example_two_failures))).
Proof.
  apply (completion_callback_gets_ok_or_failed
           example_ShouldDelayProgressEvent example_HasCacheKey
           example_GetCacheKey example_GetCacheValidators
           example_CacheControlNoStore example_host "U" example_options
           example_two_failures).
  vm_compute; reflexivity.
Defined.

(** When the translation is about to start, the thread object is there. *)
Lemma translate_thread_witness :
  translate_thread_ (example_after example_object_file_last)
  = Some TranslateThread.
Proof.
  destruct (translate_thread_exists_when_it_is_needed
              example_ShouldDelayProgressEvent example_HasCacheKey
              example_GetCacheKey example_GetCacheValidators
              example_CacheControlNoStore example_host "U" example_options
              example_object_file_last
              (example_after example_object_file_last))
    as (Hth & _).
  - vm_compute; reflexivity.
  - apply (Hth CbRunTranslate); [vm_compute; left; reflexivity|reflexivity].
Defined.

(** Five requests for statistics. *)
Lemma histogram_samples_witness :
  Forall sample_ok (uma_calls (histograms example_requests example_uma)).
Proof.
  apply histogram_samples_are_in_range.
  - repeat constructor.
  - repeat constructor.
  - constructor.
Defined.

(** A pexe two hundred thousand times the size of its nexe: a ratio of
    2147483700 percent is recorded as -2147483596. *)
Lemma large_ratio_witness :
  uma_calls
    (HistogramRatio "NaCl.Perf.Size.PexeNexeSizePct" 21474837 1 example_uma)
  = [HistogramCustomCounts "NaCl.Perf.Size.PexeNexeSizePct" (-2147483596)
       kRatioMin kRatioMax kRatioBuckets].
Proof.
  destruct (HistogramRatio_large_ratio_is_recorded_negative
              "NaCl.Perf.Size.PexeNexeSizePct" 21474837 1 example_uma)
    as (sample & Hcalls & Hsample & _).
  - lia.
  - lia.
  - lia.
  - vm_compute. split; [discriminate|reflexivity].
  - right. reflexivity.
  - rewrite Hcalls, Hsample. reflexivity.
Defined.

Lemma uma_lookup_witness :
  (uma_lookups (histograms example_requests example_uma) <= 1)%nat.
Proof.
  destruct (uma_interface_is_looked_up_once example_requests example_uma)
    as (Honce & _).
  - reflexivity.
  - reflexivity.
  - apply Honce. reflexivity.
Defined.

(** The example request stores its translation with a short first write,
    and gets it back. *)
Lemma cache_round_trip_witness :
  exists s1 s2 s3,
    example_copy_to_cache 5 example_short_write example_translated
    = Some (tt, s1)
    /\ example_fire CbNexeFileWasRenamed PP.OK None s1 = Some (tt, s2)
    /\ example_fire CbNexeReadDidOpen PP.OK None s2 = Some (tt, s3)
    /\ translated_fd_ s3 = Some (mkDescWrapper example_nexe 0).
Proof.
  destruct (cache_hit_returns_what_was_stored
              example_ShouldDelayProgressEvent example_HasCacheKey
              example_GetCacheKey example_GetCacheValidators
              example_CacheControlNoStore example_translated example_nexe
              (mkLocalTempFile ScratchName None None) []
              example_short_write)
    as (s1 & s2 & s3 & Hcopy & Hren & Hopen & Hfd & _).
  - vm_compute; reflexivity.
  - vm_compute; reflexivity.
  - vm_compute; reflexivity.
  - vm_compute; reflexivity.
  - intros i n Hn. destruct i; unfold example_short_write; lia.
  - exists s1, s2, s3. repeat split; assumption.
Defined.

(** The cache has the translation of the example request and the
    translation thread, started before the lookup, fails afterwards: the
    caller gets the cached file with [PP_OK] and then a failure
    indication. *)
Lemma C9_witness_hit_then_failed_translation :
  exists s s1 s2,
    example_run example_lookup_while_translating
      (BitcodeToNative example_host_cached "U" example_options)
    = Some (tt, s)
    /\ notifications (trace_ s) = []
    /\ example_fire CbCachedFileDidOpen PP.OK None s = Some (tt, s1)
    /\ translated_fd_ s1 = Some (mkDescWrapper example_nexe 0)
    /\ example_fire CbTranslateFinished PP.ERROR_FAILED None s1
       = Some (tt, s2)
    /\ translated_fd_ s2 = Some (mkDescWrapper example_nexe 0)
    /\ notifications (trace_ s2) = [PP.ERROR_FAILED; PP.OK].
Proof.
  pose (s := state_after example_start
               (example_run example_lookup_while_translating
                  (BitcodeToNative example_host_cached "U" example_options))).
  destruct (C9_completion_callback_runs_again_after_the_handover
              example_ShouldDelayProgressEvent example_HasCacheKey
              example_GetCacheKey example_GetCacheValidators
              example_CacheControlNoStore s
              (mkLocalTempFile (KeyName "abc123U") None None)
              PP.ERROR_FAILED)
    as (s1 & s2 & Hrun1 & Hfd1 & Hn1 & Hrun2 & Hfd2 & Hn2).
  - vm_compute; reflexivity.
  - vm_compute; left; reflexivity.
  - vm_compute; right; left; reflexivity.
  - vm_compute; reflexivity.
  - vm_compute. discriminate.
  - exists s, s1, s2.
    split; [vm_compute; reflexivity|].
    split; [vm_compute; reflexivity|].
    split; [exact Hrun1|]. split; [exact Hfd1|].
    split; [exact Hrun2|].
    split; [rewrite Hfd2; exact Hfd1|exact Hn2].
Defined.
